(** * Tuya BLE: credential cache, credential resolver and presence coordinator

    A shallow embedding of
    - [custom_components/tuya_ble/cloud.py]   (module [Cloud] below),
    - [custom_components/tuya_ble/tuya_ble/manager.py] (the credentials record),
    - [custom_components/tuya_ble/devices.py] (module [Devices] below),
    together with the properties of the specification that concern them.

    Python values are dynamically typed; the functions below branch on
    truthiness, [is None], [len], [in] and subscripting, so the values are
    modelled by the JSON fragment of Python ([pyval]) and every operation
    that can raise returns a [result]. *)

From Stdlib Require Import ZArith String Ascii List Lia Bool.
From stdpp Require Import base option list gmap strings pretty fin_maps.

Set Warnings "-register-all".
Open Scope string_scope.

(** ** Python values *)

Inductive pyval : Type :=
| VNone
| VBool (b : bool)
| VInt (z : Z)
| VStr (s : string)
| VList (l : list pyval)
| VDict (d : list (string * pyval)).

(** A [dict[str, Any]] held in a variable or an attribute. *)
Abbreviation dict := (gmap string pyval).

Inductive exn : Type :=
| KeyError (key : string)
| IndexError
| TypeError
| AttributeError.

Inductive result (A : Type) : Type :=
| Ok (a : A)
| Raise (e : exn).
Arguments Ok {A} a.
Arguments Raise {A} e.

Definition is_ok {A} (r : result A) : bool :=
  match r with Ok _ => true | Raise _ => false end.

Definition rbind {A B} (r : result A) (k : A -> result B) : result B :=
  match r with Ok a => k a | Raise e => Raise e end.

Notation "'let!' x ':=' r 'in' k" := (rbind r (fun x => k))
  (at level 10, x name, r at level 100, k at level 200, only parsing).

(** [bool(v)] *)
Definition py_truthy (v : pyval) : bool :=
  match v with
  | VNone => false
  | VBool b => b
  | VInt z => negb (z =? 0)%Z
  | VStr s => negb (String.eqb s "")
  | VList l => match l with [] => false | _ => true end
  | VDict d => match d with [] => false | _ => true end
  end.

(** [v is not None] *)
Definition is_not_none (v : pyval) : bool :=
  match v with VNone => false | _ => true end.

(** [d.get(key)] and [d.get(key, dflt)] on a [dict]. *)
Definition dict_get (d : dict) (key : string) : pyval := default VNone (d !! key).
Definition dict_get_or (d : dict) (key : string) (dflt : pyval) : pyval :=
  default dflt (d !! key).

(** [key in d] *)
Definition dict_contains (d : dict) (key : string) : bool :=
  match d !! key with Some _ => true | None => false end.

(** [d[key]] *)
Definition dict_getitem (d : dict) (key : string) : result pyval :=
  match d !! key with Some v => Ok v | None => Raise (KeyError key) end.

(** [d.update(other)]: the entries of [other] win. *)
Definition dict_update (d other : dict) : dict := other ∪ d.

(** Lookup in a nested JSON object (first binding of the key). *)
Fixpoint assoc_get (d : list (string * pyval)) (key : string) : option pyval :=
  match d with
  | [] => None
  | (k, v) :: d' => if String.eqb k key then Some v else assoc_get d' key
  end.

(** [v.get(key)] on an arbitrary value: only a dict has the method. *)
Definition py_get (v : pyval) (key : string) : result pyval :=
  match v with
  | VDict d => Ok (default VNone (assoc_get d key))
  | _ => Raise AttributeError
  end.

(** [len(v)] *)
Definition py_len (v : pyval) : result nat :=
  match v with
  | VStr s => Ok (String.length s)
  | VList l => Ok (length l)
  | VDict d => Ok (length d)
  | _ => Raise TypeError
  end.

(** Whether [len(v)] is defined. *)
Definition has_len (v : pyval) : bool :=
  match v with VStr _ | VList _ | VDict _ => true | _ => false end.

(** [isinstance(v, Iterable)] together with the items a [for] loop visits:
    the elements of a list, the characters of a string, the keys of a dict. *)
Definition chars (s : string) : list pyval :=
  map (fun c => VStr (String c EmptyString)) (list_ascii_of_string s).

Definition py_iter (v : pyval) : option (list pyval) :=
  match v with
  | VList l => Some l
  | VStr s => Some (chars s)
  | VDict d => Some (map (fun kv => VStr kv.1) d)
  | _ => None
  end.

(** [v[0]] *)
Definition py_first (v : pyval) : result pyval :=
  match v with
  | VList (x :: _) => Ok x
  | VStr (String c _) => Ok (VStr (String c EmptyString))
  | VList [] | VStr EmptyString => Raise IndexError
  | VDict _ => Raise (KeyError "0")
  | _ => Raise TypeError
  end.

Definition is_str (v : pyval) (s : string) : bool :=
  match v with VStr t => String.eqb t s | _ => false end.

Definition is_substring (needle s : string) : bool :=
  match String.index 0 needle s with Some _ => true | None => false end.

(** [key in v] *)
Definition py_contains (v : pyval) (key : string) : result bool :=
  match v with
  | VDict d => Ok (match assoc_get d key with Some _ => true | None => false end)
  | VList l => Ok (existsb (fun x => is_str x key) l)
  | VStr s => Ok (is_substring key s)
  | _ => Raise TypeError
  end.

(** [v[key]] for a string key. *)
Definition py_getitem (v : pyval) (key : string) : result pyval :=
  match v with
  | VDict d => match assoc_get d key with Some x => Ok x | None => Raise (KeyError key) end
  | _ => Raise TypeError
  end.

(** [c.upper()] on the ASCII letters. *)
Definition upper_ascii (c : ascii) : ascii :=
  let n := nat_of_ascii c in
  if (97 <=? n)%nat && (n <=? 122)%nat then ascii_of_nat (n - 32) else c.

Fixpoint upper (s : string) : string :=
  match s with
  | EmptyString => EmptyString
  | String c s' => String (upper_ascii c) (upper s')
  end.

(** [":".join(v[i : i + 2] for i in range(0, 12, 2)).upper()]: slicing is
    defined on every sequence, but [join] accepts only string slices. *)
Definition mac_of (v : pyval) : result string :=
  match v with
  | VStr s =>
      Ok (upper (String.concat ":"
                   (map (fun i => String.substring i 2 s) [0; 2; 4; 6; 8; 10]%nat)))
  | _ => Raise TypeError
  end.

(** ** [json.dumps] with its default arguments *)

Definition dquote : string := String (ascii_of_nat 34) EmptyString.
Definition backslash : string := String (ascii_of_nat 92) EmptyString.

Definition hex_digit (n : nat) : ascii :=
  if (n <? 10)%nat then ascii_of_nat (48 + n) else ascii_of_nat (87 + n).

(** One character of a string literal, [ensure_ascii=True]: the quote and
    the backslash are escaped, the usual control characters have short
    escapes, and everything outside [' '..'~'] is written [\u00xx]. *)
Definition json_escape_char (c : ascii) : string :=
  let n := nat_of_ascii c in
  if (n =? 34)%nat then backslash +:+ dquote
  else if (n =? 92)%nat then backslash +:+ backslash
  else if (n =? 10)%nat then backslash +:+ "n"
  else if (n =? 13)%nat then backslash +:+ "r"
  else if (n =? 9)%nat then backslash +:+ "t"
  else if (n =? 12)%nat then backslash +:+ "f"
  else if (n =? 8)%nat then backslash +:+ "b"
  else if (32 <=? n)%nat && (n <=? 126)%nat then String c EmptyString
  else backslash +:+ "u00"
         +:+ String (hex_digit (n / 16)) (String (hex_digit (n mod 16)) EmptyString).

Fixpoint json_escape (s : string) : string :=
  match s with
  | EmptyString => EmptyString
  | String c s' => json_escape_char c +:+ json_escape s'
  end.

Definition json_quote (s : string) : string := dquote +:+ json_escape s +:+ dquote.

Fixpoint json_dumps (v : pyval) : string :=
  match v with
  | VNone => "null"
  | VBool true => "true"
  | VBool false => "false"
  | VInt z => pretty z
  | VStr s => json_quote s
  | VList l => "[" +:+ String.concat ", " (map json_dumps l) +:+ "]"
  | VDict d =>
      "{" +:+ String.concat ", "
                (map (fun kv => match kv with
                                | (k, x) => json_quote k +:+ ": " +:+ json_dumps x
                                end) d) +:+ "}"
  end.

(** ** Configuration keys

    [const.py] of the integration and the Home Assistant constants are not
    part of the sources at hand; the keys below carry the field names the
    specification uses. *)

(** Modelled from the spec: the six login fields (endpoint URL, access id,
    access secret, username, password, country code). *)
Definition CONF_ENDPOINT : string := "endpoint".
Definition CONF_ACCESS_ID : string := "access_id".
Definition CONF_ACCESS_SECRET : string := "access_secret".
Definition CONF_USERNAME : string := "username".
Definition CONF_PASSWORD : string := "password".
Definition CONF_COUNTRY_CODE : string := "country_code".

(** Modelled from the spec: the fields of a credentials record and the
    address it is stored under. *)
Definition CONF_ADDRESS : string := "address".
Definition CONF_UUID : string := "uuid".
Definition CONF_LOCAL_KEY : string := "local_key".
Definition CONF_DEVICE_ID : string := "device_id".
Definition CONF_CATEGORY : string := "category".
Definition CONF_PRODUCT_ID : string := "product_id".
Definition CONF_DEVICE_NAME : string := "device_name".
Definition CONF_PRODUCT_MODEL : string := "product_model".
Definition CONF_PRODUCT_NAME : string := "product_name".

(** Modelled from the spec: the success flag and the record list of a
    response of the remote service, and the MAC field of a factory record. *)
Definition TUYA_RESPONSE_SUCCESS : string := "success".
Definition TUYA_RESPONSE_RESULT : string := "result".
Definition TUYA_FACTORY_INFO_MAC : string := "mac".

(** ** manager.py *)

Record TuyaBLEDeviceCredentials : Type := {
  uuid : pyval;
  local_key : pyval;
  device_id : pyval;
  category : pyval;
  product_id : pyval;
  device_name : pyval;
  product_model : pyval;
  product_name : pyval
}.

(** [TuyaBLEDeviceCredentials.create]: the dataclass constructor stores its
    arguments; it inspects none of them. *)
Definition create (uuid local_key device_id category product_id
                   device_name product_model product_name : pyval)
  : result TuyaBLEDeviceCredentials :=
  Ok {| uuid := uuid; local_key := local_key; device_id := device_id;
        category := category; product_id := product_id;
        device_name := device_name; product_model := product_model;
        product_name := product_name |}.

(** ** cloud.py *)

Module Cloud.

(** The handle of the remote service.  [TuyaOpenAPI(endpoint, access_id,
    access_secret)] builds it; [connect] records the session it obtained. *)
Record TuyaOpenAPI : Type := {
  endpoint : pyval;
  access_id : pyval;
  access_secret : pyval;
  token_info : option dict
}.

(** What is sent to the remote service.  The two GET requests stand for
    [TUYA_API_DEVICES_URL % api.token_info.uid] and
    [TUYA_API_FACTORY_INFO_URL % device_id]. *)
Inductive request : Type :=
| Connect (api : TuyaOpenAPI) (username password country_code : pyval)
| GetDevices (api : TuyaOpenAPI)
| GetFactoryInfo (api : TuyaOpenAPI) (device_id : pyval).

(** A mutable dict object is referred to by its location in the heap; two
    variables holding the same location alias each other. *)
Abbreviation ref := nat.

(** [login] holds a reference to the dict that was passed to [_login], not a
    copy of it. *)
Record TuyaCloudCacheItem : Type := {
  item_api : option TuyaOpenAPI;
  item_login : ref;
  item_credentials : gmap string dict
}.

Inductive CacheConfiguration : Type := ENABLE | DISABLE.

(** The module-level [_cache] is a Python dict: it is enumerated in insertion
    order, assigning to a fresh key appends, assigning to a known key keeps
    its position. *)
Abbreviation cache_table := (list (string * TuyaCloudCacheItem)).

Fixpoint cache_get (c : cache_table) (key : string) : option TuyaCloudCacheItem :=
  match c with
  | [] => None
  | (k, it) :: c' => if decide (k = key) then Some it else cache_get c' key
  end.

Fixpoint cache_alter (f : TuyaCloudCacheItem -> TuyaCloudCacheItem)
    (key : string) (c : cache_table) : cache_table :=
  match c with
  | [] => []
  | (k, it) :: c' =>
      if decide (k = key) then (k, f it) :: c' else (k, it) :: cache_alter f key c'
  end.

Definition cache_set (key : string) (it : TuyaCloudCacheItem) (c : cache_table)
  : cache_table :=
  match cache_get c key with
  | Some _ => cache_alter (fun _ => it) key c
  | None => c ++ [(key, it)]
  end.

(** The state the manager works on: the dict objects, the process-wide
    cache and the requests issued so far (oldest first). *)
Record world : Type := {
  heap : gmap ref dict;
  _cache : cache_table;
  net_log : list request
}.

Record ConfigEntry : Type := {
  entry_data : dict;
  entry_options : dict
}.

(** [hass.config_entries.async_entries(TUYA_DOMAIN)] and [..(DOMAIN)]. *)
Record HomeAssistant : Type := {
  tuya_config_entries : list ConfigEntry;
  ble_config_entries : list ConfigEntry
}.

Record HASSTuyaBLEDeviceManager : Type := {
  _hass : HomeAssistant;
  _data : ref
}.

Definition CONF_TUYA_LOGIN_KEYS : list string :=
  [CONF_ENDPOINT; CONF_ACCESS_ID; CONF_ACCESS_SECRET;
   CONF_USERNAME; CONF_PASSWORD; CONF_COUNTRY_CODE].

Definition CONF_TUYA_DEVICE_KEYS : list string :=
  [CONF_UUID; CONF_LOCAL_KEY; CONF_DEVICE_ID; CONF_CATEGORY; CONF_PRODUCT_ID;
   CONF_DEVICE_NAME; CONF_PRODUCT_NAME; CONF_PRODUCT_MODEL].

(** *** Computations: state passing with exceptions *)

Definition M (A : Type) : Type := world -> result A * world.

Definition ret {A} (a : A) : M A := fun w => (Ok a, w).

Definition bind {A B} (m : M A) (k : A -> M B) : M B :=
  fun w =>
    match m w with
    | (Ok a, w') => k a w'
    | (Raise e, w') => (Raise e, w')
    end.

Notation "'let*' x ':=' m 'in' k" := (bind m (fun x => k))
  (at level 10, x name, m at level 100, k at level 200, only parsing).
Notation "'let*' ' p ':=' m 'in' k" := (bind m (fun x => match x with p => k end))
  (at level 10, p pattern, m at level 100, k at level 200, only parsing).
Notation "'exec' m 'in' k" := (bind m (fun _ => k))
  (at level 10, m at level 100, k at level 200, only parsing).

Definition lift {A} (r : result A) : M A := fun w => (r, w).

Fixpoint for_each {A} (l : list A) (body : A -> M unit) : M unit :=
  match l with
  | [] => ret tt
  | x :: l' => exec body x in for_each l' body
  end.

Definition content (w : world) (r : ref) : dict := default ∅ (heap w !! r).

(** The world after the dict at [r] became [d], after the cache became [c],
    and after the request [q] was sent. *)
Definition with_dict (r : ref) (d : dict) (w : world) : world :=
  {| heap := <[r := d]> (heap w); _cache := _cache w; net_log := net_log w |}.

Definition with_cache (c : cache_table) (w : world) : world :=
  {| heap := heap w; _cache := c; net_log := net_log w |}.

Definition sent (q : request) (w : world) : world :=
  {| heap := heap w; _cache := _cache w; net_log := net_log w ++ [q] |}.

Definition deref (r : ref) : M dict := fun w => (Ok (content w r), w).

Definition modify (r : ref) (f : dict -> dict) : M unit :=
  fun w => (Ok tt, with_dict r (f (content w r)) w).

(** [{}]: a new dict object. *)
Definition alloc : M ref :=
  fun w => let r := fresh (dom (heap w)) in (Ok r, with_dict r ∅ w).

Definition get_cache : M cache_table := fun w => (Ok (_cache w), w).

Definition set_cache (f : cache_table -> cache_table) : M unit :=
  fun w => (Ok tt, with_cache (f (_cache w)) w).

(** [_cache.get(key)] *)
Definition cache_lookup (key : string) : M (option TuyaCloudCacheItem) :=
  fun w => (Ok (cache_get (_cache w) key), w).

(** Reading the attributes of the item object held under [key]. *)
Definition item_of (key : string) : M TuyaCloudCacheItem :=
  fun w => match cache_get (_cache w) key with
           | Some it => (Ok it, w)
           | None => (Raise AttributeError, w)
           end.

Section WithRemote.

(** The remote service: its answer to a request may depend on how many
    requests were made before. *)
Variable remote : nat -> request -> dict.

Definition call (q : request) : M dict :=
  fun w => (Ok (remote (length (net_log w)) q), sent q w).

Definition _is_login_success (response : dict) : bool :=
  py_truthy (dict_get_or response TUYA_RESPONSE_SUCCESS (VBool false)).

Definition _get_cache_key (data : dict) : string :=
  let key_dict := map (fun key => (key, dict_get data key)) CONF_TUYA_LOGIN_KEYS in
  json_dumps (VDict key_dict).

Definition _has_login (data : dict) : bool :=
  forallb (fun key => is_not_none (dict_get data key)) CONF_TUYA_LOGIN_KEYS.

Definition _has_credentials (data : dict) : bool :=
  forallb (fun key => is_not_none (dict_get data key)) CONF_TUYA_DEVICE_KEYS.

(** The handle [_login] builds from the dict [d], before and after
    [connect], and the login request it sends. *)
Definition api_of (d : dict) (session : option dict) : TuyaOpenAPI :=
  {| endpoint := dict_get_or d CONF_ENDPOINT (VStr "");
     access_id := dict_get_or d CONF_ACCESS_ID (VStr "");
     access_secret := dict_get_or d CONF_ACCESS_SECRET (VStr "");
     token_info := session |}.

Definition connect_request (d : dict) : request :=
  Connect (api_of d None)
    (dict_get_or d CONF_USERNAME (VStr ""))
    (dict_get_or d CONF_PASSWORD (VStr ""))
    (dict_get_or d CONF_COUNTRY_CODE (VStr "")).

(** [_login(data, cache_config)].  The arguments of the two log records are
    evaluated even when nothing is logged: [len(access_secret)] before the
    connection and [data[CONF_USERNAME]] after it. *)
Definition _login (data : ref) (cache_config : CacheConfiguration) : M dict :=
  let* d := deref data in
  if (size d =? 0)%nat then ret ∅ else
  let access_secret := dict_get_or d CONF_ACCESS_SECRET (VStr "") in
  exec lift (py_len access_secret) in
  let* response := call (connect_request d) in
  let api := api_of d (Some response) in
  exec (if _is_login_success response then
          exec lift (dict_getitem d CONF_USERNAME) in
          match cache_config with
          | ENABLE =>
              let cache_key := _get_cache_key d in
              let* cache_item := cache_lookup cache_key in
              match cache_item with
              | Some _ =>
                  set_cache (cache_alter
                    (fun it => {| item_api := Some api; item_login := data;
                                  item_credentials := item_credentials it |})
                    cache_key)
              | None =>
                  set_cache (cache_set cache_key
                    {| item_api := Some api; item_login := data;
                       item_credentials := ∅ |})
              end
          | DISABLE => ret tt
          end
        else
          exec lift (dict_getitem d CONF_USERNAME) in ret tt) in
  ret response.

(** The cache after a successful login with the dict [d] held at [data]:
    what the [ENABLE] branch of [_login] leaves behind. *)
Definition login_cache (data : ref) (d : dict) (response : dict) (c : cache_table)
  : cache_table :=
  match cache_get c (_get_cache_key d) with
  | Some _ =>
      cache_alter (fun it => {| item_api := Some (api_of d (Some response));
                                item_login := data;
                                item_credentials := item_credentials it |})
        (_get_cache_key d) c
  | None =>
      cache_set (_get_cache_key d)
        {| item_api := Some (api_of d (Some response)); item_login := data;
           item_credentials := ∅ |} c
  end.

Definition _check_login (self : HASSTuyaBLEDeviceManager) : M bool :=
  let* d := deref (_data self) in
  let* item := cache_lookup (_get_cache_key d) in
  ret (match item with Some _ => true | None => false end).

Definition login (self : HASSTuyaBLEDeviceManager) (cache_config : CacheConfiguration)
  : M dict := _login (_data self) cache_config.

Definition login_cached (self : HASSTuyaBLEDeviceManager)
    (cache_config : CacheConfiguration) : M dict :=
  _login (_data self) cache_config.

(** The loop body of [_fill_cache_item] below the factory info request:
    the address and the credentials record that [device] contributes, if
    its factory record has a MAC field. *)
Definition factory_entry (device id : pyval) (fi_response : dict)
  : result (option (string * dict)) :=
  let fi_response_result := dict_get fi_response TUYA_RESPONSE_RESULT in
  if py_truthy fi_response_result then
    let! n := py_len fi_response_result in
    if (0 <? n)%nat then
      let! factory_info := py_first fi_response_result in
      if py_truthy factory_info then
        let! has_mac := py_contains factory_info TUYA_FACTORY_INFO_MAC in
        if has_mac then
          let! raw := py_getitem factory_info TUYA_FACTORY_INFO_MAC in
          let! mac := mac_of raw in
          let! v_uuid := py_get device "uuid" in
          let! v_local_key := py_get device "local_key" in
          let! v_category := py_get device "category" in
          let! v_product_id := py_get device "product_id" in
          let! v_name := py_get device "name" in
          let! v_model := py_get device "model" in
          let! v_product_name := py_get device "product_name" in
          Ok (Some (mac,
                    list_to_map
                      [(CONF_ADDRESS, VStr mac); (CONF_UUID, v_uuid);
                       (CONF_LOCAL_KEY, v_local_key); (CONF_DEVICE_ID, id);
                       (CONF_CATEGORY, v_category); (CONF_PRODUCT_ID, v_product_id);
                       (CONF_DEVICE_NAME, v_name); (CONF_PRODUCT_MODEL, v_model);
                       (CONF_PRODUCT_NAME, v_product_name)]))
        else Ok None
      else Ok None
    else Ok None
  else Ok None.

(** [item.credentials[mac] = record] on the item object held under [item]. *)
Definition add_credentials (mac : string) (record : dict) (it : TuyaCloudCacheItem)
  : TuyaCloudCacheItem :=
  {| item_api := item_api it; item_login := item_login it;
     item_credentials := <[mac := record]> (item_credentials it) |}.

(** The body of the loop of [_fill_cache_item] for one [device]; [item] is
    the key under which [_cache] holds the item object being filled. *)
Definition fill_device (item : string) (api : TuyaOpenAPI) (device : pyval) : M unit :=
  let* id := lift (py_get device "id") in
  let* fi_response := call (GetFactoryInfo api id) in
  let* entry := lift (factory_entry device id fi_response) in
  match entry with
  | Some (mac, record) => set_cache (cache_alter (add_credentials mac record) item)
  | None => ret tt
  end.

Definition _fill_cache_item (item : string) : M unit :=
  let* it := item_of item in
  match item_api it with
  | None => ret tt
  | Some api =>
      let* devices_response := call (GetDevices api) in
      if py_truthy (dict_get devices_response TUYA_RESPONSE_SUCCESS) then
        let devices := dict_get devices_response TUYA_RESPONSE_RESULT in
        match py_iter devices with
        | Some l => for_each l (fill_device item api)
        | None => ret tt
        end
      else ret tt
  end.

(** What a fill adds.  [grow m] is an item whose table took the records of
    [m]; [fill_delta t api l] collects the records the loop over the devices
    [l] stores when its first request is the [t]-th one, up to the device at
    which it raises, if any (a later device wins an address it shares with an
    earlier one); [fetched t api] is the same for a whole [_fill_cache_item]
    that starts at request [t]. *)
Definition grow (m : gmap string dict) (it : TuyaCloudCacheItem) : TuyaCloudCacheItem :=
  {| item_api := item_api it; item_login := item_login it;
     item_credentials := m ∪ item_credentials it |}.

Fixpoint fill_delta (t : nat) (api : TuyaOpenAPI) (l : list pyval) : gmap string dict :=
  match l with
  | [] => ∅
  | device :: l' =>
      match py_get device "id" with
      | Raise _ => ∅
      | Ok id =>
          match factory_entry device id (remote t (GetFactoryInfo api id)) with
          | Raise _ => ∅
          | Ok None => fill_delta (S t) api l'
          | Ok (Some (mac, record)) => fill_delta (S t) api l' ∪ {[ mac := record ]}
          end
      end
  end.

Definition fetched (t : nat) (api : TuyaOpenAPI) : gmap string dict :=
  let devices_response := remote t (GetDevices api) in
  if py_truthy (dict_get devices_response TUYA_RESPONSE_SUCCESS) then
    match py_iter (dict_get devices_response TUYA_RESPONSE_RESULT) with
    | Some l => fill_delta (S t) api l
    | None => ∅
    end
  else ∅.

(** Counting what was sent: logins and device list fetches. *)
Definition is_factory_info (q : request) : bool :=
  match q with GetFactoryInfo _ _ => true | _ => false end.




(** The relation between a cache and a later one that the specification
    calls monotone enrichment: no key is lost, and the table of a key keeps
    every address it had. *)
Definition cache_le (c c' : cache_table) : Prop :=
  forall key it,
    cache_get c key = Some it ->
    exists it', cache_get c' key = Some it'
                /\ dom (item_credentials it) ⊆ dom (item_credentials it').


(** [build_cache] attempts a login for [key] when the entry is missing or
    has no address yet. *)
Definition needs_login (key : string) (c : cache_table) : bool :=
  match cache_get c key with
  | None => true
  | Some it => (size (item_credentials it) =? 0)%nat
  end.

(** The records [build_cache] visits, in order. *)
Definition records (hass : HomeAssistant) : list dict :=
  (map entry_data (tuya_config_entries hass)
     ++ map entry_options (ble_config_entries hass))%list.

(** The body shared by the two loops of [build_cache]: [data] is the one
    scratch dict of the sweep, [source] the [data] (first loop) or the
    [options] (second loop) of the configuration entry. *)
Definition build_cache_entry (data : ref) (source : dict) : M unit :=
  exec modify data (fun _ => ∅) in
  exec modify data (fun d => dict_update d source) in
  let* d := deref data in
  if negb (forallb (dict_contains d) CONF_TUYA_LOGIN_KEYS) then ret tt else
  let key := _get_cache_key d in
  let* item := cache_lookup key in
  if match item with
     | None => true
     | Some it => (size (item_credentials it) =? 0)%nat
     end
  then
    let* response := _login data ENABLE in
    if _is_login_success response then
      let* item := cache_lookup key in
      match item with
      | Some it =>
          if (size (item_credentials it) =? 0)%nat then _fill_cache_item key else ret tt
      | None => ret tt
      end
    else ret tt
  else ret tt.

Definition build_cache_from (data : ref) (hass : HomeAssistant) : M unit :=
  exec for_each (tuya_config_entries hass)
         (fun config_entry => build_cache_entry data (entry_data config_entry)) in
  for_each (ble_config_entries hass)
    (fun config_entry => build_cache_entry data (entry_options config_entry)).

Definition build_cache (self : HASSTuyaBLEDeviceManager) : M unit :=
  let* data := alloc in
  build_cache_from data (_hass self).

Definition get_login_from_cache (self : HASSTuyaBLEDeviceManager) : M unit :=
  let* c := get_cache in
  match c with
  | (_, cache_item) :: _ =>
      let* l := deref (item_login cache_item) in
      modify (_data self) (fun d => dict_update d l)
  | [] => ret tt
  end.

Fixpoint find_address (address : string) (c : cache_table) : option string :=
  match c with
  | [] => None
  | (key, cache_item) :: c' =>
      match item_credentials cache_item !! address with
      | Some _ => Some key
      | None => find_address address c'
      end
  end.

Definition _find_cache_key_for_address (self : HASSTuyaBLEDeviceManager)
    (address : string) : M (option string) :=
  let* d := deref (_data self) in
  if _has_login d then ret (Some (_get_cache_key d)) else
  let* c := get_cache in
  ret (find_address address c).

(** Truthiness of a [str | None]. *)
Definition key_truthy (cache_key : option string) : bool :=
  match cache_key with
  | Some k => negb (String.eqb k "")
  | None => false
  end.

(** The item object a key stands for, as a reference: [Some key] when
    [_cache.get(key)] is an item. *)
Definition item_ref (key : string) : M (option string) :=
  let* item := cache_lookup key in
  ret (match item with Some _ => Some key | None => None end).

Definition _ensure_cache_item (self : HASSTuyaBLEDeviceManager)
    (cache_key : option string) : M (option string) :=
  match cache_key with
  | None => ret None
  | Some key =>
      if negb (key_truthy cache_key) then ret None else
      let* item := item_ref key in
      let* item :=
        match item with
        | None =>
            let* response := login self ENABLE in
            if _is_login_success response then item_ref key else ret None
        | Some _ => ret item
        end in
      exec match item with
           | Some it => _fill_cache_item it
           | None => ret tt
           end in
      ret item
  end.

Definition _create_credentials_from_dict (credentials : dict)
  : result (option TuyaBLEDeviceCredentials) :=
  let uuid := dict_get credentials CONF_UUID in
  let local_key := dict_get credentials CONF_LOCAL_KEY in
  let device_id := dict_get credentials CONF_DEVICE_ID in
  let category := dict_get credentials CONF_CATEGORY in
  let product_id := dict_get credentials CONF_PRODUCT_ID in
  if py_truthy uuid && py_truthy local_key && py_truthy device_id
     && py_truthy category && py_truthy product_id
  then
    match create uuid local_key device_id category product_id
            (dict_get credentials CONF_DEVICE_NAME)
            (dict_get credentials CONF_PRODUCT_MODEL)
            (dict_get credentials CONF_PRODUCT_NAME) with
    | Ok c => Ok (Some c)
    | Raise e => Raise e
    end
  else Ok None.

(** The first half of [get_device_credentials]: the local shortcut or the
    cache, giving the [credentials] dict and the [item] it was found in. *)
Definition find_credentials (self : HASSTuyaBLEDeviceManager) (address : string)
    (force_update : bool) : M (option dict * option string) :=
  let* d := deref (_data self) in
  if negb force_update && _has_credentials d then ret (Some d, None)
  else
    let* cache_key := _find_cache_key_for_address self address in
    let* present :=
      match cache_key with
      | Some key => cache_lookup key
      | None => ret None
      end in
    let* item :=
      if force_update
         || (key_truthy cache_key && match present with Some _ => false | None => true end)
      then _ensure_cache_item self cache_key
      else if key_truthy cache_key
           then match cache_key with Some key => item_ref key | None => ret None end
           else ret None in
    match item with
    | Some it =>
        let* i := item_of it in
        ret (item_credentials i !! address, item)
    | None => ret (None, None)
    end.

Definition get_device_credentials (self : HASSTuyaBLEDeviceManager)
    (address : string) (force_update save_data : bool)
  : M (option TuyaBLEDeviceCredentials) :=
  let* found := find_credentials self address force_update in
  let credentials := found.1 in
  let item := found.2 in
  match credentials with
  | None => ret None
  | Some credentials =>
      if (size credentials =? 0)%nat then ret None else
      let* result := lift (_create_credentials_from_dict credentials) in
      exec (if save_data then
              exec match item with
                   | Some it =>
                       let* i := item_of it in
                       let* l := deref (item_login i) in
                       modify (_data self) (fun d => dict_update d l)
                   | None => ret tt
                   end in
              modify (_data self) (fun d => dict_update d credentials)
            else ret tt) in
      ret result
  end.

End WithRemote.

End Cloud.

(** ** devices.py: the short address *)

Module Names.

(** [address.replace("-", ":")] *)
Fixpoint replace_hyphen (s : string) : string :=
  match s with
  | EmptyString => EmptyString
  | String c s' =>
      String (if Ascii.eqb c "-"%char then ":"%char else c) (replace_hyphen s')
  end.

(** [s.split(":")]: the pieces between the colons; there is always at least
    one piece. *)
Fixpoint split_colon (s : string) : list string :=
  match s with
  | EmptyString => [EmptyString]
  | String c s' =>
      if Ascii.eqb c ":"%char then EmptyString :: split_colon s'
      else match split_colon s' with
           | piece :: pieces => String c piece :: pieces
           | [] => [String c EmptyString]
           end
  end.

(** [s[-6:]] *)
Definition last_six (s : string) : string :=
  String.substring (String.length s - 6) 6 s.

(** [get_short_address]: [results[-3]] is evaluated first and raises when
    there are fewer than three pieces. *)
Definition get_short_address (address : string) : result string :=
  let results := split_colon (upper (replace_hyphen address)) in
  match rev results with
  | r1 :: r2 :: r3 :: _ => Ok (last_six (r3 +:+ r2 +:+ r1))
  | _ => Raise IndexError
  end.

(** The number of separators ([:] or [-]) in an address. *)
Fixpoint separators (s : string) : nat :=
  match s with
  | EmptyString => 0
  | String c s' =>
      (if Ascii.eqb c ":"%char || Ascii.eqb c "-"%char then 1 else 0) + separators s'
  end.

(** A string without separators. *)
Fixpoint plain (s : string) : bool :=
  match s with
  | EmptyString => true
  | String c s' =>
      negb (Ascii.eqb c ":"%char) && negb (Ascii.eqb c "-"%char) && plain s'
  end.

(** A character a piece of a split, upper-cased address can hold: no
    separator, and unchanged by [upper]. *)
Definition short_char (c : ascii) : bool :=
  negb (Ascii.eqb c ":"%char) && negb (Ascii.eqb c "-"%char)
  && Ascii.eqb (upper_ascii c) c.

Fixpoint every (P : ascii -> bool) (s : string) : bool :=
  match s with
  | EmptyString => true
  | String c s' => P c && every P s'
  end.

End Names.

(** ** devices.py: the coordinator of one device *)

Module Devices.

(** The attributes of the transport's device handle the coordinator reads. *)
Record TuyaBLEDevice : Type := {
  address : string;
  device_id : string;
  category : string;
  product_id : string;
  hardware_version : string;
  device_version : string;
  protocol_version : string
}.

Record TuyaBLEDataPoint : Type := {
  id : nat;
  changed_by_device : bool
}.

Record TuyaBLEFingerbotInfo : Type := {
  switch : nat;
  mode : nat;
  up_position : nat;
  down_position : nat;
  hold_time : nat;
  reverse_positions : nat;
  manual_control : nat;
  program : nat
}.

Record TuyaBLEProductInfo : Type := {
  name : string;
  manufacturer : string;
  fingerbot : option TuyaBLEFingerbotInfo
}.

Record TuyaBLECategoryInfo : Type := {
  products : gmap string TuyaBLEProductInfo;
  info : option TuyaBLEProductInfo
}.

(** The fields of [DeviceInfo] the coordinator passes to the registry.
    [identifiers] is the one-element set [{(DOMAIN, device.address)}],
    kept as the address. *)
Record DeviceInfo : Type := {
  identifiers : string;
  hw_version : string;
  sw_version : string
}.

(** An entry of Home Assistant's device registry. *)
Record DeviceEntry : Type := {
  entry_hw_version : string;
  entry_sw_version : string
}.

(** What lies outside the coordinator: the scheduler's pending timers
    (handle and delay), the number of timers ever scheduled, the device
    registry, and counters of the calls made to the collaborators. *)
Record HomeAssistant : Type := {
  pending : list (nat * nat);
  scheduled : nat;
  registry : gmap string DeviceEntry;
  registry_updates : nat;
  listener_updates : nat;
  bus : list (string * string)
}.

Record TuyaBLECoordinator : Type := {
  hass : HomeAssistant;
  _device : TuyaBLEDevice;
  _disconnected : bool;
  _unsub_disconnect : option nat
}.

Inductive signal : Type :=
| SigConnect
| SigDisconnect
| SigUpdate (updates : list TuyaBLEDataPoint)
| SigTimer (handle : nat).

Section WithConstants.

(** The grace delay and the product table come from [const.py] and from
    the module-level table of [devices.py]; the coordinator treats both as
    opaque values. *)
Variable SET_DISCONNECTED_DELAY : nat.
Variable devices_database : gmap string TuyaBLECategoryInfo.

Definition get_product_info_by_ids (category product_id : string)
  : option TuyaBLEProductInfo :=
  match devices_database !! category with
  | Some category_info =>
      match products category_info !! product_id with
      | Some product_info => Some product_info
      | None => info category_info
      end
  | None => None
  end.

Definition get_device_product_info (device : TuyaBLEDevice) : option TuyaBLEProductInfo :=
  get_product_info_by_ids (category device) (product_id device).

(** [get_device_info]: of the fields it builds, [name] is the one whose
    value can fail, through [get_short_address(device.address)]; the record
    is built only when that call returns. *)
Definition get_device_info (device : TuyaBLEDevice) : result DeviceInfo :=
  let! short_address := Names.get_short_address (address device) in
  Ok {| identifiers := address device;
        hw_version := hardware_version device;
        sw_version := device_version device +:+ " (protocol "
                        +:+ protocol_version device +:+ ")" |}.

(** [async_call_later(hass, delay, action)]: the new timer and its handle. *)
Definition async_call_later (h : HomeAssistant) (delay : nat) : HomeAssistant * nat :=
  let handle := scheduled h in
  ({| pending := pending h ++ [(handle, delay)];
      scheduled := S (scheduled h);
      registry := registry h;
      registry_updates := registry_updates h;
      listener_updates := listener_updates h;
      bus := bus h |}, handle).

(** Calling the handle cancels the timer, if it is still pending. *)
Definition cancel (handle : nat) (h : HomeAssistant) : HomeAssistant :=
  {| pending := filter (fun t => t.1 <> handle) (pending h);
     scheduled := scheduled h;
     registry := registry h;
     registry_updates := registry_updates h;
     listener_updates := listener_updates h;
     bus := bus h |}.

Definition async_update_listeners (h : HomeAssistant) : HomeAssistant :=
  {| pending := pending h;
     scheduled := scheduled h;
     registry := registry h;
     registry_updates := registry_updates h;
     listener_updates := S (listener_updates h);
     bus := bus h |}.

(** [device_registry.async_update_device(device.id, sw_version=.., hw_version=..)] *)
Definition async_update_device (key : string) (sw hw : string) (h : HomeAssistant)
  : HomeAssistant :=
  {| pending := pending h;
     scheduled := scheduled h;
     registry := <[key := {| entry_hw_version := hw; entry_sw_version := sw |}]> (registry h);
     registry_updates := S (registry_updates h);
     listener_updates := listener_updates h;
     bus := bus h |}.

Definition fire (event : string * string) (h : HomeAssistant) : HomeAssistant :=
  {| pending := pending h;
     scheduled := scheduled h;
     registry := registry h;
     registry_updates := registry_updates h;
     listener_updates := listener_updates h;
     bus := bus h ++ [event] |}.

Definition with_hass (self : TuyaBLECoordinator) (h : HomeAssistant) : TuyaBLECoordinator :=
  {| hass := h; _device := _device self;
     _disconnected := _disconnected self;
     _unsub_disconnect := _unsub_disconnect self |}.

(** [TuyaBLECoordinator.__init__] *)
Definition init (h : HomeAssistant) (device : TuyaBLEDevice) : TuyaBLECoordinator :=
  {| hass := h; _device := device; _disconnected := true; _unsub_disconnect := None |}.

Definition connected (self : TuyaBLECoordinator) : bool := negb (_disconnected self).

(** The registry part of [_async_handle_connect]; it raises what
    [get_device_info] raises, before the registry is touched. *)
Definition update_registry (device : TuyaBLEDevice) (h : HomeAssistant)
  : result HomeAssistant :=
  let! device_info := get_device_info device in
  Ok (match registry h !! identifiers device_info with
      | Some _ =>
          async_update_device (identifiers device_info)
            (sw_version device_info) (hw_version device_info) h
      | None => h
      end).

(** A handler gives back how it ended and the coordinator it leaves
    behind: what it wrote before it raised stays written. *)
Definition _async_handle_connect (self : TuyaBLECoordinator)
  : result unit * TuyaBLECoordinator :=
  let self :=
    match _unsub_disconnect self with
    | Some handle => with_hass self (cancel handle (hass self))
    | None => self
    end in
  if _disconnected self then
    let self :=
      {| hass := hass self; _device := _device self;
         _disconnected := false;
         _unsub_disconnect := _unsub_disconnect self |} in
    match update_registry (_device self) (hass self) with
    | Ok h => (Ok tt, with_hass self (async_update_listeners h))
    | Raise e => (Raise e, self)
    end
  else (Ok tt, self).

Definition _async_handle_update (self : TuyaBLECoordinator)
    (updates : list TuyaBLEDataPoint) : result unit * TuyaBLECoordinator :=
  match _async_handle_connect self with
  | (Raise e, self) => (Raise e, self)
  | (Ok _, self) =>
      let self := with_hass self (async_update_listeners (hass self)) in
      (Ok tt,
       match get_device_product_info (_device self) with
       | Some product =>
           match fingerbot product with
           | Some fb =>
               if negb (manual_control fb =? 0)%nat then
                 fold_left
                   (fun s update =>
                      if (id update =? switch fb)%nat && changed_by_device update
                      then with_hass s
                             (fire (address (_device s), device_id (_device s)) (hass s))
                      else s)
                   updates self
               else self
           | None => self
           end
       | None => self
       end)
  end.

Definition _set_disconnected (self : TuyaBLECoordinator) : TuyaBLECoordinator :=
  {| hass := async_update_listeners (hass self);
     _device := _device self;
     _disconnected := true;
     _unsub_disconnect := None |}.

Definition _async_handle_disconnect (self : TuyaBLECoordinator) : TuyaBLECoordinator :=
  match _unsub_disconnect self with
  | None =>
      let delay := SET_DISCONNECTED_DELAY in
      let '(h, handle) := async_call_later (hass self) delay in
      {| hass := h; _device := _device self;
         _disconnected := _disconnected self;
         _unsub_disconnect := Some handle |}
  | Some _ => self
  end.

(** The scheduler runs the action of a timer that is still pending, once. *)
Definition is_pending (handle : nat) (h : HomeAssistant) : bool :=
  existsb (fun t => (t.1 =? handle)%nat) (pending h).

(** The coordinator a signal leaves behind, whether its handler returned
    or raised. *)
Definition deliver (self : TuyaBLECoordinator) (s : signal) : TuyaBLECoordinator :=
  match s with
  | SigConnect => snd (_async_handle_connect self)
  | SigDisconnect => _async_handle_disconnect self
  | SigUpdate updates => snd (_async_handle_update self updates)
  | SigTimer handle =>
      if is_pending handle (hass self)
      then _set_disconnected (with_hass self (cancel handle (hass self)))
      else self
  end.

Definition run (self : TuyaBLECoordinator) (signals : list signal) : TuyaBLECoordinator :=
  fold_left deliver signals self.

(** The timer discipline of the coordinator: at most one timer is pending,
    and it is the one [_unsub_disconnect] refers to. *)
Definition timer_owned (self : TuyaBLECoordinator) : Prop :=
  match pending (hass self) with
  | [] => True
  | [(handle, _)] => _unsub_disconnect self = Some handle
  | _ => False
  end.


(** A Home Assistant instance in which nothing has happened yet. *)
Definition fresh_hass (reg : gmap string DeviceEntry) : HomeAssistant :=
  {| pending := []; scheduled := 0; registry := reg;
     registry_updates := 0; listener_updates := 0; bus := [] |}.

End WithConstants.

End Devices.

(** ** devices.py: states of the coordinator *)

Module Presence.
Import Devices.

(** Nothing is pending, or one timer with the delay [grace] whose handle the
    coordinator holds. *)
Definition graced (grace : nat) (self : TuyaBLECoordinator) : Prop :=
  pending (hass self) = []
  \/ exists handle,
       pending (hass self) = [(handle, grace)]
       /\ _unsub_disconnect self = Some handle
       /\ handle < scheduled (hass self).

(** Connected, nothing pending, and a handle stored. *)
Definition stuck (self : TuyaBLECoordinator) : Prop :=
  _disconnected self = false
  /\ pending (hass self) = []
  /\ exists handle, _unsub_disconnect self = Some handle.

(** The number of button presses an update reports for [device]: the data
    points with the id of the fingerbot switch that the device changed, when
    the product is a fingerbot with manual control. *)
Definition presses (devices_database : gmap string TuyaBLECategoryInfo)
    (device : TuyaBLEDevice) (updates : list TuyaBLEDataPoint) : nat :=
  match get_device_product_info devices_database device with
  | Some product =>
      match fingerbot product with
      | Some fb =>
          if negb (manual_control fb =? 0)%nat then
            length (List.filter
                      (fun update => (id update =? switch fb)%nat && changed_by_device update)
                      updates)
          else 0
      | None => 0
      end
  | None => 0
  end.

End Presence.

(** ** config_flow.py: the parts that drive the manager *)

Module ConfigFlow.
Import Cloud.

(** An entry of [TUYA_COUNTRIES]. *)
Record Country : Type := {
  name : string;
  country_code : string;
  endpoint : string
}.

(** How a coroutine of the flow ends: with a value, with an exception of the
    code it runs, or with the [RuntimeError] Python puts in the place of a
    [StopIteration] that leaves a coroutine. *)
Inductive outcome (A : Type) : Type :=
| Returns (a : A)
| Raises (e : exn)
| RuntimeError.
Arguments Returns {A} a.
Arguments Raises {A} e.
Arguments RuntimeError {A}.

Definition TUYA_RESPONSE_CODE : string := "code".
Definition TUYA_RESPONSE_MSG : string := "msg".

(** [next(country for country in countries if country.name == value)],
    where [value] is what [user_input[CONF_COUNTRY_CODE]] gives: the
    subscript is evaluated once per country visited. *)
Fixpoint find_country (countries : list Country) (user_input : dict)
  : outcome Country :=
  match countries with
  | [] => RuntimeError
  | country :: rest =>
      match dict_getitem user_input CONF_COUNTRY_CODE with
      | Raise e => Raises e
      | Ok v => if is_str v (name country) then Returns country
                else find_country rest user_input
      end
  end.

(** The dict [data] that [_try_login] builds for [country] when every
    subscript of [user_input] succeeds. *)
Definition submitted (country : Country) (user_input : dict) : dict :=
  list_to_map
    [(CONF_ENDPOINT, VStr (endpoint country));
     (CONF_ACCESS_ID, dict_get user_input CONF_ACCESS_ID);
     (CONF_ACCESS_SECRET, dict_get user_input CONF_ACCESS_SECRET);
     (CONF_USERNAME, dict_get user_input CONF_USERNAME);
     (CONF_PASSWORD, dict_get user_input CONF_PASSWORD);
     (CONF_COUNTRY_CODE, VStr (country_code country))].

Section WithRemote.
Variable remote : nat -> request -> dict.
Variable TUYA_COUNTRIES : list Country.

(** [_try_login(manager, user_input, errors, placeholders)]; the two dicts
    that receive the error are passed by reference. *)
Definition _try_login (manager : HASSTuyaBLEDeviceManager) (user_input : dict)
    (errors placeholders : ref) (w : world) : outcome (option dict) * world :=
  match find_country TUYA_COUNTRIES user_input with
  | RuntimeError => (RuntimeError, w)
  | Raises e => (Raises e, w)
  | Returns country =>
      match dict_getitem user_input CONF_ACCESS_ID,
            dict_getitem user_input CONF_ACCESS_SECRET,
            dict_getitem user_input CONF_USERNAME,
            dict_getitem user_input CONF_PASSWORD with
      | Ok v_id, Ok v_secret, Ok v_user, Ok v_password =>
          let data : dict :=
            list_to_map
              [(CONF_ENDPOINT, VStr (endpoint country)); (CONF_ACCESS_ID, v_id);
               (CONF_ACCESS_SECRET, v_secret); (CONF_USERNAME, v_user);
               (CONF_PASSWORD, v_password);
               (CONF_COUNTRY_CODE, VStr (country_code country))] in
          let w1 := with_dict (_data manager)
                      (dict_update (content w (_data manager)) data) w in
          match login remote manager DISABLE w1 with
          | (Raise e, w2) => (Raises e, w2)
          | (Ok response, w2) =>
              if negb (size response =? 0)%nat
                 && py_truthy (dict_get_or response TUYA_RESPONSE_SUCCESS (VBool false))
              then (Returns (Some data), w2)
              else
                let w3 := with_dict errors
                            (<[ "base" := VStr "login_error" ]> (content w2 errors)) w2 in
                let w4 :=
                  if negb (size response =? 0)%nat then
                    with_dict placeholders
                      (dict_update (content w3 placeholders)
                         (list_to_map
                            [(TUYA_RESPONSE_CODE, dict_get response TUYA_RESPONSE_CODE);
                             (TUYA_RESPONSE_MSG, dict_get response TUYA_RESPONSE_MSG)]))
                      w3
                  else w3 in
                (Returns None, w4)
          end
      | Raise e, _, _, _ => (Raises e, w)
      | _, Raise e, _, _ => (Raises e, w)
      | _, _, Raise e, _ => (Raises e, w)
      | _, _, _, Raise e => (Raises e, w)
      end
  end.

(** The assignments of [async_step_manual_credentials]: the eight device
    fields of the form go into the flow's dict, an absent one as [""]. *)
Definition store_manual_credentials (data : ref) (user_input : dict) : M unit :=
  for_each
    [CONF_UUID; CONF_LOCAL_KEY; CONF_DEVICE_ID; CONF_CATEGORY; CONF_PRODUCT_ID;
     CONF_DEVICE_NAME; CONF_PRODUCT_MODEL; CONF_PRODUCT_NAME]
    (fun key => modify data (fun d => <[ key := dict_get_or user_input key (VStr "") ]> d)).

(** [TuyaBLEConfigFlow._get_device_credentials]: the manager of the flow
    works on the flow's own dict. *)
Definition _get_device_credentials (manager : HASSTuyaBLEDeviceManager)
    (address : string) : M (option TuyaBLEDeviceCredentials) :=
  let* d := deref (_data manager) in
  let manual :=
    if py_truthy (dict_get d CONF_UUID) && py_truthy (dict_get d CONF_LOCAL_KEY) then
      let uuid := dict_get d CONF_UUID in
      let local_key := dict_get d CONF_LOCAL_KEY in
      let device_id := dict_get d CONF_DEVICE_ID in
      let category := dict_get d CONF_CATEGORY in
      let product_id := dict_get d CONF_PRODUCT_ID in
      if py_truthy uuid && py_truthy local_key && py_truthy device_id
         && py_truthy category && py_truthy product_id
      then Some (create uuid local_key device_id category product_id
                   (dict_get d CONF_DEVICE_NAME)
                   (dict_get d CONF_PRODUCT_MODEL)
                   (dict_get d CONF_PRODUCT_NAME))
      else None
    else None in
  match manual with
  | Some r => let* c := lift r in ret (Some c)
  | None => get_device_credentials remote manager address false false
  end.

End WithRemote.

End ConfigFlow.

(** ** Shapes of cache tables *)

Module Tables.
Import Cloud.

(** The nine fields of a record that a fill stores. *)
Definition RECORD_KEYS : list string :=
  [CONF_ADDRESS; CONF_UUID; CONF_LOCAL_KEY; CONF_DEVICE_ID; CONF_CATEGORY;
   CONF_PRODUCT_ID; CONF_DEVICE_NAME; CONF_PRODUCT_MODEL; CONF_PRODUCT_NAME].

(** A record stored under [address]: its address field is [address] and it
    binds each of the nine fields. *)
Definition keyed_by (address : string) (record : dict) : Prop :=
  record !! CONF_ADDRESS = Some (VStr address)
  /\ forall k, In k RECORD_KEYS -> is_Some (record !! k).

Definition table_keyed (m : gmap string dict) : Prop :=
  forall address record, m !! address = Some record -> keyed_by address record.

(** Every record of every table of the cache is stored under its own
    address. *)
Definition well_keyed (c : cache_table) : Prop :=
  forall key it, cache_get c key = Some it -> table_keyed (item_credentials it).

(** The colons of an address: positions 2, 5, 8, 11 and 14. *)
Definition colons_at (m : string) : Prop :=
  Forall (fun i => String.get i m = Some ":"%char) [2; 5; 8; 11; 14]%nat.

End Tables.

(** ** Concrete data used by the examples below *)

Module Examples.
Import Cloud.

(** The five fields [_create_credentials_from_dict] insists on. *)
Definition MANDATORY_KEYS : list string :=
  [CONF_UUID; CONF_LOCAL_KEY; CONF_DEVICE_ID; CONF_CATEGORY; CONF_PRODUCT_ID].

(** A remote service that rejects every login and knows no device. *)
Definition unreachable : nat -> request -> dict := fun _ _ => ∅.

Definition empty_hass : Cloud.HomeAssistant :=
  {| tuya_config_entries := []; ble_config_entries := [] |}.

(** A manager whose data dict lives at location 0. *)
Definition manager : HASSTuyaBLEDeviceManager := {| _hass := empty_hass; _data := 0 |}.

Definition the_address : string := "AA:BB:CC:DD:EE:FF".

(** The five mandatory credential fields and nothing else. *)
Definition five_fields : dict :=
  list_to_map
    [(CONF_UUID, VStr "u1"); (CONF_LOCAL_KEY, VStr "k1"); (CONF_DEVICE_ID, VStr "d1");
     (CONF_CATEGORY, VStr "szjqr"); (CONF_PRODUCT_ID, VStr "p1")].

(** All eight device fields. *)
Definition eight_fields : dict :=
  list_to_map
    [(CONF_UUID, VStr "u1"); (CONF_LOCAL_KEY, VStr "k1"); (CONF_DEVICE_ID, VStr "d1");
     (CONF_CATEGORY, VStr "szjqr"); (CONF_PRODUCT_ID, VStr "p1");
     (CONF_DEVICE_NAME, VStr "Bot"); (CONF_PRODUCT_NAME, VStr "Fingerbot");
     (CONF_PRODUCT_MODEL, VStr "FB1")].

Definition login_fields : dict :=
  list_to_map
    [(CONF_ENDPOINT, VStr "E"); (CONF_ACCESS_ID, VStr "A"); (CONF_ACCESS_SECRET, VStr "S");
     (CONF_USERNAME, VStr "U"); (CONF_PASSWORD, VStr "P"); (CONF_COUNTRY_CODE, VStr "C")].

(** A dict with a password and no user name, and one whose access secret is
    null. *)
Definition password_only : dict := {[ CONF_PASSWORD := VStr "P" ]}.
Definition null_secret : dict := {[ CONF_ACCESS_SECRET := VNone ]}.

(** A remote service that rejects the logins of [login_fields]. *)
Definition rejecting : nat -> request -> dict :=
  fun _ _ => {[ TUYA_RESPONSE_SUCCESS := VBool false ]}.

(** A remote service with one account and one device: it accepts every
    login, lists the device, and knows its factory record. *)
Definition one_device : pyval :=
  VDict [("id", VStr "d1"); ("uuid", VStr "u1"); ("local_key", VStr "k1");
         ("category", VStr "szjqr"); ("product_id", VStr "p1");
         ("name", VStr "Bot"); ("model", VStr "FB1"); ("product_name", VStr "Fingerbot")].

Definition cloud : nat -> request -> dict :=
  fun _ q =>
    match q with
    | Connect _ _ _ _ =>
        {[ TUYA_RESPONSE_SUCCESS := VBool true ]}
    | GetDevices _ =>
        list_to_map [(TUYA_RESPONSE_SUCCESS, VBool true);
                     (TUYA_RESPONSE_RESULT, VList [one_device])]
    | GetFactoryInfo _ _ =>
        list_to_map [(TUYA_RESPONSE_SUCCESS, VBool true);
                     (TUYA_RESPONSE_RESULT,
                      VList [VDict [("id", VStr "d1"); ("mac", VStr "aabbccddeeff")]])]
    end.

(** The record the fill stores for that device. *)
Definition one_record : dict :=
  list_to_map
    [(CONF_ADDRESS, VStr the_address); (CONF_UUID, VStr "u1");
     (CONF_LOCAL_KEY, VStr "k1"); (CONF_DEVICE_ID, VStr "d1");
     (CONF_CATEGORY, VStr "szjqr"); (CONF_PRODUCT_ID, VStr "p1");
     (CONF_DEVICE_NAME, VStr "Bot"); (CONF_PRODUCT_MODEL, VStr "FB1");
     (CONF_PRODUCT_NAME, VStr "Fingerbot")].

(** A world whose cache holds, under the key of [login_fields], a logged-in
    item with an empty table; the login dict is at location 1. *)
Definition logged_in : world :=
  {| heap := {[ 0%nat := ∅; 1%nat := login_fields ]};
     _cache := [(_get_cache_key login_fields,
                 {| item_api := Some (api_of login_fields (Some ∅));
                    item_login := 1; item_credentials := ∅ |})];
     net_log := [] |}.

(** Two configuration entries with the same login: an entry of the Tuya
    integration and an entry of this integration whose options also hold the
    credentials of a device. *)
Definition two_entries : Cloud.HomeAssistant :=
  {| tuya_config_entries := [ {| entry_data := login_fields; entry_options := ∅ |} ];
     ble_config_entries :=
       [ {| entry_data := ∅; entry_options := login_fields ∪ five_fields |} ] |}.

Definition sweeper : HASSTuyaBLEDeviceManager := {| _hass := two_entries; _data := 0 |}.




(** A record whose uuid is null, and a world whose cache holds it for
    [the_address]; the manager's own dict, at location 0, is empty, and the
    login dict of the entry is at location 1. *)
Definition incomplete_record : dict := <[ CONF_UUID := VNone ]> one_record.

Definition holding_incomplete : world :=
  {| heap := {[ 0%nat := ∅; 1%nat := login_fields ]};
     _cache := [(_get_cache_key login_fields,
                 {| item_api := None; item_login := 1;
                    item_credentials := {[ the_address := incomplete_record ]} |})];
     net_log := [] |}.

(** A world with an empty cache in which the manager's dict is [d]. *)
Definition world_with (d : dict) : world :=
  {| heap := {[ 0%nat := d ]}; _cache := []; net_log := [] |}.

End Examples.

(** ** More concrete data *)

Module MoreExamples.
Import Cloud Examples.

(** A world whose cache holds the complete record of [the_address] under
    the key of [login_fields]; the manager's own dict, at location 0, is
    empty, and the login dict of the entry is at location 1. *)
Definition holding_complete : world :=
  {| heap := {[ 0%nat := ∅; 1%nat := login_fields ]};
     _cache := [(_get_cache_key login_fields,
                 {| item_api := None; item_login := 1;
                    item_credentials := {[ the_address := one_record ]} |})];
     net_log := [] |}.

(** A device as the transport reports it. *)
Definition the_device : Devices.TuyaBLEDevice :=
  {| Devices.address := the_address; Devices.device_id := "d1";
     Devices.category := "szjqr"; Devices.product_id := "p1";
     Devices.hardware_version := "1.0"; Devices.device_version := "2.1";
     Devices.protocol_version := "3.3" |}.




(** A table of countries with one entry, and two forms of the login step:
    one that names that country and one that names a country the table does
    not have. *)
Definition germany : ConfigFlow.Country :=
  {| ConfigFlow.name := "Germany"; ConfigFlow.country_code := "49";
     ConfigFlow.endpoint := "https://openapi.tuyaeu.com" |}.

Definition login_form : dict :=
  list_to_map
    [(CONF_COUNTRY_CODE, VStr "Germany"); (CONF_ACCESS_ID, VStr "A");
     (CONF_ACCESS_SECRET, VStr "S"); (CONF_USERNAME, VStr "U"); (CONF_PASSWORD, VStr "P")].

Definition unlisted_form : dict := <[ CONF_COUNTRY_CODE := VStr "Atlantis" ]> login_form.

(** The flow's dict at location 0, [errors] at 1 and [placeholders] at 2,
    all empty, and an empty cache. *)
Definition flow_world : world :=
  {| heap := {[ 0%nat := ∅; 1%nat := ∅; 2%nat := ∅ ]}; _cache := []; net_log := [] |}.

End MoreExamples.

(** * Properties *)

Module CloudProofs.
Import Cloud Examples.

Lemma get_cache_key_ext (d1 d2 : dict) :
  (forall k, In k CONF_TUYA_LOGIN_KEYS -> dict_get d1 k = dict_get d2 k) ->
  _get_cache_key d1 = _get_cache_key d2.
Proof.
  intros H. unfold _get_cache_key. do 2 f_equal.
  apply map_ext_in. intros k Hk. rewrite (H k Hk). reflexivity.
Qed.

Lemma is_not_none_get (d : dict) k :
  is_not_none (dict_get d k) = true <-> exists v, d !! k = Some v /\ v <> VNone.
Proof.
  unfold dict_get. destruct (d !! k) as [v|]; simpl.
  - split.
    + intros H. exists v. split; [reflexivity|]. intros ->. discriminate.
    + intros (v' & [= <-] & Hv). destruct v; simpl; congruence.
  - split; [discriminate|]. intros (v & Hv & _). discriminate.
Qed.

Lemma has_credentials_spec (d : dict) :
  _has_credentials d = true <->
  forall k, In k CONF_TUYA_DEVICE_KEYS -> exists v, d !! k = Some v /\ v <> VNone.
Proof.
  unfold _has_credentials. rewrite forallb_forall.
  split; intros H k Hk; apply is_not_none_get, H, Hk.
Qed.

Lemma create_from_dict_some (d : dict) :
  (forall k, In k MANDATORY_KEYS -> py_truthy (dict_get d k) = true) ->
  _create_credentials_from_dict d
  = Ok (Some {| uuid := dict_get d CONF_UUID;
                local_key := dict_get d CONF_LOCAL_KEY;
                device_id := dict_get d CONF_DEVICE_ID;
                category := dict_get d CONF_CATEGORY;
                product_id := dict_get d CONF_PRODUCT_ID;
                device_name := dict_get d CONF_DEVICE_NAME;
                product_model := dict_get d CONF_PRODUCT_MODEL;
                product_name := dict_get d CONF_PRODUCT_NAME |}).
Proof.
  intros H. unfold _create_credentials_from_dict.
  rewrite !H by (unfold MANDATORY_KEYS; simpl; tauto).
  reflexivity.
Qed.

Lemma create_from_dict_none (d : dict) :
  _create_credentials_from_dict d = Ok None <->
  exists k, In k MANDATORY_KEYS /\ py_truthy (dict_get d k) = false.
Proof.
  unfold _create_credentials_from_dict, MANDATORY_KEYS. split.
  - destruct (py_truthy (dict_get d CONF_UUID)) eqn:E1;
      [|intros _; exists CONF_UUID; simpl; tauto].
    destruct (py_truthy (dict_get d CONF_LOCAL_KEY)) eqn:E2;
      [|intros _; exists CONF_LOCAL_KEY; simpl; tauto].
    destruct (py_truthy (dict_get d CONF_DEVICE_ID)) eqn:E3;
      [|intros _; exists CONF_DEVICE_ID; simpl; tauto].
    destruct (py_truthy (dict_get d CONF_CATEGORY)) eqn:E4;
      [|intros _; exists CONF_CATEGORY; simpl; tauto].
    destruct (py_truthy (dict_get d CONF_PRODUCT_ID)) eqn:E5;
      [|intros _; exists CONF_PRODUCT_ID; simpl; tauto].
    simpl. discriminate.
  - intros (k & Hk & Hf). simpl in Hk.
    destruct Hk as [<-|[<-|[<-|[<-|[<-|[]]]]]]; rewrite Hf;
      rewrite ?andb_false_r; reflexivity.
Qed.

Lemma create_from_dict_ok (d : dict) : exists r, _create_credentials_from_dict d = Ok r.
Proof.
  unfold _create_credentials_from_dict.
  destruct (_ && _); simpl; eauto.
Qed.

Lemma has_credentials_nonempty (d : dict) :
  _has_credentials d = true -> (size d =? 0)%nat = false.
Proof.
  intros H. apply Nat.eqb_neq. intros Hs. apply map_size_empty_iff in Hs. subst d.
  vm_compute in H. discriminate.
Qed.

Lemma with_dict_content (w : world) r :
  heap w !! r <> None -> with_dict r (content w r) w = w.
Proof.
  intros H. unfold with_dict, content.
  destruct (heap w !! r) as [d|] eqn:E; [|congruence].
  simpl. rewrite (insert_id _ _ _ E). destruct w; reflexivity.
Qed.

Lemma content_nonempty_allocated (w : world) r :
  (size (content w r) =? 0)%nat = false -> heap w !! r <> None.
Proof.
  unfold content. intros H E. rewrite E in H. simpl in H.
  rewrite map_size_empty in H. discriminate.
Qed.

(** C1, as the code has it. [_has_credentials] holds exactly when all eight
    device fields (the five mandatory ones and the device name, product name
    and product model) are present and non-null.  Whenever it holds of the
    manager's dict and [force_update] is off, [get_device_credentials] answers
    from the local data alone: it returns what [_create_credentials_from_dict]
    builds from the local dict (a record of the local values as soon as the
    five mandatory ones are non-empty), and it leaves the dicts, the cache and
    the list of requests sent to the remote service exactly as they were, for
    every cache and every remote service. *)
Theorem get_device_credentials_local
    (remote : nat -> request -> dict) (self : HASSTuyaBLEDeviceManager)
    (address : string) (save_data : bool) (w : world) :
  (forall d : dict,
      _has_credentials d = true <->
      forall k, In k CONF_TUYA_DEVICE_KEYS -> exists v, d !! k = Some v /\ v <> VNone)
  /\ (_has_credentials (content w (_data self)) = true ->
      (exists r,
          _create_credentials_from_dict (content w (_data self)) = Ok r
          /\ get_device_credentials remote self address false save_data w = (Ok r, w))
      /\ ((forall k, In k MANDATORY_KEYS ->
             py_truthy (dict_get (content w (_data self)) k) = true) ->
          exists c,
            get_device_credentials remote self address false save_data w
            = (Ok (Some c), w)
            /\ uuid c = dict_get (content w (_data self)) CONF_UUID
            /\ local_key c = dict_get (content w (_data self)) CONF_LOCAL_KEY
            /\ device_id c = dict_get (content w (_data self)) CONF_DEVICE_ID
            /\ category c = dict_get (content w (_data self)) CONF_CATEGORY
            /\ product_id c = dict_get (content w (_data self)) CONF_PRODUCT_ID)).
Proof.
  split; [exact has_credentials_spec|].
  intros Hc.
  assert (Hrun : forall r,
             _create_credentials_from_dict (content w (_data self)) = Ok r ->
             get_device_credentials remote self address false save_data w = (Ok r, w)).
  { intros r Hr.
    unfold get_device_credentials, find_credentials, bind, deref, ret, lift, modify.
    simpl. rewrite Hc. simpl.
    rewrite (has_credentials_nonempty _ Hc), Hr.
    destruct save_data; simpl; [|reflexivity].
    unfold dict_update. rewrite (idemp_L (∪)).
    rewrite with_dict_content
      by (apply content_nonempty_allocated, has_credentials_nonempty, Hc).
    reflexivity. }
  split.
  - destruct (create_from_dict_ok (content w (_data self))) as [r Hr].
    exists r. split; [exact Hr|apply Hrun, Hr].
  - intros Ht. eexists. split; [apply Hrun, create_from_dict_some, Ht|].
    simpl. repeat split.
Qed.

Lemma get_device_credentials_local_witness :
  _has_credentials (content (world_with eight_fields) (_data manager)) = true
  /\ exists c,
       get_device_credentials unreachable manager the_address false true
         (world_with eight_fields) = (Ok (Some c), world_with eight_fields)
       /\ uuid c = VStr "u1".
Proof.
  assert (H : _has_credentials (content (world_with eight_fields) (_data manager)) = true)
    by (vm_compute; reflexivity).
  split; [exact H|].
  destruct (get_device_credentials_local unreachable manager the_address true
              (world_with eight_fields)) as (_ & Hl).
  destruct (Hl H) as (_ & Hc).
  destruct Hc as (c & Hrun & Hu & _).
  - intros k Hk. simpl in Hk.
    destruct Hk as [<-|[<-|[<-|[<-|[<-|[]]]]]]; vm_compute; reflexivity.
  - exists c. split; [exact Hrun|]. rewrite Hu. vm_compute. reflexivity.
Defined.

(** C1 fails as stated: with the five mandatory fields present and non-null,
    but no device name, product name or product model, [_has_credentials] is
    false; the call then scans the cache and returns nothing instead of the
    local credentials, and when the local data also holds a login it sends a
    login request to the remote service. *)
Lemma get_device_credentials_five_fields_only :
  forallb (fun k => is_not_none (dict_get five_fields k)) MANDATORY_KEYS = true
  /\ _has_credentials five_fields = false
  /\ get_device_credentials unreachable manager the_address false false
       (world_with five_fields) = (Ok None, world_with five_fields)
  /\ length (net_log (snd (get_device_credentials unreachable manager the_address
                             false false (world_with (login_fields ∪ five_fields))))) = 1%nat.
Proof. repeat split; vm_compute; reflexivity. Qed.

(** ** The cache key *)

(** C3. Two configuration mappings that agree on what [get] returns for the
    six login fields have the same cache key, whatever other fields they hold
    (a mapping has no field order: it is determined by its lookups); and
    [_get_cache_key] is defined on a mapping that lacks a login field, where
    it yields the key of the mapping that binds the field to [None]. *)
Theorem get_cache_key_login_fields (d1 d2 : dict) :
  (forall k, In k CONF_TUYA_LOGIN_KEYS -> dict_get d1 k = dict_get d2 k) ->
  _get_cache_key d1 = _get_cache_key d2
  /\ forall k, _get_cache_key (delete k d1) = _get_cache_key (<[k := VNone]> d1).
Proof.
  intros H. split; [apply get_cache_key_ext, H|].
  intros k. apply get_cache_key_ext. intros k' _. unfold dict_get.
  destruct (decide (k = k')) as [->|Hne].
  - rewrite lookup_delete_eq, lookup_insert_eq. reflexivity.
  - rewrite lookup_delete_ne, lookup_insert_ne by exact Hne. reflexivity.
Qed.

Lemma get_cache_key_login_fields_witness :
  (forall k, In k CONF_TUYA_LOGIN_KEYS ->
     dict_get (login_fields ∪ five_fields) k = dict_get login_fields k)
  /\ _get_cache_key (login_fields ∪ five_fields) = _get_cache_key login_fields
  /\ _get_cache_key (delete CONF_PASSWORD (login_fields ∪ five_fields))
     = _get_cache_key (<[CONF_PASSWORD := VNone]> (login_fields ∪ five_fields)).
Proof.
  assert (H : forall k, In k CONF_TUYA_LOGIN_KEYS ->
            dict_get (login_fields ∪ five_fields) k = dict_get login_fields k).
  { intros k Hk. simpl in Hk.
    destruct Hk as [<-|[<-|[<-|[<-|[<-|[<-|[]]]]]]]; vm_compute; reflexivity. }
  split; [exact H|].
  destruct (get_cache_key_login_fields _ _ H) as [H1 H2].
  split; [exact H1|apply H2].
Defined.

(** Field order: a mapping written as a field list has the same key in every
    order of the fields. *)
Lemma get_cache_key_field_order (l1 l2 : list (string * pyval)) :
  NoDup l1.*1 -> l1 ≡ₚ l2 ->
  _get_cache_key (list_to_map l1) = _get_cache_key (list_to_map l2).
Proof.
  intros Hnd Hp.
  rewrite (list_to_map_proper (M := gmap string) l1 l2 Hnd Hp). reflexivity.
Qed.

Lemma get_cache_key_empty :
  _get_cache_key ∅ = json_dumps (VDict (map (fun k => (k, VNone)) CONF_TUYA_LOGIN_KEYS)).
Proof. reflexivity. Qed.

(** ** The credentials record *)

(** C6 fails as stated: the constructor takes a record without any
    mandatory field and returns it, and [_create_credentials_from_dict]
    answers an incomplete dict with [None]; neither raises. *)
Lemma create_accepts_missing_fields :
  create VNone VNone VNone VNone VNone VNone VNone VNone
  = Ok {| uuid := VNone; local_key := VNone; device_id := VNone; category := VNone;
          product_id := VNone; device_name := VNone; product_model := VNone;
          product_name := VNone |}
  /\ _create_credentials_from_dict (delete CONF_UUID eight_fields) = Ok None.
Proof. split; vm_compute; reflexivity. Qed.

(** C6, as the code has it. The guard sits in front of the constructor and
    raises nothing.  [_create_credentials_from_dict] yields no credentials
    exactly when one of the five mandatory fields is falsy, which covers a
    missing field, a null one, an empty string, the number 0 and [False];
    when all five are truthy it yields the record that holds, field by
    field, what the dict gives for the eight keys ([None] for an absent
    optional field).  [create] itself stores its eight arguments in their
    fields and accepts every argument. *)
Theorem create_credentials_guard (credentials : dict) :
  (_create_credentials_from_dict credentials = Ok None <->
   exists k, In k MANDATORY_KEYS /\ py_truthy (dict_get credentials k) = false)
  /\ (forall k, In k MANDATORY_KEYS ->
        credentials !! k = None \/ credentials !! k = Some VNone
        \/ credentials !! k = Some (VStr "")
        \/ credentials !! k = Some (VInt 0) \/ credentials !! k = Some (VBool false) ->
        _create_credentials_from_dict credentials = Ok None)
  /\ ((forall k, In k MANDATORY_KEYS -> py_truthy (dict_get credentials k) = true) ->
      _create_credentials_from_dict credentials
      = Ok (Some {| uuid := dict_get credentials CONF_UUID;
                    local_key := dict_get credentials CONF_LOCAL_KEY;
                    device_id := dict_get credentials CONF_DEVICE_ID;
                    category := dict_get credentials CONF_CATEGORY;
                    product_id := dict_get credentials CONF_PRODUCT_ID;
                    device_name := dict_get credentials CONF_DEVICE_NAME;
                    product_model := dict_get credentials CONF_PRODUCT_MODEL;
                    product_name := dict_get credentials CONF_PRODUCT_NAME |}))
  /\ (forall u k d c p n m pn,
        create u k d c p n m pn
        = Ok {| uuid := u; local_key := k; device_id := d; category := c;
                product_id := p; device_name := n; product_model := m;
                product_name := pn |}).
Proof.
  split; [apply create_from_dict_none|].
  split.
  { intros k Hk Hv. apply create_from_dict_none. exists k. split; [exact Hk|].
    unfold dict_get. destruct Hv as [->|[->|[->|[->| ->]]]]; reflexivity. }
  split; [apply create_from_dict_some|].
  reflexivity.
Qed.

(** ** Login *)

Section Login.
Variable remote : nat -> request -> dict.

(** What [_login] does, case by case. *)
Lemma login_run (data : ref) (cache_config : CacheConfiguration) (w : world) :
  _login remote data cache_config w =
  let d := content w data in
  if (size d =? 0)%nat then (Ok ∅, w) else
  match py_len (dict_get_or d CONF_ACCESS_SECRET (VStr "")) with
  | Raise e => (Raise e, w)
  | Ok _ =>
      let response := remote (length (net_log w)) (connect_request d) in
      let w1 := sent (connect_request d) w in
      match d !! CONF_USERNAME with
      | None => (Raise (KeyError CONF_USERNAME), w1)
      | Some _ =>
          if _is_login_success response then
            match cache_config with
            | ENABLE => (Ok response, with_cache (login_cache data d response (_cache w)) w1)
            | DISABLE => (Ok response, w1)
            end
          else (Ok response, w1)
      end
  end.
Proof.
  unfold _login, bind, deref, lift, call, ret, cache_lookup, set_cache, login_cache.
  cbv zeta.
  destruct (size (content w data) =? 0)%nat; [reflexivity|].
  destruct (py_len _) as [n|e]; [|reflexivity].
  unfold dict_getitem.
  destruct (_is_login_success _);
    destruct (content w data !! CONF_USERNAME); try reflexivity.
  destruct cache_config; [|reflexivity].
  simpl. destruct (cache_get (_cache w) _); reflexivity.
Qed.

End Login.

Section LoginFacts.
Variable remote : nat -> request -> dict.

Lemma py_len_has_len (v : pyval) :
  (has_len v = true -> exists n, py_len v = Ok n)
  /\ (has_len v = false -> py_len v = Raise TypeError).
Proof. destruct v; simpl; split; intros; try discriminate; eauto. Qed.

Lemma app_one_neq {A} (l : list A) (x : A) : l <> (l ++ [x])%list.
Proof.
  intros H. apply (f_equal (@length A)) in H. rewrite length_app in H. simpl in H. lia.
Qed.

Lemma size_zero_lookup (d : dict) k : (size d =? 0)%nat = true -> d !! k = None.
Proof.
  intros H. apply Nat.eqb_eq, map_size_empty_iff in H. subst d. apply lookup_empty.
Qed.

(** C5. Let the remote service be asked to log in with a dict that contains
    the user name (so it is not empty), and let it report failure.  Then
    [_login] returns the service's response as it came, raises nothing, and
    changes neither the cache nor any dict; the one thing that happened is the
    login request. *)
Theorem login_failure_leaves_cache
    (data : ref) (cache_config : CacheConfiguration) (w : world) (q : request) :
  content w data !! CONF_USERNAME <> None ->
  net_log (snd (_login remote data cache_config w)) = (net_log w ++ [q])%list ->
  _is_login_success (remote (length (net_log w)) q) = false ->
  _login remote data cache_config w = (Ok (remote (length (net_log w)) q), sent q w)
  /\ q = connect_request (content w data)
  /\ _cache (snd (_login remote data cache_config w)) = _cache w
  /\ heap (snd (_login remote data cache_config w)) = heap w.
Proof.
  intros Hu Hlog Hfail. rewrite login_run in *. cbv zeta in *.
  destruct (size (content w data) =? 0)%nat eqn:Hs.
  { exfalso. apply Hu, size_zero_lookup, Hs. }
  destruct (py_len _) as [n|e].
  2:{ simpl in Hlog. exfalso. exact (app_one_neq _ _ Hlog). }
  destruct (content w data !! CONF_USERNAME) as [u|]; [|congruence].
  assert (Hq : q = connect_request (content w data)).
  { destruct (_is_login_success _); [destruct cache_config|]; simpl in Hlog;
      apply app_inv_head in Hlog; congruence. }
  subst q. rewrite Hfail. simpl. repeat split.
Qed.

End LoginFacts.

Lemma login_failure_leaves_cache_witness :
  content (world_with login_fields) 0 !! CONF_USERNAME <> None
  /\ _login rejecting 0 ENABLE (world_with login_fields)
     = (Ok {[ TUYA_RESPONSE_SUCCESS := VBool false ]},
        sent (connect_request login_fields) (world_with login_fields))
  /\ _cache (snd (_login rejecting 0 ENABLE (world_with login_fields))) = [].
Proof.
  assert (H1 : content (world_with login_fields) 0 !! CONF_USERNAME <> None)
    by (vm_compute; discriminate).
  split; [exact H1|].
  destruct (fun H2 H3 =>
              login_failure_leaves_cache rejecting 0 ENABLE (world_with login_fields)
                (connect_request login_fields) H1 H2 H3) as (Hrun & _ & Hc & _).
  - vm_compute. reflexivity.
  - vm_compute. reflexivity.
  - split; [exact Hrun|exact Hc].
Defined.


Section LoginWithoutUsername.
Variable remote : nat -> request -> dict.

(** C10, as the code has it. With no user name in the dict, [_login] never
    returns the response of a non-empty dict.  It first takes the length of
    the access secret, and a secret that is present without a length (null, a
    number, a boolean) raises [TypeError] before anything is sent; otherwise
    the login request is sent and, whether the answer reports success or
    failure, the lookup of the user name raises [KeyError], with the cache
    left as it was.  The empty dict returns the empty result and sends
    nothing.  [login] and [login_cached] are [_login] on the manager's dict. *)
Theorem login_without_username
    (data : ref) (cache_config : CacheConfiguration) (w : world) :
  content w data !! CONF_USERNAME = None ->
  (content w data = ∅ -> _login remote data cache_config w = (Ok ∅, w))
  /\ (content w data <> ∅ ->
      has_len (dict_get_or (content w data) CONF_ACCESS_SECRET (VStr "")) = true ->
      _login remote data cache_config w
      = (Raise (KeyError CONF_USERNAME), sent (connect_request (content w data)) w))
  /\ (content w data <> ∅ ->
      has_len (dict_get_or (content w data) CONF_ACCESS_SECRET (VStr "")) = false ->
      _login remote data cache_config w = (Raise TypeError, w))
  /\ (forall self, _data self = data ->
        login remote self cache_config w = _login remote data cache_config w
        /\ login_cached remote self cache_config w = _login remote data cache_config w).
Proof.
  intros Hu. rewrite login_run. cbv zeta.
  split; [intros ->; reflexivity|].
  assert (Hne : content w data <> ∅ -> (size (content w data) =? 0)%nat = false).
  { intros H. apply Nat.eqb_neq. intros Hs. apply H, map_size_empty_iff, Hs. }
  split; [|split].
  - intros H Hl. rewrite (Hne H).
    destruct (proj1 (py_len_has_len _) Hl) as [n ->]. rewrite Hu. reflexivity.
  - intros H Hl. rewrite (Hne H), (proj2 (py_len_has_len _) Hl). reflexivity.
  - intros self <-. unfold login, login_cached. rewrite login_run. split; reflexivity.
Qed.

End LoginWithoutUsername.

Lemma login_without_username_witness :
  content (world_with password_only) 0 !! CONF_USERNAME = None
  /\ _login rejecting 0 DISABLE (world_with password_only)
     = (Raise (KeyError CONF_USERNAME),
        sent (connect_request password_only) (world_with password_only)).
Proof.
  assert (H : content (world_with password_only) 0 !! CONF_USERNAME = None)
    by (vm_compute; reflexivity).
  split; [exact H|].
  destruct (login_without_username rejecting 0 DISABLE (world_with password_only) H)
    as (_ & Hk & _).
  apply Hk.
  - vm_compute. discriminate.
  - vm_compute. reflexivity.
Defined.

(** C10 fails as stated: a dict that is not empty, has no user name and has
    a null access secret makes [_login] raise [TypeError], not [KeyError],
    and no request reaches the remote service. *)
Lemma login_null_secret_type_error :
  null_secret <> ∅
  /\ null_secret !! CONF_USERNAME = None
  /\ _login rejecting 0 DISABLE (world_with null_secret)
     = (Raise TypeError, world_with null_secret)
  /\ net_log (snd (_login rejecting 0 DISABLE (world_with null_secret))) = [].
Proof.
  split; [vm_compute; discriminate|].
  repeat split; vm_compute; reflexivity.
Qed.

(** ** The cache table *)

Lemma cache_get_alter f key key' (c : cache_table) :
  cache_get (cache_alter f key c) key'
  = if decide (key = key') then f <$> cache_get c key' else cache_get c key'.
Proof.
  induction c as [|[k it] c IH]; simpl.
  - destruct (decide (key = key')); reflexivity.
  - destruct (decide (k = key)) as [->|Hk]; simpl.
    + destruct (decide (key = key')) as [->|Hne]; simpl.
      * destruct (decide (key' = key')); [reflexivity|congruence].
      * destruct (decide (key = key')); [congruence|reflexivity].
    + destruct (decide (k = key')) as [->|Hk'].
      * destruct (decide (key = key')); [congruence|reflexivity].
      * exact IH.
Qed.

Lemma cache_alter_compose f g key (c : cache_table) :
  cache_alter f key (cache_alter g key c) = cache_alter (fun it => f (g it)) key c.
Proof.
  induction c as [|[k it] c IH]; simpl; [reflexivity|].
  destruct (decide (k = key)) as [->|Hk]; simpl.
  - destruct (decide (key = key)); [reflexivity|congruence].
  - destruct (decide (k = key)); [congruence|]. rewrite IH. reflexivity.
Qed.

Lemma cache_alter_ext f g key (c : cache_table) :
  (forall it, f it = g it) -> cache_alter f key c = cache_alter g key c.
Proof.
  intros H. induction c as [|[k it] c IH]; simpl; [reflexivity|].
  destruct (decide (k = key)); [rewrite H|rewrite IH]; reflexivity.
Qed.

Lemma cache_alter_id f key (c : cache_table) :
  (forall it, f it = it) -> cache_alter f key c = c.
Proof.
  intros H. induction c as [|[k it] c IH]; simpl; [reflexivity|].
  destruct (decide (k = key)); [rewrite H|rewrite IH]; reflexivity.
Qed.

Lemma cache_get_app (c : cache_table) key it key' :
  cache_get (c ++ [(key, it)])%list key'
  = match cache_get c key' with
    | Some x => Some x
    | None => if decide (key = key') then Some it else None
    end.
Proof.
  induction c as [|[k x] c IH]; simpl; [reflexivity|].
  destruct (decide (k = key')); [reflexivity|exact IH].
Qed.

Lemma cache_get_set key it (c : cache_table) key' :
  cache_get (cache_set key it c) key'
  = if decide (key = key') then Some it else cache_get c key'.
Proof.
  unfold cache_set. destruct (cache_get c key) as [x|] eqn:E.
  - rewrite cache_get_alter. destruct (decide (key = key')) as [<-|]; [|reflexivity].
    rewrite E. reflexivity.
  - rewrite cache_get_app. destruct (decide (key = key')) as [<-|].
    + rewrite E. reflexivity.
    + destruct (cache_get c key'); reflexivity.
Qed.

Lemma grow_empty (it : TuyaCloudCacheItem) : grow ∅ it = it.
Proof. unfold grow. rewrite (left_id_L ∅ (∪)). destruct it; reflexivity. Qed.

Lemma grow_grow m1 m2 (it : TuyaCloudCacheItem) : grow m1 (grow m2 it) = grow (m1 ∪ m2) it.
Proof. unfold grow. simpl. rewrite (assoc_L (∪)). reflexivity. Qed.

Lemma add_credentials_grow mac record (it : TuyaCloudCacheItem) :
  add_credentials mac record it = grow {[ mac := record ]} it.
Proof. unfold add_credentials, grow. rewrite insert_union_singleton_l. reflexivity. Qed.

(** ** Filling an item *)

Section Fill.
Variable remote : nat -> request -> dict.

Lemma fill_device_run (item : string) (api : TuyaOpenAPI) (device : pyval) (w : world) :
  fill_device remote item api device w =
  match py_get device "id" with
  | Raise e => (Raise e, w)
  | Ok id =>
      let q := GetFactoryInfo api id in
      match factory_entry device id (remote (length (net_log w)) q) with
      | Raise e => (Raise e, sent q w)
      | Ok None => (Ok tt, sent q w)
      | Ok (Some (mac, record)) =>
          (Ok tt, with_cache (cache_alter (add_credentials mac record) item (_cache w))
                    (sent q w))
      end
  end.
Proof.
  unfold fill_device, bind, lift, call, set_cache, ret.
  destruct (py_get device "id") as [id|e]; [|reflexivity].
  cbv zeta. destruct (factory_entry _ _ _) as [[[mac record]|]|e]; reflexivity.
Qed.

Lemma fill_devices_run (item : string) (api : TuyaOpenAPI) (l : list pyval) (w : world) :
  let w' := snd (for_each l (fill_device remote item api) w) in
  _cache w' = cache_alter (grow (fill_delta remote (length (net_log w)) api l)) item (_cache w)
  /\ heap w' = heap w
  /\ exists qs, net_log w' = (net_log w ++ qs)%list /\ forallb is_factory_info qs = true.
Proof.
  revert w. induction l as [|device l IH]; intros w; simpl.
  - cbv zeta. simpl. rewrite cache_alter_id by apply grow_empty.
    split; [reflexivity|split; [reflexivity|]].
    exists []. rewrite app_nil_r. split; reflexivity.
  - cbv zeta. unfold bind. rewrite fill_device_run.
    destruct (py_get device "id") as [id|e]; simpl.
    2:{ rewrite cache_alter_id by apply grow_empty.
        split; [reflexivity|split; [reflexivity|]].
        exists []. rewrite app_nil_r. split; reflexivity. }
    destruct (factory_entry _ _ _) as [[[mac record]|]|e]; simpl.
    + destruct (IH (with_cache (cache_alter (add_credentials mac record) item (_cache w))
                      (sent (GetFactoryInfo api id) w))) as (Hc & Hh & qs & Hl & Hq).
      simpl in *. rewrite Hc, Hh, Hl. rewrite length_app, Nat.add_1_r. simpl.
      rewrite cache_alter_compose. split; [|split; [reflexivity|]].
      * apply cache_alter_ext. intros it. rewrite add_credentials_grow, grow_grow.
        reflexivity.
      * exists (GetFactoryInfo api id :: qs). rewrite <- app_assoc. simpl.
        split; [reflexivity|exact Hq].
    + destruct (IH (sent (GetFactoryInfo api id) w)) as (Hc & Hh & qs & Hl & Hq).
      simpl in *. rewrite Hc, Hh, Hl. rewrite length_app, Nat.add_1_r. simpl.
      split; [reflexivity|]. split; [reflexivity|].
      exists (GetFactoryInfo api id :: qs). rewrite <- app_assoc. simpl.
      split; [reflexivity|exact Hq].
    + rewrite cache_alter_id by apply grow_empty.
      split; [reflexivity|split; [reflexivity|]].
      exists [GetFactoryInfo api id]. split; reflexivity.
Qed.

End Fill.

Section FillItem.
Variable remote : nat -> request -> dict.

Lemma fill_cache_item_run (item : string) (w : world) :
  let w' := snd (_fill_cache_item remote item w) in
  match cache_get (_cache w) item with
  | None => w' = w
  | Some it =>
      match item_api it with
      | None => w' = w
      | Some api =>
          _cache w'
          = cache_alter (grow (fetched remote (length (net_log w)) api)) item (_cache w)
          /\ heap w' = heap w
          /\ exists qs, net_log w' = (net_log w ++ GetDevices api :: qs)%list
                        /\ forallb is_factory_info qs = true
      end
  end.
Proof.
  cbv zeta. unfold _fill_cache_item, bind, item_of.
  destruct (cache_get (_cache w) item) as [it|]; [|reflexivity].
  destruct (item_api it) as [api|]; [|reflexivity].
  unfold call, fetched.
  destruct (py_truthy _).
  - destruct (py_iter _) as [l|].
    + destruct (fill_devices_run remote item api l (sent (GetDevices api) w))
        as (Hc & Hh & qs & Hl & Hq).
      simpl in *. rewrite length_app, Nat.add_1_r in Hc.
      split; [exact Hc|]. split; [exact Hh|].
      exists qs. rewrite Hl, <- app_assoc. split; [reflexivity|exact Hq].
    + simpl. rewrite cache_alter_id by apply grow_empty.
      split; [reflexivity|split; [reflexivity|]]. exists []. split; reflexivity.
  - simpl. rewrite cache_alter_id by apply grow_empty.
    split; [reflexivity|split; [reflexivity|]]. exists []. split; reflexivity.
Qed.

(** In every case the cache after a fill is the old one with some records
    added to the table of [item]. *)
Lemma fill_cache_item_grows (item : string) (w : world) :
  exists m,
    _cache (snd (_fill_cache_item remote item w)) = cache_alter (grow m) item (_cache w)
    /\ heap (snd (_fill_cache_item remote item w)) = heap w.
Proof.
  pose proof (fill_cache_item_run item w) as H. cbv zeta in H.
  destruct (cache_get (_cache w) item) as [it|].
  - destruct (item_api it) as [api|].
    + destruct H as (Hc & Hh & _). eauto.
    + exists ∅. rewrite H, cache_alter_id by apply grow_empty. split; reflexivity.
  - exists ∅. rewrite H, cache_alter_id by apply grow_empty. split; reflexivity.
Qed.

Lemma fill_delta_stable (t t' : nat) (api : TuyaOpenAPI) (l : list pyval) :
  (forall t t' q, remote t q = remote t' q) ->
  fill_delta remote t api l = fill_delta remote t' api l.
Proof.
  intros Hs. revert t t'. induction l as [|device l IH]; intros t t'; simpl.
  - reflexivity.
  - destruct (py_get device "id") as [id|]; [|reflexivity].
    rewrite (Hs t t'). destruct (factory_entry _ _ _) as [[[mac record]|]|];
      rewrite ?(IH (S t) (S t')); reflexivity.
Qed.

Lemma fetched_stable (t t' : nat) (api : TuyaOpenAPI) :
  (forall t t' q, remote t q = remote t' q) ->
  fetched remote t api = fetched remote t' api.
Proof.
  intros Hs. unfold fetched. rewrite (Hs t t').
  destruct (py_truthy _); [|reflexivity].
  destruct (py_iter _); [|reflexivity]. apply fill_delta_stable, Hs.
Qed.

Lemma grow_keeps_address m (it : TuyaCloudCacheItem) address :
  is_Some (item_credentials it !! address) ->
  is_Some (item_credentials (grow m it) !! address).
Proof.
  intros [x Hx]. simpl. destruct (m !! address) as [y|] eqn:E.
  - exists y. apply lookup_union_Some_l, E.
  - exists x. rewrite lookup_union_r by exact E. exact Hx.
Qed.

Lemma cache_alter_grow_keeps m item (c : cache_table) key it address :
  cache_get c key = Some it ->
  is_Some (item_credentials it !! address) ->
  exists it', cache_get (cache_alter (grow m) item c) key = Some it'
              /\ is_Some (item_credentials it' !! address).
Proof.
  intros Hg Ha. rewrite cache_get_alter, Hg.
  destruct (decide (item = key)); simpl.
  - eexists. split; [reflexivity|]. apply grow_keeps_address, Ha.
  - eauto.
Qed.

(** C7. [_fill_cache_item] only adds to the tables of the cache: an address
    that has credentials in some entry before a fill still has credentials in
    that entry after it, and after a second fill, whatever the remote service
    answers and even when a fill stops with an exception.  When the remote
    service gives the same answers both times, the second fill leaves the
    cache exactly as the first one left it. *)
Theorem fill_cache_item_monotone_idempotent (item : string) (w : world) :
  let w1 := snd (_fill_cache_item remote item w) in
  let w2 := snd (_fill_cache_item remote item w1) in
  (forall key it address,
      cache_get (_cache w) key = Some it ->
      is_Some (item_credentials it !! address) ->
      exists it1 it2,
        cache_get (_cache w1) key = Some it1
        /\ is_Some (item_credentials it1 !! address)
        /\ cache_get (_cache w2) key = Some it2
        /\ is_Some (item_credentials it2 !! address))
  /\ ((forall t t' q, remote t q = remote t' q) -> _cache w2 = _cache w1).
Proof.
  cbv zeta. split.
  - intros key it address Hg Ha.
    destruct (fill_cache_item_grows item w) as (m1 & Hc1 & _).
    destruct (fill_cache_item_grows item (snd (_fill_cache_item remote item w)))
      as (m2 & Hc2 & _).
    destruct (cache_alter_grow_keeps m1 item _ _ _ _ Hg Ha) as (it1 & Hg1 & Ha1).
    rewrite <- Hc1 in Hg1.
    destruct (cache_alter_grow_keeps m2 item _ _ _ _ Hg1 Ha1) as (it2 & Hg2 & Ha2).
    rewrite <- Hc2 in Hg2. eauto 10.
  - intros Hs.
    pose proof (fill_cache_item_run item w) as H1. cbv zeta in H1.
    pose proof (fill_cache_item_run item (snd (_fill_cache_item remote item w))) as H2.
    cbv zeta in H2.
    destruct (cache_get (_cache w) item) as [it|] eqn:Hg.
    2:{ rewrite H1 in *. rewrite Hg in H2. rewrite H2. reflexivity. }
    destruct (item_api it) as [api|] eqn:Hapi.
    2:{ rewrite H1 in *. rewrite Hg, Hapi in H2. rewrite H2. reflexivity. }
    destruct H1 as (Hc1 & _ & _).
    assert (Hg1 : cache_get (_cache (snd (_fill_cache_item remote item w))) item
                  = Some (grow (fetched remote (length (net_log w)) api) it)).
    { rewrite Hc1, cache_get_alter, Hg.
      destruct (decide (item = item)); [reflexivity|congruence]. }
    rewrite Hg1 in H2. simpl in H2. rewrite Hapi in H2.
    destruct H2 as (Hc2 & _ & _). rewrite Hc2, Hc1, cache_alter_compose.
    apply cache_alter_ext. intros x. rewrite grow_grow.
    rewrite (fetched_stable _ (length (net_log w)) api Hs).
    rewrite (idemp_L (∪)). reflexivity.
Qed.

End FillItem.

Lemma fill_cache_item_monotone_idempotent_witness :
  (forall t t' q, cloud t q = cloud t' q)
  /\ _cache (snd (_fill_cache_item cloud (_get_cache_key login_fields)
                    (snd (_fill_cache_item cloud (_get_cache_key login_fields) logged_in))))
     = _cache (snd (_fill_cache_item cloud (_get_cache_key login_fields) logged_in))
  /\ cache_get (_cache (snd (_fill_cache_item cloud (_get_cache_key login_fields) logged_in)))
       (_get_cache_key login_fields)
     = Some {| item_api := Some (api_of login_fields (Some ∅)); item_login := 1;
               item_credentials := {[ the_address := one_record ]} |}.
Proof.
  assert (Hs : forall t t' q, cloud t q = cloud t' q) by reflexivity.
  split; [exact Hs|]. split.
  - exact (proj2 (fill_cache_item_monotone_idempotent cloud
                    (_get_cache_key login_fields) logged_in) Hs).
  - vm_compute. reflexivity.
Defined.

(** The address of a factory record: the twelve hex digits in pairs, upper
    case, joined by colons. *)
Lemma mac_of_example : mac_of (VStr "aabbccddeeff") = Ok "AA:BB:CC:DD:EE:FF".
Proof. reflexivity. Qed.

(** ** The sweep of [build_cache] *)

Lemma content_with_dict r d (w : world) : content (with_dict r d w) r = d.
Proof. unfold content, with_dict. simpl. rewrite lookup_insert_eq. reflexivity. Qed.

Lemma with_dict_twice r d1 d2 (w : world) :
  with_dict r d2 (with_dict r d1 w) = with_dict r d2 w.
Proof. unfold with_dict. simpl. rewrite insert_insert_eq. reflexivity. Qed.

Lemma complete_size (d : dict) :
  forallb (dict_contains d) CONF_TUYA_LOGIN_KEYS = true -> (size d =? 0)%nat = false.
Proof.
  intros H. apply Nat.eqb_neq. intros Hs. apply map_size_empty_iff in Hs. subst d.
  vm_compute in H. discriminate.
Qed.

Lemma complete_lookup (d : dict) k :
  forallb (dict_contains d) CONF_TUYA_LOGIN_KEYS = true ->
  In k CONF_TUYA_LOGIN_KEYS -> exists v, d !! k = Some v.
Proof.
  intros H Hk. rewrite forallb_forall in H. specialize (H k Hk).
  unfold dict_contains in H. destruct (d !! k); [eauto|discriminate].
Qed.

Section Sweep.
Variable remote : nat -> request -> dict.

Lemma build_cache_entry_run (data : ref) (source : dict) (w : world) :
  build_cache_entry remote data source w =
  let w0 := with_dict data source w in
  if negb (forallb (dict_contains source) CONF_TUYA_LOGIN_KEYS) then (Ok tt, w0) else
  let key := _get_cache_key source in
  if needs_login key (_cache w) then
    match _login remote data ENABLE w0 with
    | (Ok response, w1) =>
        if _is_login_success response then
          match cache_get (_cache w1) key with
          | Some it =>
              if (size (item_credentials it) =? 0)%nat
              then _fill_cache_item remote key w1 else (Ok tt, w1)
          | None => (Ok tt, w1)
          end
        else (Ok tt, w1)
    | (Raise e, w1) => (Raise e, w1)
    end
  else (Ok tt, w0).
Proof.
  unfold build_cache_entry, bind, modify, deref, cache_lookup, ret, needs_login.
  rewrite content_with_dict, with_dict_twice, content_with_dict.
  unfold dict_update. rewrite (right_id_L ∅ (∪)). cbv zeta.
  destruct (negb _); [reflexivity|]. simpl.
  destruct (cache_get (_cache w) _) as [it|].
  - destruct (size (item_credentials it) =? 0)%nat; [|reflexivity].
    destruct (_login remote data ENABLE _) as [[response|e] w1]; [|reflexivity].
    destruct (_is_login_success response); [|reflexivity].
    destruct (cache_get (_cache w1) _) as [it1|];
      [destruct (size (item_credentials it1) =? 0)%nat|]; reflexivity.
  - destruct (_login remote data ENABLE _) as [[response|e] w1]; [|reflexivity].
    destruct (_is_login_success response); [|reflexivity].
    destruct (cache_get (_cache w1) _) as [it1|];
      [destruct (size (item_credentials it1) =? 0)%nat|]; reflexivity.
Qed.

End Sweep.

(** *** The cache is only ever enriched *)

Lemma cache_le_refl (c : cache_table) : cache_le c c.
Proof. intros key it H. exists it. split; [exact H|reflexivity]. Qed.

Lemma cache_le_trans (c1 c2 c3 : cache_table) :
  cache_le c1 c2 -> cache_le c2 c3 -> cache_le c1 c3.
Proof.
  intros H12 H23 key it H.
  destruct (H12 key it H) as (it2 & H2 & Hd2).
  destruct (H23 key it2 H2) as (it3 & H3 & Hd3).
  exists it3. split; [exact H3|]. etrans; eassumption.
Qed.

Lemma cache_le_alter f key (c : cache_table) :
  (forall it, dom (item_credentials it) ⊆ dom (item_credentials (f it))) ->
  cache_le c (cache_alter f key c).
Proof.
  intros Hf k it H. rewrite cache_get_alter, H.
  destruct (decide (key = k)); simpl; eexists; (split; [reflexivity|]);
    [apply Hf|reflexivity].
Qed.

Lemma cache_le_grow m key (c : cache_table) : cache_le c (cache_alter (grow m) key c).
Proof.
  apply cache_le_alter. intros it. simpl. rewrite dom_union_L. set_solver.
Qed.



Lemma cache_le_login_cache data d response (c : cache_table) :
  cache_le c (login_cache data d response c).
Proof.
  unfold login_cache. destruct (cache_get c (_get_cache_key d)) as [it0|] eqn:E.
  - apply cache_le_alter. intros it. reflexivity.
  - intros k it H. rewrite cache_get_set.
    destruct (decide (_get_cache_key d = k)) as [<-|]; [congruence|].
    exists it. split; [exact H|reflexivity].
Qed.

Section Enrichment.
Variable remote : nat -> request -> dict.

Lemma login_enriches data cache_config (w : world) :
  cache_le (_cache w) (_cache (snd (_login remote data cache_config w))).
Proof.
  rewrite login_run. cbv zeta.
  destruct (size _ =? 0)%nat; [apply cache_le_refl|].
  destruct (py_len _); [|apply cache_le_refl].
  destruct (content w data !! CONF_USERNAME); [|apply cache_le_refl].
  destruct (_is_login_success _); [|apply cache_le_refl].
  destruct cache_config; [|apply cache_le_refl].
  simpl. apply cache_le_login_cache.
Qed.

Lemma fill_enriches item (w : world) :
  cache_le (_cache w) (_cache (snd (_fill_cache_item remote item w))).
Proof.
  destruct (fill_cache_item_grows remote item w) as (m & -> & _). apply cache_le_grow.
Qed.

Lemma build_cache_entry_enriches data source (w : world) :
  cache_le (_cache w) (_cache (snd (build_cache_entry remote data source w))).
Proof.
  rewrite build_cache_entry_run. cbv zeta.
  destruct (negb _); [apply cache_le_refl|].
  destruct (needs_login _ _); [|apply cache_le_refl].
  pose proof (login_enriches data ENABLE (with_dict data source w)) as Hl.
  destruct (_login remote data ENABLE _) as [[response|e] w1]; simpl in Hl; [|exact Hl].
  destruct (_is_login_success response); [|exact Hl].
  destruct (cache_get (_cache w1) _) as [it|]; [|exact Hl].
  destruct (size _ =? 0)%nat; [|exact Hl].
  eapply cache_le_trans; [exact Hl|apply fill_enriches].
Qed.

Lemma sweep_enriches data (l : list dict) (w : world) :
  cache_le (_cache w) (_cache (snd (for_each l (build_cache_entry remote data) w))).
Proof.
  revert w. induction l as [|source l IH]; intros w; simpl; [apply cache_le_refl|].
  unfold bind.
  pose proof (build_cache_entry_enriches data source w) as H.
  destruct (build_cache_entry remote data source w) as [[[]|e] w1]; simpl in *.
  - eapply cache_le_trans; [exact H|apply IH].
  - exact H.
Qed.

End Enrichment.

(** *** Counting logins and fetches *)





Section OneLogin.
Variable remote : nat -> request -> dict.





Lemma build_cache_from_records (data : ref) (hass : Cloud.HomeAssistant) (w : world) :
  build_cache_from remote data hass w
  = for_each (records hass) (build_cache_entry remote data) w.
Proof.
  unfold build_cache_from, records.
  generalize (ble_config_entries hass) as ble.
  generalize (tuya_config_entries hass) as tuya. intros tuya ble. revert w.
  induction tuya as [|e tuya IH]; intros w.
  - simpl. unfold bind, ret. simpl.
    revert w. induction ble as [|b ble IHb]; intros w; simpl; [reflexivity|].
    unfold bind. destruct (build_cache_entry remote data (entry_options b) w)
      as [[[]|x] w1]; [apply IHb|reflexivity].
  - simpl. unfold bind in *.
    destruct (build_cache_entry remote data (entry_data e) w) as [[[]|x] w1].
    + apply IH.
    + reflexivity.
Qed.

End OneLogin.

Section BuildCache.
Variable remote : nat -> request -> dict.



End BuildCache.


Lemma run_ok {A} (x : result A * world) (a : A) : fst x = Ok a -> x = (Ok a, snd x).
Proof. destruct x as [r w]. simpl. intros ->. reflexivity. Qed.



(** ** Saving what was found *)

Section SaveData.
Variable remote : nat -> request -> dict.

(** When the first half of [get_device_credentials] comes back with a record
    and an item, the record is the one the item's table holds for the
    address. *)
Lemma find_credentials_in_cache (self : HASSTuyaBLEDeviceManager) (address : string)
    (force_update : bool) (w w1 : world) (record : dict) (key : string) :
  find_credentials remote self address force_update w = (Ok (Some record, Some key), w1) ->
  exists it, cache_get (_cache w1) key = Some it
             /\ item_credentials it !! address = Some record.
Proof.
  unfold find_credentials, bind, deref, ret. intros H.
  destruct (negb force_update && _has_credentials (content w (_data self))).
  { inversion H. }
  destruct (_find_cache_key_for_address self address w) as [[cache_key|e] wa];
    [|inversion H].
  match type of H with
  | (let (_, _) := ?x in _) = _ => destruct x as [[present|e] wb]; [|inversion H]
  end.
  match type of H with
  | (let (_, _) := ?x in _) = _ => destruct x as [[item|e] wc]; [|inversion H]
  end.
  destruct item as [it0|]; [|inversion H].
  unfold item_of in H. destruct (cache_get (_cache wc) it0) as [i|] eqn:E; [|inversion H].
  inversion H; subst. exists i. split; [assumption|reflexivity].
Qed.

(** C9. Let [get_device_credentials] with [save_data] find, in a cache
    entry, a record for the address that is not empty but lacks a usable
    mandatory field, so that no credentials can be built from it.  The call
    returns nothing, and yet the manager's own dict has been updated: first
    with the dict the entry refers to as its login, then with the incomplete
    record. *)
Theorem get_device_credentials_saves_incomplete
    (self : HASSTuyaBLEDeviceManager) (address : string) (force_update : bool)
    (w w1 : world) (record : dict) (key : string) :
  find_credentials remote self address force_update w = (Ok (Some record, Some key), w1) ->
  record <> ∅ ->
  _create_credentials_from_dict record = Ok None ->
  exists it,
    cache_get (_cache w1) key = Some it
    /\ item_credentials it !! address = Some record
    /\ get_device_credentials remote self address force_update true w
       = (Ok None,
          with_dict (_data self)
            (dict_update
               (dict_update (content w1 (_data self)) (content w1 (item_login it)))
               record)
            w1).
Proof.
  intros Hfind Hne Hnone.
  destruct (find_credentials_in_cache _ _ _ _ _ _ _ Hfind) as (it & Hg & Ha).
  exists it. split; [exact Hg|]. split; [exact Ha|].
  unfold get_device_credentials, bind. rewrite Hfind. simpl.
  assert (Hs : (size record =? 0)%nat = false).
  { apply Nat.eqb_neq. intros Hs. apply Hne, map_size_empty_iff, Hs. }
  rewrite Hs. unfold lift. rewrite Hnone.
  unfold item_of. rewrite Hg. unfold deref, modify, ret.
  rewrite content_with_dict, with_dict_twice. reflexivity.
Qed.

End SaveData.

Lemma get_device_credentials_saves_incomplete_witness :
  incomplete_record <> ∅
  /\ _create_credentials_from_dict incomplete_record = Ok None
  /\ get_device_credentials unreachable manager the_address false true holding_incomplete
     = (Ok None,
        with_dict 0 (dict_update (dict_update ∅ login_fields) incomplete_record)
          holding_incomplete).
Proof.
  assert (Hne : incomplete_record <> ∅) by (vm_compute; discriminate).
  assert (Hnone : _create_credentials_from_dict incomplete_record = Ok None)
    by (vm_compute; reflexivity).
  split; [exact Hne|]. split; [exact Hnone|].
  destruct (get_device_credentials_saves_incomplete unreachable manager the_address false
              holding_incomplete holding_incomplete incomplete_record
              (_get_cache_key login_fields)) as (it & Hg & _ & Hrun);
    [vm_compute; reflexivity|exact Hne|exact Hnone|].
  assert (Hit : item_login it = 1%nat).
  { vm_compute in Hg. injection Hg as <-. reflexivity. }
  rewrite Hrun, Hit. reflexivity.
Defined.

End CloudProofs.

(** * The coordinator *)

(** ** Addresses that have a short address *)

Module NamesFacts.
Import Names.

Lemma split_colon_cons (s : string) : exists piece pieces, split_colon s = piece :: pieces.
Proof.
  induction s as [|c s (p & ps & IH)]; simpl; [eauto|].
  destruct (Ascii.eqb c ":"%char); [eauto|]. rewrite IH. eauto.
Qed.

Lemma upper_separator (c : ascii) :
  Ascii.eqb (upper_ascii (if Ascii.eqb c "-"%char then ":"%char else c)) ":"%char
  = Ascii.eqb c ":"%char || Ascii.eqb c "-"%char.
Proof. destruct c as [[] [] [] [] [] [] [] []]; reflexivity. Qed.

Lemma split_length (address : string) :
  length (split_colon (upper (replace_hyphen address))) = S (separators address).
Proof.
  induction address as [|c s IH]; simpl; [reflexivity|].
  rewrite upper_separator.
  destruct (Ascii.eqb c ":"%char || Ascii.eqb c "-"%char); simpl.
  - rewrite IH. reflexivity.
  - destruct (split_colon_cons (upper (replace_hyphen s))) as (p & ps & E).
    rewrite E in IH |- *. exact IH.
Qed.

Lemma short_address_total (address : string) :
  2 <= separators address -> exists short, get_short_address address = Ok short.
Proof.
  intros Hs. unfold get_short_address. cbv zeta.
  pose proof (split_length address) as Hl. rewrite <- length_rev in Hl.
  destruct (rev (split_colon (upper (replace_hyphen address)))) as [|r1 [|r2 [|r3 l]]];
    simpl in Hl; try lia.
  eauto.
Qed.

Lemma short_address_partial (address : string) :
  separators address < 2 -> get_short_address address = Raise IndexError.
Proof.
  intros Hs. unfold get_short_address. cbv zeta.
  pose proof (split_length address) as Hl. rewrite <- length_rev in Hl.
  destruct (rev (split_colon (upper (replace_hyphen address)))) as [|r1 [|r2 [|r3 l]]];
    simpl in Hl; try lia; reflexivity.
Qed.

End NamesFacts.

Module DevicesProofs.
Import Devices MoreExamples.

Section Coordinator.
Variable SET_DISCONNECTED_DELAY : nat.
Variable devices_database : gmap string TuyaBLECategoryInfo.

Local Abbreviation deliver := (deliver SET_DISCONNECTED_DELAY devices_database).
Local Abbreviation run := (run SET_DISCONNECTED_DELAY devices_database).

Lemma cancel_owned (self : TuyaBLECoordinator) handle :
  timer_owned self -> _unsub_disconnect self = Some handle ->
  pending (cancel handle (hass self)) = [].
Proof.
  unfold timer_owned. intros Ho Hh. simpl.
  destruct (pending (hass self)) as [|[n d] [|t l]]; [reflexivity| |contradiction].
  rewrite Hh in Ho. injection Ho as ->.
  rewrite filter_cons. simpl. destruct (decide (n <> n)); [congruence|reflexivity].
Qed.

Lemma owned_none_empty (self : TuyaBLECoordinator) :
  timer_owned self -> _unsub_disconnect self = None -> pending (hass self) = [].
Proof.
  unfold timer_owned. intros Ho Hh.
  destruct (pending (hass self)) as [|[n d] [|t l]];
    [reflexivity|congruence|contradiction].
Qed.

(** What a connect signal leaves behind, returned or raised. *)
Lemma connect_fields (self : TuyaBLECoordinator) :
  let self' := snd (_async_handle_connect self) in
  _disconnected self' = false
  /\ _unsub_disconnect self' = _unsub_disconnect self
  /\ scheduled (hass self') = scheduled (hass self)
  /\ bus (hass self') = bus (hass self)
  /\ _device self' = _device self
  /\ pending (hass self')
     = match _unsub_disconnect self with
       | Some handle => pending (cancel handle (hass self))
       | None => pending (hass self)
       end.
Proof.
  cbv zeta. destruct self as [h d dis un].
  unfold _async_handle_connect, update_registry, get_device_info.
  destruct un as [handle|], dis; cbn -[Names.get_short_address];
    try (destruct (Names.get_short_address (address d)) as [short|e];
         cbn -[Names.get_short_address];
         try (destruct (registry h !! address d); cbn -[Names.get_short_address]));
    repeat split; reflexivity.
Qed.

Lemma connect_pending (self : TuyaBLECoordinator) :
  timer_owned self -> pending (hass (snd (_async_handle_connect self))) = [].
Proof.
  intros Ho. destruct (connect_fields self) as (_ & _ & _ & _ & _ & Hp).
  cbv zeta in Hp. rewrite Hp.
  destruct (_unsub_disconnect self) as [handle|] eqn:Hh.
  - exact (cancel_owned self handle Ho Hh).
  - exact (owned_none_empty self Ho Hh).
Qed.

Lemma connect_owned (self : TuyaBLECoordinator) :
  timer_owned self -> timer_owned (snd (_async_handle_connect self)).
Proof.
  intros Ho. unfold timer_owned. rewrite (connect_pending self Ho). exact I.
Qed.

Lemma fire_fold_pending (fb : TuyaBLEFingerbotInfo) (updates : list TuyaBLEDataPoint)
    (self : TuyaBLECoordinator) :
  let self' :=
    fold_left
      (fun s update =>
         if (id update =? switch fb)%nat && changed_by_device update
         then with_hass s (fire (address (_device s), device_id (_device s)) (hass s))
         else s)
      updates self in
  pending (hass self') = pending (hass self)
  /\ _unsub_disconnect self' = _unsub_disconnect self
  /\ _disconnected self' = _disconnected self
  /\ _device self' = _device self.
Proof.
  revert self. induction updates as [|u updates IH]; intros self; simpl.
  - repeat split.
  - destruct (_ && _); [|apply IH].
    destruct (IH (with_hass self
                    (fire (address (_device self), device_id (_device self)) (hass self))))
      as (H1 & H2 & H3 & H4).
    simpl in *. rewrite H1, H2, H3, H4. repeat split.
Qed.

(** What an update signal leaves behind, returned or raised. *)
Lemma update_fields (self : TuyaBLECoordinator) updates :
  let self' := snd (_async_handle_update devices_database self updates) in
  _disconnected self' = false
  /\ _unsub_disconnect self' = _unsub_disconnect self
  /\ pending (hass self') = pending (hass (snd (_async_handle_connect self)))
  /\ _device self' = _device self.
Proof.
  cbv zeta. destruct (connect_fields self) as (H1 & H2 & _ & _ & H5 & _).
  cbv zeta in H1, H2, H5.
  unfold _async_handle_update.
  destruct (_async_handle_connect self) as [[[]|e] c0]; cbn [snd] in *;
    [|repeat split; assumption].
  set (c := with_hass c0 (async_update_listeners (hass c0))).
  assert (Hc : _disconnected c = false /\ _unsub_disconnect c = _unsub_disconnect self
               /\ pending (hass c) = pending (hass c0)
               /\ _device c = _device self)
    by (subst c; simpl; repeat split; assumption).
  clearbody c.
  destruct (get_device_product_info _ _) as [product|]; [|exact Hc].
  destruct (fingerbot product) as [fb|]; [|exact Hc].
  destruct (negb _); [|exact Hc].
  destruct (fire_fold_pending fb updates c) as (F1 & F2 & F3 & F4).
  cbv zeta in F1, F2, F3, F4. rewrite F1, F2, F3, F4. exact Hc.
Qed.

Lemma update_owned (self : TuyaBLECoordinator) updates :
  timer_owned self ->
  timer_owned (snd (_async_handle_update devices_database self updates)).
Proof.
  intros Ho. destruct (update_fields self updates) as (_ & _ & Hp & _).
  cbv zeta in Hp. unfold timer_owned. rewrite Hp, (connect_pending self Ho). exact I.
Qed.

Lemma disconnect_owned (self : TuyaBLECoordinator) :
  timer_owned self -> timer_owned (_async_handle_disconnect SET_DISCONNECTED_DELAY self).
Proof.
  intros Ho. unfold _async_handle_disconnect.
  destruct (_unsub_disconnect self) as [handle|] eqn:Hh; [exact Ho|].
  unfold timer_owned. simpl. rewrite (owned_none_empty self Ho Hh). reflexivity.
Qed.

Lemma deliver_owned (self : TuyaBLECoordinator) (s : signal) :
  timer_owned self -> timer_owned (deliver self s).
Proof.
  intros Ho. destruct s as [| |updates|handle]; simpl.
  - apply connect_owned, Ho.
  - apply disconnect_owned, Ho.
  - apply update_owned, Ho.
  - destruct (is_pending handle (hass self)) eqn:Hp; [|exact Ho].
    unfold timer_owned. simpl. unfold timer_owned in Ho. unfold is_pending in Hp.
    destruct (pending (hass self)) as [|[n d] [|t l]]; [discriminate| |contradiction].
    simpl in Hp. rewrite orb_false_r in Hp. apply Nat.eqb_eq in Hp. subst n.
    rewrite filter_cons. simpl.
    destruct (decide (handle <> handle)); [congruence|exact I].
Qed.

Lemma run_owned (self : TuyaBLECoordinator) (signals : list signal) :
  timer_owned self -> timer_owned (run self signals).
Proof.
  revert self. induction signals as [|s signals IH]; intros self Ho; simpl.
  - exact Ho.
  - apply IH, deliver_owned, Ho.
Qed.





(** What does hold of the disconnect path: with no handle stored, a
    disconnect signal schedules one timer with the grace delay and stores its
    handle; with a handle stored it does nothing. *)
Lemma disconnect_arms_one_timer (self : TuyaBLECoordinator) :
  _unsub_disconnect self = None ->
  let self' := _async_handle_disconnect SET_DISCONNECTED_DELAY self in
  pending (hass self') = (pending (hass self) ++ [(scheduled (hass self), SET_DISCONNECTED_DELAY)])%list
  /\ scheduled (hass self') = S (scheduled (hass self))
  /\ _unsub_disconnect self' = Some (scheduled (hass self))
  /\ _disconnected self' = _disconnected self.
Proof.
  intros H. unfold _async_handle_disconnect. rewrite H. simpl. repeat split.
Qed.

Lemma disconnect_with_handle_is_noop (self : TuyaBLECoordinator) handle :
  _unsub_disconnect self = Some handle ->
  _async_handle_disconnect SET_DISCONNECTED_DELAY self = self.
Proof. intros H. unfold _async_handle_disconnect. rewrite H. reflexivity. Qed.

(** A pending timer that fires sets the state to disconnected, clears the
    handle and notifies the listeners once; it cannot fire again. *)
Lemma timer_fires_once (self : TuyaBLECoordinator) handle :
  timer_owned self ->
  is_pending handle (hass self) = true ->
  let self' := deliver self (SigTimer handle) in
  _disconnected self' = true
  /\ _unsub_disconnect self' = None
  /\ pending (hass self') = []
  /\ listener_updates (hass self') = S (listener_updates (hass self))
  /\ deliver self' (SigTimer handle) = self'.
Proof.
  intros Ho Hp. cbv zeta. simpl. rewrite Hp. simpl.
  assert (Hh : _unsub_disconnect self = Some handle).
  { unfold timer_owned in Ho. unfold is_pending in Hp.
    destruct (pending (hass self)) as [|[n d] [|t l]]; [discriminate| |contradiction].
    simpl in Hp. rewrite orb_false_r in Hp. apply Nat.eqb_eq in Hp. congruence. }
  pose proof (cancel_owned self handle Ho Hh) as Hc. simpl in Hc.
  rewrite Hc. unfold is_pending. simpl. rewrite Hc. simpl. repeat split.
Qed.

(** C2 on the input on which it fails.  After connect, disconnect, connect
    the state is connected and the one timer that was started has been
    cancelled, so none is pending; but the cancelled handle is still stored.
    A disconnect signal in that state starts no timer: the coordinator is
    unchanged by it, however often it is delivered, and since nothing is
    pending, nothing can ever set the state to disconnected. *)
Theorem disconnect_after_cancel_starts_no_timer
    (reg : gmap string DeviceEntry) (device : TuyaBLEDevice) :
  let c := run (init (fresh_hass reg) device) [SigConnect; SigDisconnect; SigConnect] in
  connected c = true
  /\ pending (hass c) = []
  /\ scheduled (hass c) = 1%nat
  /\ _unsub_disconnect c = Some 0%nat
  /\ _async_handle_disconnect SET_DISCONNECTED_DELAY c = c
  /\ (forall n handles,
        let c' := run c (repeat SigDisconnect n ++ map SigTimer handles)%list in
        c' = c /\ connected c' = true /\ scheduled (hass c') = 1%nat).
Proof.
  cbv zeta.
  set (c := run (init (fresh_hass reg) device) [SigConnect; SigDisconnect; SigConnect]).
  assert (Hc : connected c = true /\ pending (hass c) = [] /\ scheduled (hass c) = 1%nat
               /\ _unsub_disconnect c = Some 0%nat).
  { subst c. unfold Devices.run. cbn [fold_left Devices.deliver].
    set (c0 := init (fresh_hass reg) device).
    destruct (connect_fields c0) as (_ & A2 & A3 & _ & _ & A6). cbv zeta in A2, A3, A6.
    set (c1 := snd (_async_handle_connect c0)) in *.
    cbn in A2, A3, A6.
    destruct (disconnect_arms_one_timer c1 A2) as (B1 & B2 & B3 & _).
    cbv zeta in B1, B2, B3.
    set (c2 := _async_handle_disconnect SET_DISCONNECTED_DELAY c1) in *.
    rewrite A6, A3 in B1. rewrite A3 in B2, B3. cbn in B1.
    destruct (connect_fields c2) as (C1 & C2 & C3 & _ & _ & C6). cbv zeta in C1, C2, C3, C6.
    unfold connected. rewrite C1, C2, C3, C6, B2, B3. cbn [cancel pending].
    rewrite B1, filter_cons. cbn.
    destruct (decide (0%nat <> 0%nat)); [congruence|]. repeat split. }
  destruct Hc as (H1 & H2 & H3 & H4). clearbody c.
  assert (Hd : _async_handle_disconnect SET_DISCONNECTED_DELAY c = c)
    by (apply (disconnect_with_handle_is_noop c 0), H4).
  repeat (split; [assumption|]).
  intros n handles.
  assert (Hn : run c (repeat SigDisconnect n ++ map SigTimer handles)%list = c).
  { unfold Devices.run. rewrite fold_left_app.
    assert (Hr : fold_left deliver (repeat SigDisconnect n) c = c).
    { induction n as [|n IH]; simpl; [reflexivity|]. rewrite Hd. exact IH. }
    rewrite Hr. induction handles as [|h handles IH]; simpl; [reflexivity|].
    unfold is_pending. rewrite H2. simpl. exact IH. }
  rewrite Hn. repeat split; assumption.
Qed.

End Coordinator.



End DevicesProofs.

(** * Further properties of the manager *)

Module CloudExtras.
Import Cloud Examples MoreExamples CloudProofs.

Section Enrich.
Variable remote : nat -> request -> dict.

Lemma ensure_cache_item_enriches self cache_key (w : world) :
  cache_le (_cache w) (_cache (snd (_ensure_cache_item remote self cache_key w))).
Proof.
  unfold _ensure_cache_item. destruct cache_key as [key|]; [|apply cache_le_refl].
  destruct (negb _); [apply cache_le_refl|].
  unfold bind, item_ref, cache_lookup, ret. simpl.
  destruct (cache_get (_cache w) key) as [it|] eqn:E.
  - pose proof (fill_enriches remote key w) as H.
    destruct (_fill_cache_item remote key w) as [[[]|e] w1]; exact H.
  - unfold login.
    pose proof (login_enriches remote (_data self) ENABLE w) as Hl.
    destruct (_login remote (_data self) ENABLE w) as [[response|e] w1];
      simpl in Hl; [|exact Hl].
    destruct (_is_login_success response); simpl; [|exact Hl].
    destruct (cache_get (_cache w1) key) as [it|]; simpl; [|exact Hl].
    pose proof (fill_enriches remote key w1) as H.
    destruct (_fill_cache_item remote key w1) as [[[]|e] w2];
      (eapply cache_le_trans; [exact Hl|exact H]).
Qed.

Lemma find_cache_key_run self address (w : world) :
  _find_cache_key_for_address self address w
  = (Ok (if _has_login (content w (_data self))
         then Some (_get_cache_key (content w (_data self)))
         else find_address address (_cache w)), w).
Proof.
  unfold _find_cache_key_for_address, bind, deref, ret, get_cache.
  destruct (_has_login _); reflexivity.
Qed.

(** [find_credentials], case by case. *)
Lemma find_credentials_run self address force_update (w : world) :
  find_credentials remote self address force_update w =
  let d := content w (_data self) in
  if negb force_update && _has_credentials d then (Ok (Some d, None), w) else
  let cache_key :=
    if _has_login d then Some (_get_cache_key d) else find_address address (_cache w) in
  let present :=
    match cache_key with Some key => cache_get (_cache w) key | None => None end in
  match
    (if force_update
        || (key_truthy cache_key && match present with Some _ => false | None => true end)
     then _ensure_cache_item remote self cache_key w
     else (Ok (if key_truthy cache_key
               then match present with Some _ => cache_key | None => None end
               else None), w))
  with
  | (Ok (Some it), w1) =>
      match cache_get (_cache w1) it with
      | Some i => (Ok (item_credentials i !! address, Some it), w1)
      | None => (Raise AttributeError, w1)
      end
  | (Ok None, w1) => (Ok (None, None), w1)
  | (Raise e, w1) => (Raise e, w1)
  end.
Proof.
  unfold find_credentials. unfold bind at 1. unfold deref at 1. cbv zeta.
  destruct (negb force_update && _); [reflexivity|].
  unfold bind at 1. rewrite find_cache_key_run.
  set (cache_key := if _has_login _ then _ else _).
  unfold bind at 1.
  assert (Hp : (match cache_key with Some key => cache_lookup key | None => ret None end) w
               = (Ok (match cache_key with
                      | Some key => cache_get (_cache w) key | None => None end), w))
    by (destruct cache_key; reflexivity).
  rewrite Hp. set (present := match cache_key with Some _ => _ | None => _ end).
  unfold bind at 1.
  destruct (force_update || _) eqn:Hc.
  - destruct (_ensure_cache_item remote self cache_key w) as [[[it|]|e] w1];
      try reflexivity.
    unfold bind, item_of, ret. destruct (cache_get (_cache w1) it); reflexivity.
  - destruct (key_truthy cache_key) eqn:Hk; [|reflexivity].
    destruct cache_key as [key|]; [|discriminate].
    unfold item_ref, bind, cache_lookup, ret. subst present. simpl.
    destruct (cache_get (_cache w) key) as [i|] eqn:E; [|reflexivity].
    unfold item_of. rewrite E. reflexivity.
Qed.

Lemma find_credentials_enriches self address force_update (w : world) :
  cache_le (_cache w) (_cache (snd (find_credentials remote self address force_update w))).
Proof.
  rewrite find_credentials_run. cbv zeta.
  destruct (negb force_update && _); [apply cache_le_refl|].
  set (cache_key := if _has_login _ then _ else _).
  destruct (force_update || _).
  - pose proof (ensure_cache_item_enriches self cache_key w) as H.
    destruct (_ensure_cache_item remote self cache_key w) as [[[it|]|e] w1];
      simpl in *; try exact H.
    destruct (cache_get (_cache w1) it); exact H.
  - destruct (if key_truthy cache_key then _ else _) as [it|]; [|apply cache_le_refl].
    destruct (cache_get (_cache w) it); apply cache_le_refl.
Qed.

(** What follows the first half of [get_device_credentials] writes to the
    manager's dict only. *)
Lemma get_device_credentials_cache self address force_update save_data (w : world) :
  _cache (snd (get_device_credentials remote self address force_update save_data w))
  = _cache (snd (find_credentials remote self address force_update w))
  /\ net_log (snd (get_device_credentials remote self address force_update save_data w))
     = net_log (snd (find_credentials remote self address force_update w)).
Proof.
  unfold get_device_credentials, bind.
  destruct (find_credentials remote self address force_update w)
    as [[[credentials item]|e] w1]; simpl; [|split; reflexivity].
  destruct credentials as [credentials|]; [|split; reflexivity].
  unfold ret, lift. destruct (size credentials =? 0)%nat; [split; reflexivity|].
  destruct (_create_credentials_from_dict credentials) as [r|e]; [|split; reflexivity].
  destruct save_data; [|split; reflexivity].
  destruct item as [it|]; simpl.
  - unfold item_of. destruct (cache_get (_cache w1) it); split; reflexivity.
  - split; reflexivity.
Qed.

(** X1. Nothing the manager does takes anything out of the cache: after a
    login, a fill, a sweep of [build_cache] or a resolution by
    [get_device_credentials], whether it returned or raised, every key of
    the cache is still there and the table of every key still has every
    address it had.  [get_login_from_cache] does not touch the cache at all. *)
Theorem manager_never_drops_cache_entries (self : HASSTuyaBLEDeviceManager) (w : world) :
  (forall cache_config,
      cache_le (_cache w) (_cache (snd (login remote self cache_config w))))
  /\ (forall item, cache_le (_cache w) (_cache (snd (_fill_cache_item remote item w))))
  /\ cache_le (_cache w) (_cache (snd (build_cache remote self w)))
  /\ (forall address force_update save_data,
         cache_le (_cache w)
           (_cache (snd (get_device_credentials remote self address
                           force_update save_data w))))
  /\ _cache (snd (get_login_from_cache self w)) = _cache w.
Proof.
  split; [intros; apply login_enriches|].
  split; [intros; apply fill_enriches|].
  split.
  { unfold build_cache, bind, alloc. rewrite build_cache_from_records.
    apply (sweep_enriches remote _ _ (with_dict (fresh (dom (heap w))) ∅ w)). }
  split.
  { intros address force_update save_data.
    rewrite (proj1 (get_device_credentials_cache self address force_update save_data w)).
    apply find_credentials_enriches. }
  unfold get_login_from_cache, bind, get_cache, deref, modify, ret. simpl.
  destruct (_cache w) as [|[k it] c] eqn:E; simpl; exact E.
Qed.

End Enrich.

(** ** Resolution from the cache *)

Lemma find_address_get address (c : cache_table) key :
  find_address address c = Some key -> cache_get c key <> None.
Proof.
  induction c as [|[k it] c IH]; simpl; [discriminate|].
  destruct (item_credentials it !! address).
  - intros [= ->]. destruct (decide (key = key)); [discriminate|congruence].
  - intros H. destruct (decide (k = key)); [discriminate|apply IH, H].
Qed.

(** [find_address] gives the first entry, in the order of insertion, whose
    table holds the address. *)
Lemma find_address_first address (c : cache_table) :
  match find_address address c with
  | Some key =>
      exists before it after,
        c = (before ++ (key, it) :: after)%list
        /\ is_Some (item_credentials it !! address)
        /\ Forall (fun e => item_credentials e.2 !! address = None) before
  | None => Forall (fun e => item_credentials e.2 !! address = None) c
  end.
Proof.
  induction c as [|[k it] c IH]; simpl; [constructor|].
  destruct (item_credentials it !! address) as [record|] eqn:E.
  - exists [], it, c. split; [reflexivity|]. split; [rewrite E; eauto|constructor].
  - destruct (find_address address c) as [key|].
    + destruct IH as (before & it' & after & -> & Hs & Hb).
      exists ((k, it) :: before), it', after. split; [reflexivity|].
      split; [exact Hs|]. constructor; [exact E|exact Hb].
    + constructor; [exact E|exact IH].
Qed.

Section Resolution.
Variable remote : nat -> request -> dict.

(** The second half of [get_device_credentials]. *)
Lemma get_device_credentials_run self address force_update save_data (w : world) :
  get_device_credentials remote self address force_update save_data w =
  match find_credentials remote self address force_update w with
  | (Raise e, w1) => (Raise e, w1)
  | (Ok (None, _), w1) => (Ok None, w1)
  | (Ok (Some record, item), w1) =>
      if (size record =? 0)%nat then (Ok None, w1) else
      match _create_credentials_from_dict record with
      | Raise e => (Raise e, w1)
      | Ok r =>
          if save_data then
            match item with
            | Some it =>
                match cache_get (_cache w1) it with
                | Some i =>
                    (Ok r, with_dict (_data self)
                             (dict_update
                                (dict_update (content w1 (_data self))
                                   (content w1 (item_login i)))
                                record) w1)
                | None => (Raise AttributeError, w1)
                end
            | None =>
                (Ok r, with_dict (_data self)
                         (dict_update (content w1 (_data self)) record) w1)
            end
          else (Ok r, w1)
      end
  end.
Proof.
  unfold get_device_credentials, bind.
  destruct (find_credentials remote self address force_update w)
    as [[[credentials item]|e] w1]; simpl; [|reflexivity].
  destruct credentials as [record|]; [|reflexivity].
  unfold ret, lift. destruct (size record =? 0)%nat; [reflexivity|].
  destruct (_create_credentials_from_dict record) as [r|e]; [|reflexivity].
  destruct save_data; [|reflexivity].
  destruct item as [it|]; simpl.
  - unfold item_of. destruct (cache_get (_cache w1) it) as [i|]; [|reflexivity].
    unfold deref, modify. rewrite content_with_dict, with_dict_twice. reflexivity.
  - reflexivity.
Qed.

(** Without [force_update], and with an entry in the cache for the local
    login if there is one, the first half reads the cache and does nothing
    else. *)
Lemma find_credentials_quiet self address (w : world) :
  (_has_login (content w (_data self)) = true ->
   cache_get (_cache w) (_get_cache_key (content w (_data self))) <> None) ->
  exists found,
    find_credentials remote self address false w = (Ok found, w)
    /\ match found.2 with
       | Some it => cache_get (_cache w) it <> None
       | None => True
       end.
Proof.
  intros Hl. rewrite find_credentials_run. cbv zeta. simpl.
  destruct (_has_credentials _); [eexists; split; [reflexivity|exact I]|].
  set (cache_key := if _has_login _ then _ else _).
  assert (Hp : forall key, cache_key = Some key -> cache_get (_cache w) key <> None).
  { subst cache_key. intros key. destruct (_has_login _).
    - intros [= <-]. apply Hl. reflexivity.
    - apply find_address_get. }
  destruct cache_key as [key|]; simpl.
  - specialize (Hp key eq_refl).
    destruct (cache_get (_cache w) key) as [i|] eqn:E; [|congruence].
    rewrite andb_false_r.
    destruct (negb (String.eqb key "")); simpl.
    + rewrite E. eexists. split; [reflexivity|]. simpl. rewrite E. discriminate.
    + eexists. split; [reflexivity|exact I].
  - eexists. split; [reflexivity|exact I].
Qed.

(** X2. A resolution without [force_update] sends nothing to the remote
    service and raises nothing, as long as the local data is not a complete
    login or its entry is already in the cache: the requests sent and the
    cache are what they were, no dict other than the manager's own is
    written, and without [save_data] nothing changes at all. *)
Theorem resolution_from_cache_sends_nothing
    (self : HASSTuyaBLEDeviceManager) (address : string) (save_data : bool) (w : world) :
  (_has_login (content w (_data self)) = true ->
   cache_get (_cache w) (_get_cache_key (content w (_data self))) <> None) ->
  exists r w',
    get_device_credentials remote self address false save_data w = (Ok r, w')
    /\ net_log w' = net_log w
    /\ _cache w' = _cache w
    /\ (forall l, l <> _data self -> heap w' !! l = heap w !! l)
    /\ (save_data = false -> w' = w).
Proof.
  intros Hl. destruct (find_credentials_quiet self address w Hl) as ([rec item] & Hf & Hi).
  rewrite get_device_credentials_run, Hf. simpl in Hi.
  destruct rec as [record|].
  2:{ exists None, w. repeat split. }
  destruct (size record =? 0)%nat.
  { exists None, w. repeat split. }
  destruct (create_from_dict_ok record) as [r ->].
  destruct save_data.
  2:{ exists r, w. repeat split. }
  destruct item as [it|].
  - destruct (cache_get (_cache w) it) as [i|]; [|congruence].
    eexists r, _. split; [reflexivity|]. simpl.
    split; [reflexivity|]. split; [reflexivity|]. split; [|discriminate].
    intros l Hne. apply lookup_insert_ne. congruence.
  - eexists r, _. split; [reflexivity|]. simpl.
    split; [reflexivity|]. split; [reflexivity|]. split; [|discriminate].
    intros l Hne. apply lookup_insert_ne. congruence.
Qed.

(** X3. With a complete login in the local data, only the entry of that
    login is consulted.  When that entry exists and its table lacks the
    address, the answer is nothing, even if the table of another entry holds
    the address; and nothing changes. *)
Theorem own_login_entry_only
    (self : HASSTuyaBLEDeviceManager) (address : string) (save_data : bool) (w : world)
    (it : TuyaCloudCacheItem) :
  _has_credentials (content w (_data self)) = false ->
  _has_login (content w (_data self)) = true ->
  cache_get (_cache w) (_get_cache_key (content w (_data self))) = Some it ->
  item_credentials it !! address = None ->
  get_device_credentials remote self address false save_data w = (Ok None, w).
Proof.
  intros Hc Hl Hg Ha.
  rewrite get_device_credentials_run, find_credentials_run. cbv zeta.
  rewrite Hc, Hl. simpl. rewrite Hg. simpl. rewrite Hg, Ha. reflexivity.
Qed.

(** X4. Without a login and without credentials in the local data, an
    address that no table of the cache holds resolves to nothing, and nothing
    changes: no login is attempted and no error is raised. *)
Theorem unknown_address_is_a_miss
    (self : HASSTuyaBLEDeviceManager) (address : string) (save_data : bool) (w : world) :
  _has_credentials (content w (_data self)) = false ->
  _has_login (content w (_data self)) = false ->
  Forall (fun e => item_credentials e.2 !! address = None) (_cache w) ->
  get_device_credentials remote self address false save_data w = (Ok None, w).
Proof.
  intros Hc Hl Hall.
  assert (Hf : find_address address (_cache w) = None).
  { pose proof (find_address_first address (_cache w)) as H.
    destruct (find_address address (_cache w)) as [key|]; [|reflexivity].
    destruct H as (before & it & after & Heq & [x Hx] & _).
    rewrite Heq in Hall. apply Forall_app in Hall as [_ Hall].
    apply Forall_cons in Hall as [Hit _]. simpl in Hit. congruence. }
  rewrite get_device_credentials_run, find_credentials_run. cbv zeta.
  rewrite Hc, Hl, Hf. reflexivity.
Qed.

End Resolution.

(** ** Saving and the local shortcut *)

Lemma create_from_dict_ext (d1 d2 : dict) :
  (forall k, In k CONF_TUYA_DEVICE_KEYS -> dict_get d1 k = dict_get d2 k) ->
  _create_credentials_from_dict d1 = _create_credentials_from_dict d2.
Proof.
  intros H. unfold _create_credentials_from_dict.
  rewrite !H by (unfold CONF_TUYA_DEVICE_KEYS; simpl; tauto). reflexivity.
Qed.

Lemma has_credentials_ext (d1 d2 : dict) :
  (forall k, In k CONF_TUYA_DEVICE_KEYS -> dict_get d1 k = dict_get d2 k) ->
  _has_credentials d1 = _has_credentials d2.
Proof.
  intros H. unfold _has_credentials, CONF_TUYA_DEVICE_KEYS. simpl.
  rewrite !H by (unfold CONF_TUYA_DEVICE_KEYS; simpl; tauto). reflexivity.
Qed.

Lemma update_keeps_device_fields (d record : dict) k :
  _has_credentials record = true -> In k CONF_TUYA_DEVICE_KEYS ->
  dict_get (dict_update d record) k = dict_get record k.
Proof.
  intros Hc Hk.
  destruct (proj1 (has_credentials_spec record) Hc k Hk) as (v & Hv & _).
  unfold dict_get, dict_update. rewrite (lookup_union_Some_l _ _ _ _ Hv), Hv. reflexivity.
Qed.

Section Shortcut.
Variable remote : nat -> request -> dict.

Lemma shortcut_run self address save_data (w : world) :
  _has_credentials (content w (_data self)) = true ->
  get_device_credentials remote self address false save_data w
  = (_create_credentials_from_dict (content w (_data self)), w).
Proof.
  intros Hc. rewrite get_device_credentials_run, find_credentials_run. cbv zeta.
  rewrite Hc. simpl. rewrite (has_credentials_nonempty _ Hc).
  destruct (create_from_dict_ok (content w (_data self))) as [r Hr]. rewrite Hr.
  destruct save_data; [|reflexivity].
  unfold dict_update. rewrite (idemp_L (∪)).
  rewrite with_dict_content
    by (apply content_nonempty_allocated, has_credentials_nonempty, Hc).
  reflexivity.
Qed.

(** X5. Saving makes the next calls local.  When a call with [save_data]
    finds in the cache a record with all eight device fields non-null, the
    manager's dict holds these fields afterwards, and every later call
    without [force_update] returns the same credentials from the local data,
    changing nothing and asking neither the cache nor the remote service.
    The later call returns them for whatever address it is asked. *)
Theorem saved_credentials_answer_later_calls
    (self : HASSTuyaBLEDeviceManager) (address : string) (force_update : bool)
    (w w1 : world) (record : dict) (key : string) :
  find_credentials remote self address force_update w = (Ok (Some record, Some key), w1) ->
  _has_credentials record = true ->
  exists r w2,
    get_device_credentials remote self address force_update true w = (Ok r, w2)
    /\ _create_credentials_from_dict record = Ok r
    /\ _has_credentials (content w2 (_data self)) = true
    /\ forall address' save_data,
         get_device_credentials remote self address' false save_data w2 = (Ok r, w2).
Proof.
  intros Hfind Hc.
  destruct (find_credentials_in_cache remote _ _ _ _ _ _ _ Hfind) as (it & Hg & _).
  destruct (create_from_dict_ok record) as [r Hr].
  rewrite get_device_credentials_run, Hfind, (has_credentials_nonempty _ Hc), Hr, Hg.
  eexists r, _. split; [reflexivity|]. split; [reflexivity|].
  set (d2 := dict_update _ record).
  assert (Hext : forall k, In k CONF_TUYA_DEVICE_KEYS -> dict_get d2 k = dict_get record k).
  { intros k Hk. apply update_keeps_device_fields; assumption. }
  assert (Hc2 : _has_credentials (content (with_dict (_data self) d2 w1) (_data self)) = true).
  { rewrite content_with_dict, (has_credentials_ext _ _ Hext). exact Hc. }
  split; [exact Hc2|].
  intros address' save_data. rewrite (shortcut_run _ _ _ _ Hc2).
  rewrite content_with_dict, (create_from_dict_ext _ _ Hext), Hr. reflexivity.
Qed.

End Shortcut.

(** ** A login that succeeds *)

Section LoginSuccess.
Variable remote : nat -> request -> dict.

(** X6. A successful login returns the response and sends one request.
    With [DISABLE] the cache is left alone.  With [ENABLE] the entry under
    the key of the dict is created or updated in place: it gets the new
    handle, its login becomes the very dict that was passed (not a copy), its
    table is kept (empty for a new entry), every other key is untouched, and
    [_check_login] holds afterwards. *)
Theorem login_success_upserts
    (self : HASSTuyaBLEDeviceManager) (cache_config : CacheConfiguration) (w : world) :
  let d := content w (_data self) in
  let response := remote (length (net_log w)) (connect_request d) in
  d !! CONF_USERNAME <> None ->
  has_len (dict_get_or d CONF_ACCESS_SECRET (VStr "")) = true ->
  _is_login_success response = true ->
  exists w',
    login remote self cache_config w = (Ok response, w')
    /\ net_log w' = (net_log w ++ [connect_request d])%list
    /\ heap w' = heap w
    /\ match cache_config with
       | DISABLE => _cache w' = _cache w
       | ENABLE =>
           (exists it,
               cache_get (_cache w') (_get_cache_key d) = Some it
               /\ item_login it = _data self
               /\ item_api it = Some (api_of d (Some response))
               /\ item_credentials it
                  = match cache_get (_cache w) (_get_cache_key d) with
                    | Some old => item_credentials old
                    | None => ∅
                    end)
           /\ (forall key, key <> _get_cache_key d ->
                  cache_get (_cache w') key = cache_get (_cache w) key)
           /\ _check_login self w' = (Ok true, w')
       end.
Proof.
  intros d response Hu Hl Hs. unfold login. rewrite login_run. cbv zeta.
  fold d.
  assert (Hsz : (size d =? 0)%nat = false).
  { apply Nat.eqb_neq. intros Hz. apply Hu, size_zero_lookup, Nat.eqb_eq, Hz. }
  rewrite Hsz. destruct (proj1 (py_len_has_len _) Hl) as [n ->].
  destruct (d !! CONF_USERNAME) as [u|]; [|congruence].
  fold response. rewrite Hs.
  destruct cache_config.
  - eexists. split; [reflexivity|]. simpl.
    split; [reflexivity|]. split; [reflexivity|].
    assert (Hit : exists it,
               cache_get (login_cache (_data self) d response (_cache w)) (_get_cache_key d)
               = Some it
               /\ item_login it = _data self
               /\ item_api it = Some (api_of d (Some response))
               /\ item_credentials it
                  = match cache_get (_cache w) (_get_cache_key d) with
                    | Some old => item_credentials old
                    | None => ∅
                    end).
    { unfold login_cache. destruct (cache_get (_cache w) (_get_cache_key d)) as [old|] eqn:E.
      - rewrite cache_get_alter, E.
        destruct (decide (_get_cache_key d = _get_cache_key d)); [|congruence].
        simpl. eexists. split; [reflexivity|]. repeat split.
      - rewrite cache_get_set.
        destruct (decide (_get_cache_key d = _get_cache_key d)); [|congruence].
        eexists. split; [reflexivity|]. repeat split. }
    split; [exact Hit|]. split.
    + intros key Hne. unfold login_cache.
      destruct (cache_get (_cache w) (_get_cache_key d)) eqn:E.
      * rewrite cache_get_alter.
        destruct (decide (_get_cache_key d = key)); [congruence|reflexivity].
      * rewrite cache_get_set.
        destruct (decide (_get_cache_key d = key)); [congruence|reflexivity].
    + destruct Hit as (it & Hg & _).
      unfold _check_login, bind, deref, cache_lookup, ret. simpl.
      change (content (with_cache _ (sent _ w)) (_data self)) with d.
      rewrite Hg. reflexivity.
  - eexists. split; [reflexivity|]. simpl. repeat split.
Qed.

End LoginSuccess.

(** ** The login dict of the entries a sweep creates *)

(** The entry under [key] refers to the dict at [data] as its login. *)
Lemma login_cache_alias data (d : dict) response (c : cache_table) key :
  (key = _get_cache_key d
   \/ exists it, cache_get c key = Some it /\ item_login it = data) ->
  exists it, cache_get (login_cache data d response c) key = Some it
             /\ item_login it = data.
Proof.
  unfold login_cache. intros H.
  destruct (cache_get c (_get_cache_key d)) as [old|] eqn:E.
  - rewrite cache_get_alter. destruct (decide (_get_cache_key d = key)) as [<-|Hne].
    + rewrite E. simpl. eexists. split; reflexivity.
    + destruct H as [->|H]; [congruence|exact H].
  - rewrite cache_get_set. destruct (decide (_get_cache_key d = key)) as [<-|Hne].
    + eexists. split; reflexivity.
    + destruct H as [->|H]; [congruence|exact H].
Qed.

Lemma last_cons {A} (l : list A) (x d : A) : List.last (x :: l) d = List.last l x.
Proof.
  revert x d. induction l as [|y l IH]; intros x d; [reflexivity|].
  change (List.last (x :: y :: l) d) with (List.last (y :: l) d).
  rewrite (IH y d). symmetry. apply (IH y x).
Qed.

Section SweepAlias.
Variable remote : nat -> request -> dict.

Lemma login_heap data cache_config (w : world) :
  heap (snd (_login remote data cache_config w)) = heap w.
Proof.
  rewrite login_run. cbv zeta.
  destruct (size _ =? 0)%nat; [reflexivity|].
  destruct (py_len _); [|reflexivity].
  destruct (content w data !! CONF_USERNAME); [|reflexivity].
  destruct (_is_login_success _); [|reflexivity].
  destruct cache_config; reflexivity.
Qed.

Lemma login_keeps_alias data (w : world) key :
  (exists it, cache_get (_cache w) key = Some it /\ item_login it = data) ->
  exists it, cache_get (_cache (snd (_login remote data ENABLE w))) key = Some it
             /\ item_login it = data.
Proof.
  intros H. rewrite login_run. cbv zeta.
  destruct (size _ =? 0)%nat; [exact H|].
  destruct (py_len _); [|exact H].
  destruct (content w data !! CONF_USERNAME); [|exact H].
  destruct (_is_login_success _); [|exact H].
  simpl. apply login_cache_alias. right. exact H.
Qed.

Lemma fill_keeps_alias data item (w : world) key :
  (exists it, cache_get (_cache w) key = Some it /\ item_login it = data) ->
  exists it, cache_get (_cache (snd (_fill_cache_item remote item w))) key = Some it
             /\ item_login it = data.
Proof.
  intros (it & Hg & Hl).
  destruct (fill_cache_item_grows remote item w) as (m & -> & _).
  rewrite cache_get_alter, Hg. destruct (decide (item = key)); simpl; eauto.
Qed.

Lemma build_cache_entry_heap data source (w : world) :
  heap (snd (build_cache_entry remote data source w)) = <[data := source]> (heap w).
Proof.
  rewrite build_cache_entry_run. cbv zeta.
  destruct (negb _); [reflexivity|].
  destruct (needs_login _ _); [|reflexivity].
  pose proof (login_heap data ENABLE (with_dict data source w)) as Hl.
  destruct (_login remote data ENABLE _) as [[response|e] w1]; simpl in Hl; [|exact Hl].
  destruct (_is_login_success response); [|exact Hl].
  destruct (cache_get (_cache w1) _) as [it|]; [|exact Hl].
  destruct (size _ =? 0)%nat; [|exact Hl].
  destruct (fill_cache_item_grows remote (_get_cache_key source) w1) as (m & _ & Hh).
  rewrite Hh. exact Hl.
Qed.

Lemma build_cache_entry_keeps_alias data source (w : world) key :
  (exists it, cache_get (_cache w) key = Some it /\ item_login it = data) ->
  exists it, cache_get (_cache (snd (build_cache_entry remote data source w))) key
             = Some it
             /\ item_login it = data.
Proof.
  intros H. rewrite build_cache_entry_run. cbv zeta.
  destruct (negb _); [exact H|].
  destruct (needs_login _ _); [|exact H].
  pose proof (login_keeps_alias data (with_dict data source w) key H) as Hl.
  destruct (_login remote data ENABLE _) as [[response|e] w1]; simpl in Hl; [|exact Hl].
  destruct (_is_login_success response); [|exact Hl].
  destruct (cache_get (_cache w1) (_get_cache_key source)) as [it|]; [|exact Hl].
  destruct (size _ =? 0)%nat; [|exact Hl].
  apply fill_keeps_alias, Hl.
Qed.

Lemma sweep_alias data (l : list dict) (w w' : world) key (d0 : dict) :
  (exists it, cache_get (_cache w) key = Some it /\ item_login it = data) ->
  content w data = d0 ->
  for_each l (build_cache_entry remote data) w = (Ok tt, w') ->
  (exists it, cache_get (_cache w') key = Some it /\ item_login it = data)
  /\ content w' data = List.last l d0.
Proof.
  revert w d0. induction l as [|source l IH]; intros w d0 Ha Hd Hrun.
  - simpl in Hrun. inversion Hrun; subst. split; [assumption|reflexivity].
  - simpl in Hrun. unfold bind in Hrun.
    pose proof (build_cache_entry_keeps_alias data source w key Ha) as Ha1.
    pose proof (build_cache_entry_heap data source w) as Hh.
    destruct (build_cache_entry remote data source w) as [[[]|e] w1];
      [|discriminate].
    simpl in Ha1, Hh.
    assert (Hd1 : content w1 data = source).
    { unfold content. rewrite Hh, lookup_insert_eq. reflexivity. }
    destruct (IH w1 source Ha1 Hd1 Hrun) as [Hq Hc]. split; [exact Hq|].
    rewrite Hc. symmetry. apply last_cons.
Qed.

(** X7. The login of an entry that [build_cache] creates is not a snapshot.
    A record whose login succeeds during the sweep gets an entry whose login
    is the scratch dict of the sweep itself, and the sweep overwrites that
    dict with every record it visits: when the sweep has finished, the login
    of the entry reads as the last record visited, whatever that record
    holds. *)
Theorem sweep_entries_share_the_scratch_dict
    (data : ref) (source : dict) (rest : list dict) (w w' : world) :
  forallb (dict_contains source) CONF_TUYA_LOGIN_KEYS = true ->
  needs_login (_get_cache_key source) (_cache w) = true ->
  _is_login_success (remote (length (net_log w)) (connect_request source)) = true ->
  for_each (source :: rest) (build_cache_entry remote data) w = (Ok tt, w') ->
  exists it,
    cache_get (_cache w') (_get_cache_key source) = Some it
    /\ item_login it = data
    /\ content w' (item_login it) = List.last (source :: rest) source.
Proof.
  intros Hc Hn Hs Hrun. simpl in Hrun. unfold bind in Hrun.
  pose proof (build_cache_entry_heap data source w) as Hh.
  assert (Ha : fst (build_cache_entry remote data source w) = Ok tt ->
               exists it,
                 cache_get (_cache (snd (build_cache_entry remote data source w)))
                   (_get_cache_key source) = Some it
                 /\ item_login it = data).
  { rewrite build_cache_entry_run. cbv zeta. rewrite Hc, Hn. simpl.
    rewrite login_run. cbv zeta. rewrite content_with_dict, (complete_size _ Hc).
    destruct (py_len _) as [n|e]; [|discriminate].
    destruct (complete_lookup source CONF_USERNAME Hc) as [u Hu];
      [unfold CONF_TUYA_LOGIN_KEYS; simpl; tauto|].
    rewrite Hu.
    change (net_log (with_dict data source w)) with (net_log w).
    change (_cache (with_dict data source w)) with (_cache w).
    rewrite Hs. simpl. rewrite Hs.
    pose proof (login_cache_alias data source
                  (remote (length (net_log w)) (connect_request source)) (_cache w)
                  (_get_cache_key source) (or_introl eq_refl)) as Hl.
    destruct Hl as (it & Hg & Hl). rewrite Hg. intros _.
    destruct (size _ =? 0)%nat.
    - apply fill_keeps_alias. simpl. eauto.
    - simpl. eauto. }
  destruct (build_cache_entry remote data source w) as [[[]|e] w1]; [|discriminate].
  simpl in Ha, Hh. specialize (Ha eq_refl).
  assert (Hd1 : content w1 data = source).
  { unfold content. rewrite Hh, lookup_insert_eq. reflexivity. }
  destruct (sweep_alias data rest w1 w' _ source Ha Hd1 Hrun) as ((it & Hg & Hl) & Hlast).
  exists it. split; [exact Hg|]. split; [exact Hl|]. rewrite Hl, Hlast.
  symmetry. apply last_cons.
Qed.

End SweepAlias.

(** ** What a fill does with each device *)

Section FillDevices.
Variable remote : nat -> request -> dict.

(** X8. The loop of a fill passes over a device that has no usable factory
    record and stops at a device it cannot read.  A device whose factory
    answer has a null or empty result, or whose first factory record is an
    object without a MAC field, costs one request and stores nothing, and the
    loop goes on with the next device.  A device that is not an object raises
    [AttributeError] before any request, and a MAC field that is null, a
    number, a boolean or a list raises [TypeError] after the request: in both
    cases the devices that follow are never asked for. *)
Theorem fill_skips_or_stops
    (item : string) (api : TuyaOpenAPI) (device : pyval) (rest : list pyval) (w : world) :
  let loop l := for_each l (fill_device remote item api) in
  ((forall d, device <> VDict d) -> loop (device :: rest) w = (Raise AttributeError, w))
  /\ (forall d,
        device = VDict d ->
        let id := default VNone (assoc_get d "id") in
        let answer := dict_get (remote (length (net_log w)) (GetFactoryInfo api id))
                        TUYA_RESPONSE_RESULT in
        (py_truthy answer = false ->
         loop (device :: rest) w = loop rest (sent (GetFactoryInfo api id) w))
        /\ (forall fi more,
              answer = VList (VDict fi :: more) -> assoc_get fi TUYA_FACTORY_INFO_MAC = None ->
              loop (device :: rest) w = loop rest (sent (GetFactoryInfo api id) w))
        /\ (forall fi more raw,
              answer = VList (VDict fi :: more) ->
              assoc_get fi TUYA_FACTORY_INFO_MAC = Some raw ->
              (forall s, raw <> VStr s) -> (forall m, raw <> VDict m) ->
              loop (device :: rest) w
              = (Raise TypeError, sent (GetFactoryInfo api id) w))).
Proof.
  cbv zeta. split.
  - intros Hd. simpl. unfold bind. rewrite fill_device_run.
    destruct device; try reflexivity. exfalso. eapply Hd. reflexivity.
  - intros d ->. simpl. unfold bind. rewrite fill_device_run. simpl.
    set (id := default VNone (assoc_get d "id")).
    set (q := GetFactoryInfo api id).
    unfold factory_entry.
    set (answer := dict_get (remote (length (net_log w)) q) TUYA_RESPONSE_RESULT).
    split; [|split].
    + intros ->. reflexivity.
    + intros fi more -> Hm. simpl.
      destruct fi as [|[k v] fi]; simpl; [reflexivity|].
      simpl in Hm. rewrite Hm. reflexivity.
    + intros fi more raw -> Hm Hs _. simpl.
      destruct fi as [|[k v] fi]; [discriminate|].
      cbn [py_truthy]. cbn [rbind py_contains py_getitem]. rewrite Hm.
      cbn [rbind]. destruct raw; try reflexivity. exfalso. eapply Hs. reflexivity.
Qed.



End FillDevices.

(** ** Invariants of the cache *)

(** Every change the manager makes to the cache is a login upsert or the
    growth of one table by what a fill fetched; a property of caches that
    survives these two survives every operation. *)
Section Preserved.
Variable remote : nat -> request -> dict.
Variable P : cache_table -> Prop.
Hypothesis P_login :
  forall data d response c, P c -> P (login_cache data d response c).
Hypothesis P_fill :
  forall t api item c, P c -> P (cache_alter (grow (fetched remote t api)) item c).

Lemma login_preserves data cache_config (w : world) :
  P (_cache w) -> P (_cache (snd (_login remote data cache_config w))).
Proof.
  intros H. rewrite login_run. cbv zeta.
  destruct (size _ =? 0)%nat; [exact H|].
  destruct (py_len _); [|exact H].
  destruct (content w data !! CONF_USERNAME); [|exact H].
  destruct (_is_login_success _); [|exact H].
  destruct cache_config; [|exact H].
  simpl. apply P_login, H.
Qed.

Lemma fill_preserves item (w : world) :
  P (_cache w) -> P (_cache (snd (_fill_cache_item remote item w))).
Proof.
  intros H. pose proof (fill_cache_item_run remote item w) as Hr. cbv zeta in Hr.
  destruct (cache_get (_cache w) item) as [it|]; [|rewrite Hr; exact H].
  destruct (item_api it) as [api|]; [|rewrite Hr; exact H].
  destruct Hr as (-> & _). apply P_fill, H.
Qed.

Lemma build_cache_entry_preserves data source (w : world) :
  P (_cache w) -> P (_cache (snd (build_cache_entry remote data source w))).
Proof.
  intros H. rewrite build_cache_entry_run. cbv zeta.
  destruct (negb _); [exact H|].
  destruct (needs_login _ _); [|exact H].
  pose proof (login_preserves data ENABLE (with_dict data source w) H) as Hl.
  destruct (_login remote data ENABLE _) as [[response|e] w1]; simpl in Hl; [|exact Hl].
  destruct (_is_login_success response); [|exact Hl].
  destruct (cache_get (_cache w1) (_get_cache_key source)) as [it|]; [|exact Hl].
  destruct (size _ =? 0)%nat; [|exact Hl].
  apply fill_preserves, Hl.
Qed.

Lemma sweep_preserves data (l : list dict) (w : world) :
  P (_cache w) -> P (_cache (snd (for_each l (build_cache_entry remote data) w))).
Proof.
  revert w. induction l as [|source l IH]; intros w H; simpl; [exact H|].
  unfold bind.
  pose proof (build_cache_entry_preserves data source w H) as H1.
  destruct (build_cache_entry remote data source w) as [[[]|e] w1]; simpl in *.
  - apply IH, H1.
  - exact H1.
Qed.

Lemma build_cache_preserves self (w : world) :
  P (_cache w) -> P (_cache (snd (build_cache remote self w))).
Proof.
  intros H. unfold build_cache, bind, alloc. rewrite build_cache_from_records.
  apply (sweep_preserves _ _ (with_dict (fresh (dom (heap w))) ∅ w)), H.
Qed.

Lemma ensure_cache_item_preserves self cache_key (w : world) :
  P (_cache w) -> P (_cache (snd (_ensure_cache_item remote self cache_key w))).
Proof.
  intros H0. unfold _ensure_cache_item. destruct cache_key as [key|]; [|exact H0].
  destruct (negb _); [exact H0|].
  unfold bind, item_ref, cache_lookup, ret. simpl.
  destruct (cache_get (_cache w) key) as [it|] eqn:E.
  - pose proof (fill_preserves key w H0) as H.
    destruct (_fill_cache_item remote key w) as [[[]|e] w1]; exact H.
  - unfold login.
    pose proof (login_preserves (_data self) ENABLE w H0) as Hl.
    destruct (_login remote (_data self) ENABLE w) as [[response|e] w1];
      simpl in Hl; [|exact Hl].
    destruct (_is_login_success response); simpl; [|exact Hl].
    destruct (cache_get (_cache w1) key) as [it|]; simpl; [|exact Hl].
    pose proof (fill_preserves key w1 Hl) as H.
    destruct (_fill_cache_item remote key w1) as [[[]|e] w2]; exact H.
Qed.

Lemma get_device_credentials_preserves self address force_update save_data (w : world) :
  P (_cache w) ->
  P (_cache (snd (get_device_credentials remote self address force_update save_data w))).
Proof.
  intros H0.
  rewrite (proj1 (get_device_credentials_cache remote self address force_update
                    save_data w)).
  rewrite find_credentials_run. cbv zeta.
  destruct (negb force_update && _); [exact H0|].
  set (cache_key := if _has_login _ then _ else _).
  destruct (force_update || _).
  - pose proof (ensure_cache_item_preserves self cache_key w H0) as H.
    destruct (_ensure_cache_item remote self cache_key w) as [[[it|]|e] w1];
      simpl in *; try exact H.
    destruct (cache_get (_cache w1) it); exact H.
  - destruct (if key_truthy cache_key then _ else _) as [it|]; [|exact H0].
    destruct (cache_get (_cache w) it); exact H0.
Qed.

End Preserved.

Import Tables.

Lemma factory_entry_keyed (device id : pyval) (fi_response : dict) mac record :
  factory_entry device id fi_response = Ok (Some (mac, record)) ->
  keyed_by mac record /\ record !! CONF_DEVICE_ID = Some id.
Proof.
  unfold factory_entry.
  destruct (py_truthy _); [|discriminate].
  destruct (py_len _) as [n|]; [|discriminate]. cbn [rbind].
  destruct (0 <? n)%nat; [|discriminate].
  destruct (py_first _) as [factory_info|]; [|discriminate]. cbn [rbind].
  destruct (py_truthy factory_info); [|discriminate].
  destruct (py_contains _ _) as [[]|]; try discriminate. cbn [rbind].
  destruct (py_getitem _ _) as [raw|]; [|discriminate]. cbn [rbind].
  destruct (mac_of raw) as [m|]; [|discriminate]. cbn [rbind].
  destruct device; try discriminate. cbn [rbind py_get].
  intros [= <- <-]. split; [split|]; [reflexivity| |reflexivity].
  intros k Hk. unfold RECORD_KEYS in Hk. simpl in Hk.
  destruct Hk as [<-|[<-|[<-|[<-|[<-|[<-|[<-|[<-|[<-|[]]]]]]]]]];
    eexists; reflexivity.
Qed.

Lemma table_keyed_union (m1 m2 : gmap string dict) :
  table_keyed m1 -> table_keyed m2 -> table_keyed (m1 ∪ m2).
Proof.
  intros H1 H2 address record H. apply lookup_union_Some_raw in H as [H|[_ H]].
  - apply H1, H.
  - apply H2, H.
Qed.

Lemma fill_delta_keyed remote t api (l : list pyval) : table_keyed (fill_delta remote t api l).
Proof.
  revert t. induction l as [|device l IH]; intros t; simpl.
  - intros address record H. rewrite lookup_empty in H. discriminate.
  - destruct (py_get device "id") as [id|];
      [|intros address record H; rewrite lookup_empty in H; discriminate].
    destruct (factory_entry _ _ _) as [[[mac record]|]|] eqn:E.
    + apply table_keyed_union; [apply IH|].
      intros address r H. apply lookup_singleton_Some in H as [<- <-].
      apply (factory_entry_keyed _ _ _ _ _ E).
    + apply IH.
    + intros address record H. rewrite lookup_empty in H. discriminate.
Qed.

Lemma fetched_keyed remote t api : table_keyed (fetched remote t api).
Proof.
  unfold fetched.
  destruct (py_truthy _);
    [|intros address record H; rewrite lookup_empty in H; discriminate].
  destruct (py_iter _);
    [apply fill_delta_keyed|intros address record H; rewrite lookup_empty in H; discriminate].
Qed.

(** X10. Every record in the cache sits under its own address.  If each
    record of each table is stored under the value of its address field and
    binds all nine fields, then this is still so after a login, a fill, a
    sweep of [build_cache] and a resolution by [get_device_credentials],
    whether they return or raise: the records a fill adds are built from the
    address they are stored under. *)
Theorem cache_records_sit_under_their_address
    (remote : nat -> request -> dict) (self : HASSTuyaBLEDeviceManager) (w : world) :
  well_keyed (_cache w) ->
  (forall cache_config, well_keyed (_cache (snd (login remote self cache_config w))))
  /\ (forall item, well_keyed (_cache (snd (_fill_cache_item remote item w))))
  /\ well_keyed (_cache (snd (build_cache remote self w)))
  /\ (forall address force_update save_data,
         well_keyed
           (_cache (snd (get_device_credentials remote self address
                           force_update save_data w)))).
Proof.
  intros H.
  assert (Hlogin : forall data d response c,
             well_keyed c -> well_keyed (login_cache data d response c)).
  { intros data d response c Hc key it. unfold login_cache.
    destruct (cache_get c (_get_cache_key d)) as [old|] eqn:E.
    - rewrite cache_get_alter. destruct (decide (_get_cache_key d = key)) as [<-|].
      + rewrite E. simpl. intros [= <-]. simpl. apply (Hc _ _ E).
      + apply Hc.
    - rewrite cache_get_set. destruct (decide (_get_cache_key d = key)) as [<-|].
      + intros [= <-]. simpl. intros address record Hl.
        rewrite lookup_empty in Hl. discriminate.
      + apply Hc. }
  assert (Hfill : forall t api item c,
             well_keyed c -> well_keyed (cache_alter (grow (fetched remote t api)) item c)).
  { intros t api item c Hc key it. rewrite cache_get_alter.
    destruct (decide (item = key)) as [<-|]; [|apply Hc].
    destruct (cache_get c item) as [old|] eqn:E; [|discriminate].
    simpl. intros [= <-]. simpl.
    apply table_keyed_union; [apply fetched_keyed|apply (Hc _ _ E)]. }
  split; [intros; unfold login; apply (login_preserves remote well_keyed Hlogin);
          assumption|].
  split; [intros; apply (fill_preserves remote well_keyed Hfill); assumption|].
  split; [apply (build_cache_preserves remote well_keyed Hlogin Hfill); assumption|].
  intros. apply (get_device_credentials_preserves remote well_keyed Hlogin Hfill).
  assumption.
Qed.

(** ** The address of a factory record *)

Lemma upper_ascii_idem (c : ascii) : upper_ascii (upper_ascii c) = upper_ascii c.
Proof. destruct c as [[] [] [] [] [] [] [] []]; reflexivity. Qed.

Lemma upper_colon : upper_ascii ":"%char = ":"%char.
Proof. reflexivity. Qed.

Lemma upper_idem (s : string) : upper (upper s) = upper s.
Proof. induction s as [|c s IH]; simpl; [reflexivity|]. rewrite upper_ascii_idem, IH. reflexivity. Qed.

Lemma upper_append (s t : string) : upper (s +:+ t) = upper s +:+ upper t.
Proof. induction s as [|c s IH]; simpl; [reflexivity|]. rewrite IH. reflexivity. Qed.

Lemma upper_length (s : string) : String.length (upper s) = String.length s.
Proof. induction s as [|c s IH]; simpl; [reflexivity|]. rewrite IH. reflexivity. Qed.

Lemma substring_0_0 (s : string) : String.substring 0 0 s = EmptyString.
Proof. destruct s; reflexivity. Qed.

Lemma mac_of_twelve (c1 c2 c3 c4 c5 c6 c7 c8 c9 c10 c11 c12 : ascii) (s : string) :
  mac_of (VStr (String c1 (String c2 (String c3 (String c4 (String c5 (String c6
            (String c7 (String c8 (String c9 (String c10 (String c11
               (String c12 s)))))))))))))
  = Ok (String (upper_ascii c1) (String (upper_ascii c2) (String ":"
       (String (upper_ascii c3) (String (upper_ascii c4) (String ":"
       (String (upper_ascii c5) (String (upper_ascii c6) (String ":"
       (String (upper_ascii c7) (String (upper_ascii c8) (String ":"
       (String (upper_ascii c9) (String (upper_ascii c10) (String ":"
       (String (upper_ascii c11) (String (upper_ascii c12) EmptyString))))))))))))))))).
Proof.
  unfold mac_of. cbn -[upper_ascii]. rewrite substring_0_0. reflexivity.
Qed.

(** X11. The address a fill derives from a MAC field (ASCII text).  A
    field of twelve characters or more gives an address of seventeen
    characters, in upper case, with colons after every pair, and only the
    first twelve characters count.  Nothing checks the field: a shorter
    string gives a shorter address instead of an error; a field that is
    null, a number, a boolean or a list raises [TypeError]. *)
Theorem mac_of_shape (s : string) :
  (12 <= String.length s ->
   exists m, mac_of (VStr s) = Ok m
             /\ String.length m = 17%nat
             /\ Tables.colons_at m
             /\ upper m = m
             /\ forall t, mac_of (VStr (s +:+ t)) = Ok m)
  /\ (String.length s < 12 ->
      exists m, mac_of (VStr s) = Ok m /\ String.length m < 17)
  /\ (forall v, (forall s', v <> VStr s') -> (forall d, v <> VDict d) ->
        mac_of v = Raise TypeError).
Proof.
  split; [|split].
  - intros Hl.
    do 12 (destruct s as [|? s]; [simpl in Hl; lia|]).
    rewrite mac_of_twelve.
    eexists. split; [reflexivity|].
    split; [reflexivity|]. split.
    { unfold Tables.colons_at. repeat constructor. }
    split.
    { cbn -[upper_ascii]. rewrite !upper_ascii_idem. reflexivity. }
    intros t. cbn [append]. apply mac_of_twelve.
  - intros Hl. unfold mac_of.
    eexists. split; [reflexivity|]. rewrite upper_length.
    do 12 (destruct s as [|? s]; [vm_compute; lia|]).
    simpl in Hl. lia.
  - intros v Hv _. destruct v; try reflexivity. exfalso. eapply Hv. reflexivity.
Qed.

(** X12. Taking the login from the cache.  With an empty cache the call
    does nothing.  Otherwise only the entry that was inserted first counts:
    the fields of its login dict are written over the manager's dict, nothing
    is sent and the cache is as before.  When that login dict has the six
    login fields, the manager has a login afterwards, its cache key is the
    key of that login dict, and if the entry is held under that key,
    [_check_login] holds. *)
Theorem cached_login_is_adopted (self : HASSTuyaBLEDeviceManager) (w : world) :
  (_cache w = [] -> get_login_from_cache self w = (Ok tt, w))
  /\ (forall key it rest,
        _cache w = (key, it) :: rest ->
        let l := content w (item_login it) in
        exists w',
          get_login_from_cache self w = (Ok tt, w')
          /\ content w' (_data self) = dict_update (content w (_data self)) l
          /\ _cache w' = _cache w
          /\ net_log w' = net_log w
          /\ (_has_login l = true ->
              _has_login (content w' (_data self)) = true
              /\ _get_cache_key (content w' (_data self)) = _get_cache_key l
              /\ (key = _get_cache_key l -> _check_login self w' = (Ok true, w')))).
Proof.
  split.
  - intros Hc. unfold get_login_from_cache, bind, get_cache. simpl. rewrite Hc. reflexivity.
  - intros key it rest Hc l.
    unfold get_login_from_cache, bind, get_cache, deref, modify. simpl. rewrite Hc.
    fold l. eexists. split; [reflexivity|].
    rewrite content_with_dict. split; [reflexivity|].
    split; [simpl; rewrite ?Hc; reflexivity|]. split; [reflexivity|].
    intros Hl.
    assert (Hk : forall k, In k CONF_TUYA_LOGIN_KEYS ->
                   dict_get (dict_update (content w (_data self)) l) k = dict_get l k).
    { intros k Hin. unfold _has_login in Hl. rewrite forallb_forall in Hl.
      apply Hl, is_not_none_get in Hin as (v & Hv & _).
      unfold dict_get, dict_update. rewrite Hv.
      rewrite (lookup_union_Some_l _ _ _ _ Hv). reflexivity. }
    assert (Hkey : _get_cache_key (dict_update (content w (_data self)) l)
                   = _get_cache_key l) by (apply get_cache_key_ext, Hk).
    split; [|split; [exact Hkey|]].
    + unfold _has_login in *. rewrite forallb_forall in *.
      intros k Hin. rewrite (Hk k Hin). apply Hl, Hin.
    + intros ->. unfold _check_login, bind, deref, cache_lookup, ret.
      rewrite content_with_dict, Hkey.
      change (_cache (with_dict (_data self)
                (dict_update (content w (_data self)) l) w)) with (_cache w).
      rewrite Hc. cbn [cache_get].
      destruct (decide (_get_cache_key l = _get_cache_key l)); [reflexivity|congruence].
Qed.

Lemma resolution_from_cache_sends_nothing_witness :
  exists r w',
    get_device_credentials cloud manager the_address false false
      (with_dict 0 login_fields holding_complete) = (Ok r, w')
    /\ net_log w' = []
    /\ w' = with_dict 0 login_fields holding_complete.
Proof.
  destruct (resolution_from_cache_sends_nothing cloud manager the_address false
              (with_dict 0 login_fields holding_complete))
    as (r & w' & Hrun & Hn & _ & _ & Hw).
  - intros _. vm_compute. discriminate.
  - exists r, w'. split; [exact Hrun|]. split; [exact Hn|]. apply Hw. reflexivity.
Defined.

Lemma own_login_entry_only_witness :
  get_device_credentials cloud manager the_address false false
    (with_dict 0 login_fields logged_in)
  = (Ok None, with_dict 0 login_fields logged_in).
Proof.
  apply (own_login_entry_only cloud manager the_address false
           (with_dict 0 login_fields logged_in)
           {| item_api := Some (api_of login_fields (Some ∅));
              item_login := 1; item_credentials := ∅ |}).
  - vm_compute. reflexivity.
  - vm_compute. reflexivity.
  - vm_compute. reflexivity.
  - vm_compute. reflexivity.
Defined.

Lemma unknown_address_is_a_miss_witness :
  get_device_credentials cloud manager the_address false true logged_in
  = (Ok None, logged_in).
Proof.
  apply (unknown_address_is_a_miss cloud manager the_address true logged_in).
  - vm_compute. reflexivity.
  - vm_compute. reflexivity.
  - repeat constructor.
Defined.

Lemma saved_credentials_answer_later_calls_witness :
  exists r w2,
    get_device_credentials cloud manager the_address false true holding_complete
    = (Ok r, w2)
    /\ get_device_credentials cloud manager "00:00:00:00:00:00" false false w2
       = (Ok r, w2).
Proof.
  destruct (saved_credentials_answer_later_calls cloud manager the_address false
              holding_complete holding_complete one_record (_get_cache_key login_fields))
    as (r & w2 & Hrun & _ & _ & Hlater).
  - vm_compute. reflexivity.
  - vm_compute. reflexivity.
  - exists r, w2. split; [exact Hrun|apply Hlater].
Defined.

Lemma login_success_upserts_witness :
  exists w',
    login cloud manager ENABLE (world_with login_fields)
    = (Ok {[ TUYA_RESPONSE_SUCCESS := VBool true ]}, w')
    /\ _check_login manager w' = (Ok true, w').
Proof.
  destruct (login_success_upserts cloud manager ENABLE (world_with login_fields))
    as (w' & Hrun & _ & _ & _ & _ & Hc).
  - vm_compute. discriminate.
  - vm_compute. reflexivity.
  - vm_compute. reflexivity.
  - exists w'. split; [exact Hrun|exact Hc].
Defined.

Lemma sweep_entries_share_the_scratch_dict_witness :
  exists it,
    cache_get
      (_cache (snd (for_each [login_fields; five_fields] (build_cache_entry cloud 1)
                      (with_dict 1 ∅ (world_with ∅)))))
      (_get_cache_key login_fields) = Some it
    /\ content
         (snd (for_each [login_fields; five_fields] (build_cache_entry cloud 1)
                 (with_dict 1 ∅ (world_with ∅))))
         (item_login it) = five_fields.
Proof.
  destruct (sweep_entries_share_the_scratch_dict cloud 1 login_fields [five_fields]
              (with_dict 1 ∅ (world_with ∅))
              (snd (for_each [login_fields; five_fields] (build_cache_entry cloud 1)
                      (with_dict 1 ∅ (world_with ∅)))))
    as (it & Hget & _ & Hcontent).
  - vm_compute. reflexivity.
  - vm_compute. reflexivity.
  - vm_compute. reflexivity.
  - apply run_ok. vm_compute. reflexivity.
  - exists it. split; [exact Hget|exact Hcontent].
Defined.


Lemma cache_records_sit_under_their_address_witness :
  Tables.well_keyed (_cache (snd (build_cache cloud sweeper (world_with ∅)))).
Proof.
  apply (cache_records_sit_under_their_address cloud sweeper (world_with ∅)).
  intros key it H. vm_compute in H. discriminate.
Defined.

End CloudExtras.

(** * Further properties of the coordinator *)

Module DevicesExtras.
Import Devices MoreExamples DevicesProofs.

Section Presence.
Variable SET_DISCONNECTED_DELAY : nat.
Variable devices_database : gmap string TuyaBLECategoryInfo.

Local Abbreviation deliver := (deliver SET_DISCONNECTED_DELAY devices_database).
Local Abbreviation run := (run SET_DISCONNECTED_DELAY devices_database).
Local Abbreviation handle_update := (_async_handle_update devices_database).
Local Abbreviation handle_disconnect := (_async_handle_disconnect SET_DISCONNECTED_DELAY).
Local Abbreviation update_fields := (DevicesProofs.update_fields devices_database).

Lemma fire_fold_scheduled (fb : TuyaBLEFingerbotInfo) (updates : list TuyaBLEDataPoint)
    (self : TuyaBLECoordinator) :
  scheduled (hass (fold_left
      (fun s update =>
         if (id update =? switch fb)%nat && changed_by_device update
         then with_hass s (fire (address (_device s), device_id (_device s)) (hass s))
         else s)
      updates self)) = scheduled (hass self).
Proof.
  revert self. induction updates as [|u updates IH]; intros self; simpl; [reflexivity|].
  destruct (_ && _); rewrite IH; reflexivity.
Qed.

Lemma update_scheduled (self : TuyaBLECoordinator) updates :
  scheduled (hass (snd (handle_update self updates))) = scheduled (hass self).
Proof.
  destruct (connect_fields self) as (_ & _ & H3 & _). cbv zeta in H3.
  unfold _async_handle_update.
  destruct (_async_handle_connect self) as [[[]|e] c0]; cbn [snd] in *; [|exact H3].
  destruct (get_device_product_info _ _) as [product|]; [|exact H3].
  destruct (fingerbot product) as [fb|]; [|exact H3].
  destruct (negb _); [|exact H3].
  rewrite fire_fold_scheduled. exact H3.
Qed.

(** A connect signal returns when the coordinator is connected already or
    the address has a short address; it raises on the remaining edge. *)
Lemma connect_returns (self : TuyaBLECoordinator) :
  _disconnected self = false \/ 2 <= Names.separators (address (_device self)) ->
  exists c0,
    _async_handle_connect self = (Ok tt, c0)
    /\ listener_updates (hass c0)
       = (if _disconnected self then 1 else 0) + listener_updates (hass self).
Proof.
  intros H. destruct self as [h d dis un]. cbn [_disconnected _device] in H.
  unfold _async_handle_connect, update_registry, get_device_info.
  destruct dis.
  - destruct H as [H|H]; [discriminate|].
    destruct (NamesFacts.short_address_total (address d) H) as [short Hshort].
    destruct un as [handle|]; cbn -[Names.get_short_address];
      rewrite Hshort; cbn -[Names.get_short_address];
      destruct (registry h !! address d); eexists; split; reflexivity.
  - destruct un as [handle|]; cbn -[Names.get_short_address];
      eexists; split; reflexivity.
Qed.

Lemma connect_raises (self : TuyaBLECoordinator) :
  _disconnected self = true -> Names.separators (address (_device self)) < 2 ->
  exists c0,
    _async_handle_connect self = (Raise IndexError, c0)
    /\ listener_updates (hass c0) = listener_updates (hass self)
    /\ registry (hass c0) = registry (hass self)
    /\ registry_updates (hass c0) = registry_updates (hass self).
Proof.
  intros Hd Hs. destruct self as [h d dis un]. cbn [_disconnected _device] in Hd, Hs.
  subst dis. pose proof (NamesFacts.short_address_partial (address d) Hs) as Hshort.
  unfold _async_handle_connect, update_registry, get_device_info.
  destruct un as [handle|]; cbn -[Names.get_short_address];
    rewrite Hshort; cbn -[Names.get_short_address];
    eexists; repeat split; reflexivity.
Qed.

Lemma pending_is_owned (self : TuyaBLECoordinator) handle :
  timer_owned self -> is_pending handle (hass self) = true ->
  _unsub_disconnect self = Some handle.
Proof.
  unfold timer_owned, is_pending. intros Ho Hp.
  destruct (pending (hass self)) as [|[n d] [|t l]]; [discriminate| |contradiction].
  simpl in Hp. rewrite orb_false_r in Hp. apply Nat.eqb_eq in Hp. congruence.
Qed.

(** The timer discipline with the delay: nothing is pending, or one timer
    with the grace delay whose handle the coordinator holds. *)
Lemma deliver_grace (self : TuyaBLECoordinator) (s : signal) :
  Presence.graced SET_DISCONNECTED_DELAY self ->
  Presence.graced SET_DISCONNECTED_DELAY (deliver self s).
Proof.
  intros Hg.
  assert (Ho : timer_owned self).
  { unfold timer_owned. destruct Hg as [-> | (h & -> & Hh & _)]; [exact I|exact Hh]. }
  destruct s as [| |updates|handle]; simpl.
  - left. apply connect_pending, Ho.
  - unfold _async_handle_disconnect.
    destruct (_unsub_disconnect self) as [h|] eqn:Hh; [exact Hg|].
    right. exists (scheduled (hass self)). simpl.
    rewrite (owned_none_empty self Ho Hh). simpl. repeat split. lia.
  - left. destruct (update_fields self updates) as (_ & _ & H3 & _).
    cbv zeta in H3. rewrite H3. apply connect_pending, Ho.
  - destruct (is_pending handle (hass self)) eqn:Hp; [|exact Hg].
    left. simpl. apply (cancel_owned self handle Ho), pending_is_owned; assumption.
Qed.

(** X13. From a fresh coordinator, after any sequence of connect,
    disconnect, update and timer signals, either no timer is pending, or
    exactly one is: it was scheduled with the grace delay
    [SET_DISCONNECTED_DELAY] and its handle is the one stored in
    [_unsub_disconnect]. *)
Theorem at_most_one_grace_timer
    (reg : gmap string DeviceEntry) (device : TuyaBLEDevice) (signals : list signal) :
  let c := run (init (fresh_hass reg) device) signals in
  pending (hass c) = []
  \/ exists handle,
       pending (hass c) = [(handle, SET_DISCONNECTED_DELAY)]
       /\ _unsub_disconnect c = Some handle
       /\ handle < scheduled (hass c).
Proof.
  cbv zeta.
  assert (H : forall c, Presence.graced SET_DISCONNECTED_DELAY c ->
                        Presence.graced SET_DISCONNECTED_DELAY (run c signals)).
  { induction signals as [|s l IH]; intros c Hc; simpl; [exact Hc|].
    apply IH, deliver_grace, Hc. }
  apply (H (init (fresh_hass reg) device)). left. reflexivity.
Qed.

(** X14. How the presence of the device changes under one signal, in any
    state.  A connected coordinator becomes disconnected only when a timer
    that is still pending fires; a disconnected one becomes connected only by
    a connect or an update signal, and any connect or update signal leaves it
    connected.  A disconnect signal by itself changes neither the presence
    nor what the listeners, the registry and the bus have seen. *)
Theorem presence_changes_only_by_timer_or_traffic (self : TuyaBLECoordinator) :
  (forall s, connected self = true -> connected (deliver self s) = false ->
     exists handle, s = SigTimer handle /\ is_pending handle (hass self) = true)
  /\ (forall s, connected self = false -> connected (deliver self s) = true ->
       s = SigConnect \/ exists updates, s = SigUpdate updates)
  /\ connected (deliver self SigConnect) = true
  /\ (forall updates, connected (deliver self (SigUpdate updates)) = true)
  /\ (let self' := deliver self SigDisconnect in
      connected self' = connected self
      /\ listener_updates (hass self') = listener_updates (hass self)
      /\ registry (hass self') = registry (hass self)
      /\ registry_updates (hass self') = registry_updates (hass self)
      /\ bus (hass self') = bus (hass self)).
Proof.
  unfold connected.
  split; [|split; [|split; [|split]]].
  - intros s Hc Hd. destruct s as [| |updates|handle]; simpl in Hd.
    + destruct (connect_fields self) as (H1 & _). cbv zeta in H1.
      rewrite H1 in Hd. discriminate.
    + unfold _async_handle_disconnect in Hd.
      destruct (_unsub_disconnect self); simpl in Hd; congruence.
    + destruct (update_fields self updates) as (H1 & _). cbv zeta in H1.
      rewrite H1 in Hd. discriminate.
    + exists handle. split; [reflexivity|].
      destruct (is_pending handle (hass self)); [reflexivity|congruence].
  - intros s Hc Hd. destruct s as [| |updates|handle]; simpl in Hd.
    + left. reflexivity.
    + unfold _async_handle_disconnect in Hd.
      destruct (_unsub_disconnect self); simpl in Hd; congruence.
    + right. exists updates. reflexivity.
    + destruct (is_pending handle (hass self)); simpl in Hd; congruence.
  - simpl. destruct (connect_fields self) as (H1 & _). cbv zeta in H1.
    rewrite H1. reflexivity.
  - intros updates. simpl. destruct (update_fields self updates) as (H1 & _).
    cbv zeta in H1. rewrite H1. reflexivity.
  - cbv zeta. simpl. unfold _async_handle_disconnect.
    destruct (_unsub_disconnect self); simpl; repeat split.
Qed.

(** A coordinator that is connected, has nothing pending and holds a
    handle stays so under every signal. *)
Lemma deliver_stuck (self : TuyaBLECoordinator) (s : signal) :
  Presence.stuck self ->
  Presence.stuck (deliver self s) /\ scheduled (hass (deliver self s)) = scheduled (hass self).
Proof.
  intros (Hd & Hp & Hh).
  assert (Ho : timer_owned self) by (unfold timer_owned; rewrite Hp; exact I).
  destruct s as [| |updates|handle]; simpl.
  - destruct (connect_fields self) as (H1 & H2 & H3 & _). cbv zeta in H1, H2, H3.
    split; [|exact H3]. split; [exact H1|]. split; [apply connect_pending, Ho|].
    rewrite H2. exact Hh.
  - unfold _async_handle_disconnect.
    destruct (_unsub_disconnect self) as [h|] eqn:E; [|destruct Hh; discriminate].
    split; [|reflexivity]. split; [exact Hd|]. split; [exact Hp|]. rewrite E. exact Hh.
  - destruct (update_fields self updates) as (H1 & H2 & H3 & _). cbv zeta in H1, H2, H3.
    split; [|apply update_scheduled]. split; [exact H1|].
    split; [rewrite H3; apply connect_pending, Ho|]. rewrite H2. exact Hh.
  - unfold is_pending. rewrite Hp. simpl.
    split; [|reflexivity]. split; [exact Hd|]. split; [exact Hp|exact Hh].
Qed.

Lemma run_stuck (self : TuyaBLECoordinator) (signals : list signal) :
  Presence.stuck self ->
  Presence.stuck (run self signals) /\ scheduled (hass (run self signals)) = scheduled (hass self).
Proof.
  revert self. induction signals as [|s l IH]; intros self Hs; simpl.
  - split; [exact Hs|reflexivity].
  - destruct (deliver_stuck self s Hs) as (H1 & H2).
    destruct (IH _ H1) as (H3 & H4). split; [exact H3|]. rewrite H4. exact H2.
Qed.

(** X15. From a fresh coordinator, take any history after which a handle
    is stored in [_unsub_disconnect] (a disconnect signal armed a timer, and
    that timer has not fired since).  If a connect or an update signal arrives next,
    then whatever signals follow (disconnects, timers, connects, updates, in
    any number and order) the coordinator reports the device connected, no
    timer is pending, and no timer is ever scheduled again: the stored
    handle is never cleared, so no later loss of the connection is noticed. *)
Theorem reconnect_within_grace_sticks
    (reg : gmap string DeviceEntry) (device : TuyaBLEDevice)
    (before : list signal) (s : signal) (after : list signal) :
  let c := run (init (fresh_hass reg) device) before in
  _unsub_disconnect c <> None ->
  (s = SigConnect \/ exists updates, s = SigUpdate updates) ->
  let c' := run (deliver c s) after in
  connected c' = true
  /\ pending (hass c') = []
  /\ scheduled (hass c') = scheduled (hass c)
  /\ _unsub_disconnect c' = _unsub_disconnect c.
Proof.
  cbv zeta.
  set (c := run (init (fresh_hass reg) device) before).
  assert (Ho : timer_owned c) by (apply run_owned; exact I).
  clearbody c. intros Hh Hs.
  assert (Hst : Presence.stuck (deliver c s)
                /\ scheduled (hass (deliver c s)) = scheduled (hass c)
                /\ _unsub_disconnect (deliver c s) = _unsub_disconnect c).
  { destruct Hs as [-> | (updates & ->)]; simpl.
    - destruct (connect_fields c) as (H1 & H2 & H3 & _). cbv zeta in H1, H2, H3.
      split; [|split; assumption].
      split; [exact H1|]. split; [apply connect_pending, Ho|]. rewrite H2.
      destruct (_unsub_disconnect c); [eauto|congruence].
    - destruct (update_fields c updates) as (H1 & H2 & H3 & _). cbv zeta in H1, H2, H3.
      split; [|split; [apply update_scheduled|assumption]].
      split; [exact H1|]. split; [rewrite H3; apply connect_pending, Ho|]. rewrite H2.
      destruct (_unsub_disconnect c); [eauto|congruence]. }
  destruct Hst as (Hst & Hsch & Hun).
  assert (Hkeep : forall l x, Presence.stuck x ->
                    _unsub_disconnect (run x l) = _unsub_disconnect x).
  { induction l as [|a l IH]; intros x Hx; simpl; [reflexivity|].
    destruct (deliver_stuck x a Hx) as (Hx' & _). rewrite (IH _ Hx').
    destruct Hx as (Hd & Hp & Hh').
    destruct a as [| |updates|handle]; simpl.
    - apply connect_fields.
    - unfold _async_handle_disconnect.
      destruct (_unsub_disconnect x) eqn:E; [exact E|]. destruct Hh'; discriminate.
    - apply update_fields.
    - unfold is_pending. rewrite Hp. reflexivity. }
  destruct (run_stuck (deliver c s) after Hst) as ((Hd & Hp & _) & Hs2).
  unfold connected. rewrite Hd, Hp, Hs2, Hsch, (Hkeep after _ Hst), Hun.
  repeat split.
Qed.

(** X16. From a fresh coordinator, after any history: when a timer that is
    still pending fires, the coordinator reports the device disconnected,
    the stored handle is cleared, the listeners are notified once and
    nothing is pending; the same timer firing again changes nothing, and the
    next disconnect signal schedules a new timer. *)
Theorem grace_timer_expiry
    (reg : gmap string DeviceEntry) (device : TuyaBLEDevice)
    (signals : list signal) (handle : nat) :
  let c := run (init (fresh_hass reg) device) signals in
  is_pending handle (hass c) = true ->
  let c' := deliver c (SigTimer handle) in
  connected c' = false
  /\ _unsub_disconnect c' = None
  /\ pending (hass c') = []
  /\ listener_updates (hass c') = S (listener_updates (hass c))
  /\ deliver c' (SigTimer handle) = c'
  /\ pending (hass (deliver c' SigDisconnect))
     = [(scheduled (hass c), SET_DISCONNECTED_DELAY)].
Proof.
  cbv zeta.
  set (c := run (init (fresh_hass reg) device) signals).
  assert (Ho : timer_owned c) by (apply run_owned; exact I).
  clearbody c. intros Hp.
  destruct (timer_fires_once SET_DISCONNECTED_DELAY devices_database c handle Ho Hp)
    as (H1 & H2 & H3 & H4 & H5).
  cbv zeta in H1, H2, H3, H4, H5. unfold connected. rewrite H1.
  repeat (split; [assumption || reflexivity|]).
  simpl. rewrite Hp. simpl.
  pose proof (cancel_owned c handle Ho (pending_is_owned c handle Ho Hp)) as Hc.
  simpl in Hc. rewrite Hc. reflexivity.
Qed.

(** The events an update puts on the bus. *)
Lemma fire_fold_bus (fb : TuyaBLEFingerbotInfo) (updates : list TuyaBLEDataPoint)
    (self : TuyaBLECoordinator) :
  bus (hass (fold_left
      (fun s update =>
         if (id update =? switch fb)%nat && changed_by_device update
         then with_hass s (fire (address (_device s), device_id (_device s)) (hass s))
         else s)
      updates self))
  = (bus (hass self)
     ++ repeat (address (_device self), device_id (_device self))
          (length (List.filter
             (fun update => (id update =? switch fb)%nat && changed_by_device update)
             updates)))%list.
Proof.
  revert self. induction updates as [|u updates IH]; intros self; simpl.
  - rewrite app_nil_r. reflexivity.
  - destruct (_ && _); rewrite IH; simpl; [|reflexivity].
    rewrite <- app_assoc. reflexivity.
Qed.

(** X17. What an update signal does, in any state.  Afterwards the
    coordinator reports the device connected.  When the coordinator was
    connected already, or the address of the device has two separators or
    more, the handler returns: the bus has received one button event
    carrying the address and the id of the device for each data point of the
    update that has the id of the product's fingerbot switch and was changed
    by the device, in case the product is a fingerbot whose [manual_control]
    is not 0, and no event otherwise; the listeners were notified once for
    the data, and once more when the coordinator was disconnected before.
    When the coordinator was disconnected and the address has fewer than two
    separators, the handler raises [IndexError]: no event is fired, no
    listener is notified and the registry is as before. *)
Theorem update_fires_button_events (self : TuyaBLECoordinator)
    (updates : list TuyaBLEDataPoint) :
  let r := handle_update self updates in
  connected (snd r) = true
  /\ (_disconnected self = false \/ 2 <= Names.separators (address (_device self)) ->
      fst r = Ok tt
      /\ bus (hass (snd r))
         = (bus (hass self)
            ++ repeat (address (_device self), device_id (_device self))
                 (Presence.presses devices_database (_device self) updates))%list
      /\ listener_updates (hass (snd r))
         = (if _disconnected self then 2 else 1) + listener_updates (hass self))
  /\ (_disconnected self = true -> Names.separators (address (_device self)) < 2 ->
      fst r = Raise IndexError
      /\ bus (hass (snd r)) = bus (hass self)
      /\ listener_updates (hass (snd r)) = listener_updates (hass self)
      /\ registry (hass (snd r)) = registry (hass self)
      /\ registry_updates (hass (snd r)) = registry_updates (hass self)).
Proof.
  cbv zeta. split.
  { unfold connected. destruct (update_fields self updates) as (H1 & _).
    cbv zeta in H1. rewrite H1. reflexivity. }
  destruct (connect_fields self) as (_ & _ & _ & Hb & Hd & _). cbv zeta in Hb, Hd.
  split.
  - intros H. destruct (connect_returns self H) as (c0 & Hrun & Hl).
    unfold _async_handle_update, Presence.presses.
    rewrite Hrun in Hb, Hd |- *. cbn [fst snd] in *.
    split; [reflexivity|].
    set (c := with_hass c0 (async_update_listeners (hass c0))).
    assert (Hc : bus (hass c) = bus (hass self) /\ _device c = _device self
                 /\ listener_updates (hass c)
                    = (if _disconnected self then 2 else 1) + listener_updates (hass self)).
    { subst c. simpl. rewrite Hb, Hd, Hl. repeat split.
      destruct (_disconnected self); reflexivity. }
    destruct Hc as (C1 & C2 & C3). clearbody c. rewrite C2.
    destruct (get_device_product_info _ _) as [product|];
      [|simpl; rewrite app_nil_r; split; assumption].
    destruct (fingerbot product) as [fb|];
      [|simpl; rewrite app_nil_r; split; assumption].
    destruct (negb _); [|simpl; rewrite app_nil_r; split; assumption].
    rewrite fire_fold_bus, C1, C2. split; [reflexivity|].
    rewrite <- C3. clear.
    revert c. induction updates as [|u l IH]; intros c; simpl; [reflexivity|].
    destruct (_ && _); rewrite IH; reflexivity.
  - intros Hdis Hs. destruct (connect_raises self Hdis Hs) as (c0 & Hrun & Hl & Hr & Hru).
    unfold _async_handle_update. rewrite Hrun in Hb |- *. cbn [fst snd] in *.
    repeat split; assumption.
Qed.

End Presence.

Lemma reconnect_within_grace_sticks_witness :
  let c := run 30 ∅ (init (fresh_hass ∅) the_device)
             [SigDisconnect; SigConnect; SigDisconnect; SigTimer 0] in
  connected c = true /\ pending (hass c) = [] /\ scheduled (hass c) = 1%nat.
Proof.
  destruct (reconnect_within_grace_sticks 30 ∅ ∅ the_device [SigDisconnect] SigConnect
              [SigDisconnect; SigTimer 0%nat])
    as (H1 & H2 & H3 & _).
  - vm_compute. discriminate.
  - left. reflexivity.
  - cbv zeta. split; [exact H1|]. split; [exact H2|exact H3].
Defined.

Lemma grace_timer_expiry_witness :
  let c := run 30 ∅ (init (fresh_hass ∅) the_device)
             [SigConnect; SigDisconnect; SigTimer 0] in
  connected c = false /\ _unsub_disconnect c = None /\ pending (hass c) = [].
Proof.
  destruct (grace_timer_expiry 30 ∅ ∅ the_device [SigConnect; SigDisconnect] 0%nat)
    as (H1 & H2 & H3 & _).
  - vm_compute. reflexivity.
  - cbv zeta. split; [exact H1|]. split; [exact H2|exact H3].
Defined.

End DevicesExtras.

(** * The short address *)

Module NamesExtras.
Import Names NamesFacts.

Lemma upper_short_char (c : ascii) :
  Ascii.eqb (upper_ascii (if Ascii.eqb c "-"%char then ":"%char else c)) ":"%char
  || short_char (upper_ascii (if Ascii.eqb c "-"%char then ":"%char else c)) = true.
Proof. destruct c as [[] [] [] [] [] [] [] []]; reflexivity. Qed.

Lemma split_pieces (address : string) :
  Forall (fun piece => every short_char piece = true)
    (split_colon (upper (replace_hyphen address))).
Proof.
  induction address as [|c s IH]; simpl; [repeat constructor|].
  pose proof (upper_short_char c) as Hc.
  destruct (Ascii.eqb _ ":"%char).
  - constructor; [reflexivity|exact IH].
  - simpl in Hc.
    destruct (split_colon_cons (upper (replace_hyphen s))) as (p & ps & E).
    rewrite E in IH |- *. inversion IH as [|? ? Hp Hps]; subst.
    constructor; [|exact Hps]. simpl. rewrite Hc, Hp. reflexivity.
Qed.

Lemma every_append (P : ascii -> bool) (s t : string) :
  every P s = true -> every P t = true -> every P (s +:+ t) = true.
Proof.
  induction s as [|c s IH]; simpl; intros Hs Ht; [exact Ht|].
  apply andb_true_iff in Hs as [Hc Hs]. rewrite Hc, (IH Hs Ht). reflexivity.
Qed.

Lemma every_substring (P : ascii -> bool) (s : string) (n m : nat) :
  every P s = true -> every P (String.substring n m s) = true.
Proof.
  revert n m. induction s as [|c s IH]; intros n m Hs.
  - destruct n, m; reflexivity.
  - simpl in Hs. apply andb_true_iff in Hs as [Hc Hs].
    destruct n as [|n]; simpl.
    + destruct m as [|m]; simpl; [reflexivity|]. rewrite Hc, (IH 0 m Hs). reflexivity.
    + apply IH, Hs.
Qed.

Lemma substring_length_le (s : string) (n m : nat) :
  String.length (String.substring n m s) <= m.
Proof.
  revert n m. induction s as [|c s IH]; intros n m.
  - destruct n, m; simpl; lia.
  - destruct n as [|n]; simpl.
    + destruct m as [|m]; simpl; [lia|]. specialize (IH 0 m). lia.
    + apply IH.
Qed.

Lemma every_short (s : string) :
  every short_char s = true -> plain s = true /\ upper s = s.
Proof.
  induction s as [|c s IH]; simpl; intros Hs; [split; reflexivity|].
  apply andb_true_iff in Hs as [Hc Hs]. destruct (IH Hs) as [Hp Hu].
  unfold short_char in Hc. apply andb_true_iff in Hc as [Hc Hup].
  rewrite Hc, Hp, Hu. apply Ascii.eqb_eq in Hup. rewrite Hup. split; reflexivity.
Qed.

(** X18. The short address of a Bluetooth address.  An address with fewer
    than two separators ([:] or [-]) has no short address: the call raises
    [IndexError].  With two separators or more the call returns at most six
    characters, none of them a separator, in upper case. *)
Theorem short_address_needs_two_separators (address : string) :
  (separators address < 2 -> get_short_address address = Raise IndexError)
  /\ (2 <= separators address ->
      exists short,
        get_short_address address = Ok short
        /\ String.length short <= 6
        /\ plain short = true
        /\ upper short = short).
Proof.
  unfold get_short_address. cbv zeta.
  pose proof (split_length address) as Hl.
  pose proof (split_pieces address) as Hp.
  apply Forall_rev in Hp. rewrite <- length_rev in Hl.
  destruct (rev (split_colon (upper (replace_hyphen address)))) as [|r1 [|r2 [|r3 l]]];
    simpl in Hl.
  - discriminate.
  - split; [reflexivity|lia].
  - split; [reflexivity|lia].
  - split; [lia|]. intros _. eexists. split; [reflexivity|].
    split; [apply substring_length_le|].
    apply every_short. unfold last_six. apply every_substring.
    inversion Hp as [|? ? H1 Hp']; subst. inversion Hp' as [|? ? H2 Hp'']; subst.
    inversion Hp'' as [|? ? H3 _]; subst.
    apply every_append; [exact H3|]. apply every_append; assumption.
Qed.

Lemma split_pair (u1 u2 : ascii) (rest : string) :
  short_char u1 = true -> short_char u2 = true ->
  split_colon (upper (replace_hyphen (String u1 (String u2 (String ":"%char rest)))))
  = String u1 (String u2 EmptyString) :: split_colon (upper (replace_hyphen rest)).
Proof.
  unfold short_char. intros H1 H2.
  apply andb_true_iff in H1 as [H1 U1]. apply andb_true_iff in H1 as [C1 D1].
  apply andb_true_iff in H2 as [H2 U2]. apply andb_true_iff in H2 as [C2 D2].
  apply negb_true_iff in C1, D1, C2, D2. apply Ascii.eqb_eq in U1, U2.
  cbn [replace_hyphen upper]. rewrite D1, D2. change (Ascii.eqb ":" "-") with false.
  cbv iota. rewrite U1, U2. change (upper_ascii ":") with ":"%char.
  cbn [split_colon]. rewrite C1, C2. change (Ascii.eqb ":" ":") with true.
  reflexivity.
Qed.

Lemma split_last_pair (u1 u2 : ascii) :
  short_char u1 = true -> short_char u2 = true ->
  split_colon (upper (replace_hyphen (String u1 (String u2 EmptyString))))
  = [String u1 (String u2 EmptyString)].
Proof.
  unfold short_char. intros H1 H2.
  apply andb_true_iff in H1 as [H1 U1]. apply andb_true_iff in H1 as [C1 D1].
  apply andb_true_iff in H2 as [H2 U2]. apply andb_true_iff in H2 as [C2 D2].
  apply negb_true_iff in C1, D1, C2, D2. apply Ascii.eqb_eq in U1, U2.
  cbn [replace_hyphen upper]. rewrite D1, D2. cbv iota. rewrite U1, U2.
  cbn [split_colon]. rewrite C1, C2. reflexivity.
Qed.

Lemma upper_short (c : ascii) :
  negb (Ascii.eqb c ":"%char) && negb (Ascii.eqb c "-"%char) = true ->
  short_char (upper_ascii c) = true.
Proof. destruct c as [[] [] [] [] [] [] [] []]; simpl; intros H; try discriminate; reflexivity. Qed.

(** X19. The address a fill derives from a MAC field and the short address
    agree: for a MAC field (ASCII text) of twelve characters or more whose
    first twelve hold no separator, the short address of the derived address
    is the upper case of characters seven to twelve of the field. *)
Theorem short_address_of_filled_address (s : string) :
  12 <= String.length s ->
  plain (String.substring 0 12 s) = true ->
  exists m,
    mac_of (VStr s) = Ok m
    /\ get_short_address m = Ok (upper (String.substring 6 6 s)).
Proof.
  intros Hl Hp.
  do 12 (destruct s as [|? s]; [simpl in Hl; lia|]).
  rewrite CloudExtras.mac_of_twelve. eexists. split; [reflexivity|].
  cbn [String.substring plain] in Hp.
  repeat match type of Hp with
         | (_ && _ && _)%bool = true =>
             let H := fresh "H" in
             apply andb_true_iff in Hp as [H Hp];
             apply upper_short in H
         end.
  clear Hp Hl.
  cbn [String.substring upper]. rewrite CloudExtras.substring_0_0.
  cbn [upper].
  unfold get_short_address. cbv zeta.
  rewrite !split_pair, split_last_pair by assumption.
  reflexivity.
Qed.

Lemma short_address_of_filled_address_witness :
  mac_of (VStr "aabbccddeeff") = Ok "AA:BB:CC:DD:EE:FF"
  /\ get_short_address "AA:BB:CC:DD:EE:FF" = Ok "DDEEFF".
Proof.
  destruct (short_address_of_filled_address "aabbccddeeff") as (m & Hm & Hs).
  - vm_compute. lia.
  - reflexivity.
  - assert (E : m = "AA:BB:CC:DD:EE:FF") by (vm_compute in Hm; congruence).
    subst m. split; [exact Hm|exact Hs].
Defined.

End NamesExtras.

(** * The configuration flow *)

Module ConfigFlowExtras.
Import Cloud Examples MoreExamples CloudProofs ConfigFlow.

Lemma find_country_returns (countries : list Country) (user_input : dict) country :
  find_country countries user_input = Returns country ->
  In country countries
  /\ exists v, user_input !! CONF_COUNTRY_CODE = Some v
               /\ is_str v (ConfigFlow.name country) = true.
Proof.
  induction countries as [|c l IH]; simpl; [discriminate|].
  unfold dict_getitem. destruct (user_input !! CONF_COUNTRY_CODE) as [v|]; [|discriminate].
  destruct (is_str v (ConfigFlow.name c)) eqn:E.
  - intros [= <-]. split; [left; reflexivity|eauto].
  - intros H. destruct (IH H) as (Hin & Hv). split; [right; exact Hin|exact Hv].
Qed.

Lemma find_country_unknown (countries : list Country) (user_input : dict) v :
  user_input !! CONF_COUNTRY_CODE = Some v ->
  (forall country, In country countries -> is_str v (ConfigFlow.name country) = false) ->
  find_country countries user_input = RuntimeError.
Proof.
  intros Hv. induction countries as [|c l IH]; simpl; intros H; [reflexivity|].
  unfold dict_getitem. rewrite Hv. rewrite (H c) by (left; reflexivity).
  apply IH. intros country Hin. apply H. right. exact Hin.
Qed.

Section Flow.
Variable remote : nat -> request -> dict.
Variable TUYA_COUNTRIES : list Country.

Local Abbreviation try_login := (_try_login remote TUYA_COUNTRIES).

(** X20. A login attempt of the flow that returns.  The six submitted
    fields (with the endpoint and the code of the chosen country) were
    written into the manager's dict before the request, and stay there
    whether the login succeeds or not; exactly one login request was sent,
    and the shared cache is as before.  The call returns the six fields
    exactly when the response reports success; otherwise it returns [None]
    and [errors] carries [base = login_error]. *)
Theorem try_login_keeps_submitted_fields
    (manager : HASSTuyaBLEDeviceManager) (user_input : dict)
    (errors placeholders : ref) (w w' : world) (returned : option dict) :
  errors <> _data manager ->
  placeholders <> _data manager ->
  try_login manager user_input errors placeholders w = (Returns returned, w') ->
  exists country,
    In country TUYA_COUNTRIES
    /\ let data := submitted country user_input in
       let d := dict_update (content w (_data manager)) data in
       let response := remote (length (net_log w)) (connect_request d) in
       content w' (_data manager) = d
       /\ (forall k, In k CONF_TUYA_LOGIN_KEYS -> d !! k = data !! k)
       /\ net_log w' = (net_log w ++ [connect_request d])%list
       /\ _cache w' = _cache w
       /\ (if _is_login_success response
           then returned = Some data /\ content w' errors = content w errors
           else returned = None
                /\ content w' errors !! "base" = Some (VStr "login_error")).
Proof.
  intros He Hp. unfold _try_login.
  destruct (find_country TUYA_COUNTRIES user_input) as [country|e|] eqn:Hc;
    [|discriminate|discriminate].
  destruct (find_country_returns _ _ _ Hc) as (Hin & _).
  unfold dict_getitem.
  destruct (user_input !! CONF_ACCESS_ID) as [v1|] eqn:E1; [|discriminate].
  destruct (user_input !! CONF_ACCESS_SECRET) as [v2|] eqn:E2; [|discriminate].
  destruct (user_input !! CONF_USERNAME) as [v3|] eqn:E3; [|discriminate].
  destruct (user_input !! CONF_PASSWORD) as [v4|] eqn:E4; [|discriminate].
  assert (Hd : list_to_map
              [(CONF_ENDPOINT, VStr (ConfigFlow.endpoint country)); (CONF_ACCESS_ID, v1);
               (CONF_ACCESS_SECRET, v2); (CONF_USERNAME, v3); (CONF_PASSWORD, v4);
               (CONF_COUNTRY_CODE, VStr (country_code country))]
             = submitted country user_input).
  { unfold submitted, dict_get. rewrite E1, E2, E3, E4. reflexivity. }
  rewrite Hd. clear Hd.
  set (data := submitted country user_input).
  set (d := dict_update (content w (_data manager)) data).
  assert (Hk : forall k, In k CONF_TUYA_LOGIN_KEYS -> d !! k = data !! k).
  { intros k Hk. subst d. unfold dict_update.
    assert (Hs : is_Some (data !! k)).
    { subst data. unfold submitted, CONF_TUYA_LOGIN_KEYS in *. simpl in Hk.
      destruct Hk as [<-|[<-|[<-|[<-|[<-|[<-|[]]]]]]]; vm_compute; eauto. }
    destruct Hs as [v Hv]. rewrite Hv. apply lookup_union_Some_l, Hv. }
  unfold login. rewrite login_run. cbv zeta.
  rewrite content_with_dict. fold d.
  assert (Hu : exists u, d !! CONF_USERNAME = Some u).
  { rewrite Hk by (unfold CONF_TUYA_LOGIN_KEYS; simpl; tauto).
    subst data. vm_compute. eauto. }
  destruct Hu as [u Hu].
  assert (Hsz : (size d =? 0)%nat = false).
  { apply Nat.eqb_neq. intros Hz. apply map_size_empty_iff in Hz.
    rewrite Hz in Hu. rewrite lookup_empty in Hu. discriminate. }
  rewrite Hsz. destruct (py_len _) as [n|e]; [|discriminate].
  rewrite Hu.
  change (net_log (with_dict (_data manager) d w)) with (net_log w).
  set (response := remote (length (net_log w)) (connect_request d)).
  assert (Hsucc : negb (size response =? 0)%nat
                  && py_truthy (dict_get_or response TUYA_RESPONSE_SUCCESS (VBool false))
                  = _is_login_success response).
  { unfold _is_login_success. destruct (size response =? 0)%nat eqn:Ez; [|reflexivity].
    apply Nat.eqb_eq, map_size_empty_iff in Ez. rewrite Ez. reflexivity. }
  assert (Hsame : (if _is_login_success response
                   then (Ok response, sent (connect_request d) (with_dict (_data manager) d w))
                   else (Ok response, sent (connect_request d) (with_dict (_data manager) d w)))
                  = (Ok response, sent (connect_request d) (with_dict (_data manager) d w)))
    by (destruct (_is_login_success response); reflexivity).
  rewrite Hsame, Hsucc. clear Hsame Hsucc.
  set (w2 := sent (connect_request d) (with_dict (_data manager) d w)).
  assert (H2 : content w2 (_data manager) = d
               /\ net_log w2 = (net_log w ++ [connect_request d])%list
               /\ _cache w2 = _cache w
               /\ content w2 errors = content w errors).
  { subst w2. unfold content, sent, with_dict. simpl.
    rewrite lookup_insert_eq, lookup_insert_ne by congruence. repeat split. }
  destruct H2 as (Hc2 & Hn2 & Hca2 & He2). clearbody w2.
  destruct (_is_login_success response) eqn:Hs.
  - intros [= <- <-]. exists country. split; [exact Hin|]. cbv zeta.
    fold data d response. rewrite Hs. repeat split; assumption.
  - intros H. exists country. split; [exact Hin|]. cbv zeta.
    fold data d response. rewrite Hs.
    destruct (negb (size response =? 0)%nat); injection H as <- <-;
      unfold content, with_dict in *; simpl;
      rewrite ?lookup_insert_ne by congruence.
    + repeat split; try assumption.
      destruct (decide (placeholders = errors)) as [->|Hne].
      * rewrite lookup_insert_eq. simpl. unfold dict_update.
        apply lookup_union_Some_raw. right. split; [reflexivity|].
        rewrite lookup_insert_eq. simpl. apply lookup_insert_eq.
      * rewrite lookup_insert_ne by congruence. rewrite lookup_insert_eq. simpl.
        apply lookup_insert_eq.
    + repeat split; try assumption.
      rewrite lookup_insert_eq. simpl. apply lookup_insert_eq.
Qed.

(** X21. A country name that is not in the table of countries is not
    reported through [errors]: the attempt ends in the [RuntimeError] that
    replaces the [StopIteration] of [next], before the manager's dict is
    touched and before any request is sent. *)
Theorem try_login_unknown_country
    (manager : HASSTuyaBLEDeviceManager) (user_input : dict)
    (errors placeholders : ref) (w : world) (v : pyval) :
  user_input !! CONF_COUNTRY_CODE = Some v ->
  (forall country, In country TUYA_COUNTRIES ->
     is_str v (ConfigFlow.name country) = false) ->
  try_login manager user_input errors placeholders w = (RuntimeError, w).
Proof.
  intros Hv Hn. unfold _try_login.
  rewrite (find_country_unknown _ _ _ Hv Hn). reflexivity.
Qed.

Lemma store_manual_run (data : ref) (user_input : dict) (w : world) :
  store_manual_credentials data user_input w
  = (Ok tt,
     with_dict data
       (<[CONF_PRODUCT_NAME := dict_get_or user_input CONF_PRODUCT_NAME (VStr "")]>
       (<[CONF_PRODUCT_MODEL := dict_get_or user_input CONF_PRODUCT_MODEL (VStr "")]>
       (<[CONF_DEVICE_NAME := dict_get_or user_input CONF_DEVICE_NAME (VStr "")]>
       (<[CONF_PRODUCT_ID := dict_get_or user_input CONF_PRODUCT_ID (VStr "")]>
       (<[CONF_CATEGORY := dict_get_or user_input CONF_CATEGORY (VStr "")]>
       (<[CONF_DEVICE_ID := dict_get_or user_input CONF_DEVICE_ID (VStr "")]>
       (<[CONF_LOCAL_KEY := dict_get_or user_input CONF_LOCAL_KEY (VStr "")]>
       (<[CONF_UUID := dict_get_or user_input CONF_UUID (VStr "")]>
          (content w data))))))))) w).
Proof.
  unfold store_manual_credentials, for_each, bind, modify, ret.
  rewrite !content_with_dict, !with_dict_twice. reflexivity.
Qed.

(** X22. Manual entry of credentials.  After the form of
    [async_step_manual_credentials] was stored (no field of it null), the
    flow's dict binds all eight device fields, an absent one to the empty
    string.  Resolving the credentials of any address then never consults
    the cache or the remote service: the result is what
    [_create_credentials_from_dict] makes of the flow's dict, that is, the
    entered credentials, or nothing when one of the five mandatory fields
    was left empty. *)
Theorem manual_entry_never_asks_the_cloud
    (manager : HASSTuyaBLEDeviceManager) (address : string)
    (user_input : dict) (w : world) :
  (forall k, In k CONF_TUYA_DEVICE_KEYS -> user_input !! k <> Some VNone) ->
  exists w1,
    store_manual_credentials (_data manager) user_input w = (Ok tt, w1)
    /\ _cache w1 = _cache w
    /\ net_log w1 = net_log w
    /\ (forall k, In k CONF_TUYA_DEVICE_KEYS ->
          content w1 (_data manager) !! k = Some (dict_get_or user_input k (VStr "")))
    /\ _get_device_credentials remote manager address w1
       = (_create_credentials_from_dict (content w1 (_data manager)), w1).
Proof.
  intros Hn. rewrite store_manual_run. eexists. split; [reflexivity|].
  split; [reflexivity|]. split; [reflexivity|].
  rewrite content_with_dict.
  set (d := <[CONF_PRODUCT_NAME := _]> _).
  assert (Hk : forall k, In k CONF_TUYA_DEVICE_KEYS ->
                 d !! k = Some (dict_get_or user_input k (VStr ""))).
  { intros k Hk. subst d. unfold CONF_TUYA_DEVICE_KEYS in Hk. simpl in Hk.
    destruct Hk as [<-|[<-|[<-|[<-|[<-|[<-|[<-|[<-|[]]]]]]]]];
      repeat (rewrite lookup_insert_ne by discriminate);
      apply lookup_insert_eq. }
  split; [exact Hk|].
  assert (Hc : _has_credentials d = true).
  { apply has_credentials_spec. intros k Hin. eexists. split; [apply Hk, Hin|].
    unfold dict_get_or. specialize (Hn k Hin).
    destruct (user_input !! k) as [v|]; simpl; congruence. }
  unfold _get_device_credentials, bind, deref.
  rewrite content_with_dict. fold d.
  pose proof (CloudExtras.shortcut_run remote manager address false
                (with_dict (_data manager) d w)) as Hs.
  rewrite content_with_dict in Hs. specialize (Hs Hc).
  unfold _create_credentials_from_dict in *. unfold create in *.
  destruct (py_truthy (dict_get d CONF_UUID)); simpl; [|exact Hs].
  destruct (py_truthy (dict_get d CONF_LOCAL_KEY)); simpl; [|exact Hs].
  destruct (py_truthy (dict_get d CONF_DEVICE_ID)); simpl; [|exact Hs].
  destruct (py_truthy (dict_get d CONF_CATEGORY)); simpl; [|exact Hs].
  destruct (py_truthy (dict_get d CONF_PRODUCT_ID)); simpl; [|exact Hs].
  reflexivity.
Qed.

End Flow.

Lemma try_login_keeps_submitted_fields_witness :
  content (snd (_try_login rejecting [germany] manager login_form 1 2 flow_world)) 0
  = submitted germany login_form
  /\ content (snd (_try_login rejecting [germany] manager login_form 1 2 flow_world)) 1
       !! "base" = Some (VStr "login_error").
Proof.
  destruct (try_login_keeps_submitted_fields rejecting [germany] manager login_form 1 2
              flow_world
              (snd (_try_login rejecting [germany] manager login_form 1 2 flow_world))
              None)
    as (country & Hin & Hd & _ & _ & _ & Hr).
  - vm_compute. lia.
  - vm_compute. lia.
  - vm_compute. reflexivity.
  - destruct Hin as [<-|[]]. split.
    + etransitivity; [exact Hd|]. vm_compute. reflexivity.
    + vm_compute. reflexivity.
Defined.

Lemma try_login_unknown_country_witness :
  _try_login cloud [germany] manager unlisted_form 1 2 flow_world
  = (RuntimeError, flow_world).
Proof.
  apply (try_login_unknown_country cloud [germany] manager unlisted_form 1 2 flow_world
           (VStr "Atlantis")).
  - vm_compute. reflexivity.
  - intros country [<-|[]]. reflexivity.
Defined.

Lemma manual_entry_never_asks_the_cloud_witness :
  exists w1,
    store_manual_credentials 0 five_fields flow_world = (Ok tt, w1)
    /\ content w1 0 !! CONF_DEVICE_NAME = Some (VStr EmptyString)
    /\ _get_device_credentials cloud manager the_address w1
       = (_create_credentials_from_dict (content w1 0), w1).
Proof.
  destruct (manual_entry_never_asks_the_cloud cloud manager the_address five_fields
              flow_world)
    as (w1 & Hrun & _ & _ & Hk & Hget).
  - intros k Hk. simpl in Hk.
    destruct Hk as [<-|[<-|[<-|[<-|[<-|[<-|[<-|[<-|[]]]]]]]]]; vm_compute; discriminate.
  - exists w1. split; [exact Hrun|]. split; [|exact Hget].
    etransitivity; [apply (Hk CONF_DEVICE_NAME); simpl; tauto|].
    vm_compute. reflexivity.
Defined.

End ConfigFlowExtras.
